(** * mvz/pdf.go: a single-pass PDF writer, embedded and verified

    The Go file [src/mvz/pdf.go] streams a PDF document to an [io.Writer]:
    it numbers objects, remembers the byte offset of each one and ends the
    document with a cross-reference table and a trailer.

    The embedding keeps the shape of the source.  [PDFWriter] is the Go
    struct, the methods are state-passing functions of the same names, and
    the sink is a type class that plays the part of the [io.Writer]
    interface.  Integers that count bytes are Go [int]s (64 bits, two's
    complement) and wrap around; identifiers are lengths of slices.  *)

From Stdlib Require Import ZArith List String Ascii Bool Lia Floats.
From Stdlib Require Import Strings.Byte.
Import ListNotations.

Local Open Scope Z_scope.
Local Open Scope list_scope.

(* ================================================================== *)
(** ** Go base types *)

(** [error]: [None] is Go's [nil]. *)
Definition error := option string.

Definition isNil (e : error) : bool :=
  match e with None => true | Some _ => false end.

(** Go's [int] on a 64-bit platform: addition wraps around. *)
Definition wrap (z : Z) : Z := (z + 2 ^ 63) mod 2 ^ 64 - 2 ^ 63.
Definition int_add (a b : Z) : Z := wrap (a + b).
Definition int_sub (a b : Z) : Z := wrap (a - b).

(** [len] of a slice or a string.  A slice lives in memory, so its length
    (and a small constant added to it) is always inside the [int] range;
    identifiers, which are lengths of [p.objects], are therefore computed
    without wrap-around. *)
Definition len {A} (l : list A) : Z := Z.of_nat (List.length l).

(** [[]byte(s)] *)
Definition bytes (s : string) : list byte := list_byte_of_string s.

(* ================================================================== *)
(** ** The part of package [fmt] (and [time]) the writer uses *)

Definition digit (d : Z) : ascii := ascii_of_nat (48 + Z.to_nat d).

Fixpoint digits_aux (fuel : nat) (n : Z) (acc : string) : string :=
  match fuel with
  | O => acc
  | S fuel' =>
      let acc' := String (digit (n mod 10)) acc in
      if n <? 10 then acc' else digits_aux fuel' (n / 10) acc'
  end.

(** Decimal digits of a natural number; a number has no more decimal digits
    than binary ones, which is the fuel. *)
Definition digits (n : Z) : string :=
  digits_aux (S (Z.to_nat (Z.log2 n))) n EmptyString.

(** [%d] *)
Definition fmt_d (z : Z) : string :=
  if z <? 0 then String "-" (digits (- z)) else digits z.

Fixpoint zeros (n : nat) : string :=
  match n with O => EmptyString | S n' => String "0" (zeros n') end.

(** [%0<width>d]: the zeros go between the sign and the digits. *)
Definition fmt_0d (width : nat) (z : Z) : string :=
  let ds := digits (Z.abs z) in
  if z <? 0
  then String "-" (zeros (width - 1 - String.length ds) ++ ds)
  else (zeros (width - String.length ds) ++ ds)%string.

(** [Length] is a [float64]. *)
Definition Length := float.

(** [INCH Length = 72].  (The other constant of the source, [CM], is used
    nowhere in the writer and is left out.) *)
Definition INCH : Length := 72%float.

(** [Length(n)] for an [int] n: the nearest binary64 number. *)
Definition Length_of_int (z : Z) : Length :=
  SF2Prim (binary_normalize prec emax z 0 false).

(** The integer nearest to [num * 2^e], ties to even. *)
Definition round_half_even (num e : Z) : Z :=
  if 0 <=? e then num * 2 ^ e
  else
    let den := 2 ^ (- e) in
    let q := num / den in
    let r := num mod den in
    if 2 * r <? den then q
    else if den <? 2 * r then q + 1
    else if Z.even q then q else q + 1.

(** [%.2f]: the exact binary value, rounded to two decimals (ties to
    even), as [strconv] prints it. *)
Definition fmt_2f (f : float) : string :=
  match Prim2SF f with
  | S754_nan => "NaN"
  | S754_infinity s => if s then "-Inf" else "+Inf"
  | S754_zero s => if s then "-0.00" else "0.00"
  | S754_finite s m e =>
      let n := round_half_even (Z.pos m * 100) e in
      let body := (digits (n / 100) ++ "." ++ fmt_0d 2 (n mod 100))%string in
      if s then String "-" body else body
  end%string.

(** [time.Time], as the civil date and time that [Format] prints. *)
Record Time := mkTime {
  year : Z; month : Z; day : Z; hour : Z; minute : Z; second : Z
}.

(** [appendInt] of package [time]: the sign, then the digits filled up with
    zeros to [width] digits (the sign does not count, unlike in [%0d]). *)
Definition appendInt (width : nat) (z : Z) : string :=
  let ds := digits (Z.abs z) in
  let body := (zeros (width - String.length ds) ++ ds)%string in
  if z <? 0 then String "-" body else body.

(** [t.Format("20060102150405")]: year, month, day, hour, minute and
    second, each through [appendInt]. *)
Definition Format_20060102150405 (t : Time) : string :=
  (appendInt 4 (year t) ++ appendInt 2 (month t) ++ appendInt 2 (day t) ++
   appendInt 2 (hour t) ++ appendInt 2 (minute t) ++ appendInt 2 (second t))%string.

(** [image.Rectangle], which is all the writer asks of an [image.Image]. *)
Record Rectangle := mkRect { MinX : Z; MinY : Z; MaxX : Z; MaxY : Z }.

Definition Dx (r : Rectangle) : Z := int_sub (MaxX r) (MinX r).
Definition Dy (r : Rectangle) : Z := int_sub (MaxY r) (MinY r).

Record Image := mkImage { Bounds : Rectangle }.

(* ================================================================== *)
(** ** The sink: [io.Writer] *)

(** [Write(p []byte) (n int, err error)]; the sink changes, so the new sink
    is returned as well. *)
Class Writer (W : Type) := Write : W -> list byte -> W * (Z * error).

(** [io.WriteString] *)
Definition WriteString {W} `{Writer W} (snk : W) (s : string) : W * (Z * error) :=
  Write snk (bytes s).

(** [fmt.Fprintf], applied to the text its format and arguments produce:
    one [Write] of the whole text. *)
Definition Fprintf {W} `{Writer W} (snk : W) (text : string) : W * (Z * error) :=
  Write snk (bytes text).

(* ================================================================== *)
(** ** The writer *)

Definition PDFID := Z.

Record PDFWriter (W : Type) := mkPDFWriter {
  w : W;
  offset : Z;
  objects : list Z;      (* offsets *)
  pages : list PDFID;
  err : error;
  infoId : PDFID
}.

Arguments mkPDFWriter {W}.
Arguments w {W}.
Arguments offset {W}.
Arguments objects {W}.
Arguments pages {W}.
Arguments err {W}.
Arguments infoId {W}.

Inductive result (A : Type) : Type :=
| Ok (a : A)
| Panic (msg : string).

Arguments Ok {A}.
Arguments Panic {A}.

Section Methods.

Context {W : Type} `{Writer W}.

Definition set_w (p : PDFWriter W) (x : W) : PDFWriter W :=
  mkPDFWriter x (offset p) (objects p) (pages p) (err p) (infoId p).
Definition set_offset (p : PDFWriter W) (x : Z) : PDFWriter W :=
  mkPDFWriter (w p) x (objects p) (pages p) (err p) (infoId p).
Definition set_objects (p : PDFWriter W) (x : list Z) : PDFWriter W :=
  mkPDFWriter (w p) (offset p) x (pages p) (err p) (infoId p).
Definition set_pages (p : PDFWriter W) (x : list PDFID) : PDFWriter W :=
  mkPDFWriter (w p) (offset p) (objects p) x (err p) (infoId p).
Definition set_err (p : PDFWriter W) (x : error) : PDFWriter W :=
  mkPDFWriter (w p) (offset p) (objects p) (pages p) x (infoId p).
Definition set_infoId (p : PDFWriter W) (x : PDFID) : PDFWriter W :=
  mkPDFWriter (w p) (offset p) (objects p) (pages p) (err p) x.

(** A method with receiver [p *PDFWriter] and result [A]. *)
Definition M (A : Type) : Type := PDFWriter W -> A * PDFWriter W.

Definition ret {A} (a : A) : M A := fun p => (a, p).
Definition bind {A B} (m : M A) (k : A -> M B) : M B :=
  fun p => let r := m p in k (fst r) (snd r).
Definition gets {A} (f : PDFWriter W -> A) : M A := fun p => (f p, p).
Definition modify (f : PDFWriter W -> PDFWriter W) : M unit := fun p => (tt, f p).

Definition eval {A} (m : M A) (p : PDFWriter W) : A := fst (m p).
Definition exec {A} (m : M A) (p : PDFWriter W) : PDFWriter W := snd (m p).

Local Notation "x <- m ;; k" := (bind m (fun x => k))
  (at level 61, m at next level, right associativity).
Local Notation "m ;; k" := (bind m (fun _ => k))
  (at level 61, right associativity).

(** [var nl = []byte{'\n'}] *)
Definition nl : list byte := [x0a].

Definition print (s : string) : M error :=
  fun p =>
    let r := WriteString (w p) s in
    let p := set_offset (set_w p (fst r)) (int_add (offset p) (fst (snd r))) in
    match snd (snd r) with
    | Some e => (Some e, set_err p (Some e))
    | None =>
        let r' := Write (w p) nl in
        let p := set_err (set_w p (fst r')) (snd (snd r')) in
        let p := set_offset p (int_add (offset p) 1) in
        (err p, p)
    end.

(** [printf], applied to the formatted text. *)
Definition printf (text : string) : M error :=
  fun p =>
    let r := Fprintf (w p) text in
    let p := set_offset (set_w p (fst r)) (int_add (offset p) (fst (snd r))) in
    match snd (snd r) with
    | Some e => (Some e, set_err p (Some e))
    | None =>
        let r' := Write (w p) nl in
        let p := set_err (set_w p (fst r')) (snd (snd r')) in
        let p := set_offset p (int_add (offset p) 1) in
        (err p, p)
    end.

Definition startObj : M (PDFID * error) :=
  modify (fun p => set_objects p (objects p ++ [offset p])) ;;
  id <- gets (fun p => len (objects p)) ;;
  printf (fmt_d id ++ " 0 obj") ;;
  print "<<" ;;
  e <- gets err ;;
  ret (id, e).

Definition endObj : M error :=
  print ">>" ;;
  print "endobj" ;;
  gets err.

Definition intObj (n : Z) : M (PDFID * error) :=
  modify (fun p => set_objects p (objects p ++ [offset p])) ;;
  id <- gets (fun p => len (objects p)) ;;
  printf (fmt_d id ++ " 0 obj") ;;
  printf (fmt_d n) ;;
  print "endobj" ;;
  e <- gets err ;;
  ret (id, e).

(** The write of the payload in [writeStream]:
    [n, err := p.w.Write(data); p.offset += n; p.err = err]. *)
Definition write_data (data : list byte) (p : PDFWriter W) : PDFWriter W :=
  let r := Write (w p) data in
  let p := set_offset (set_w p (fst r)) (int_add (offset p) (fst (snd r))) in
  set_err p (snd (snd r)).

Definition writeStream (data : list byte) : M unit :=
  print "stream" ;;
  modify (write_data data) ;;
  print "endstream" ;;
  ret tt.

Definition writeStreamObject (data : list byte) : M (PDFID * error) :=
  r <- startObj ;;
  let id := fst r in
  printf ("/Length " ++ fmt_d (len data)) ;;
  print ">>" ;;
  writeStream data ;;
  endObj ;;
  e <- gets err ;;
  ret (id, e).

Definition writeImage (wd h : Z) (data : list byte) : M (PDFID * error) :=
  r <- startObj ;;
  let id := fst r in
  print "/Type /XObject" ;;
  print "/Subtype /Image" ;;
  print "/Name /I" ;;
  print "/Filter [ /DCTDecode ]" ;;
  printf ("/Width " ++ fmt_d wd) ;;
  printf ("/Height " ++ fmt_d h) ;;
  print "/ColorSpace /DeviceRGB" ;;
  print "/BitsPerComponent 8" ;;
  printf ("/Length " ++ fmt_d (len data)) ;;
  print ">>" ;;
  writeStream data ;;
  endObj ;;
  e <- gets err ;;
  ret (id, e).

Definition NewPDFWriter (snk : W) : PDFWriter W * error :=
  let p := mkPDFWriter snk 0 [] [] None 0 in
  let p := exec (print "%PDF-1.3") p in
  (p, err p).

Definition WriteInfo (title : string) (mtime : Time) : M error :=
  r <- startObj ;;
  modify (fun p => set_infoId p (fst r)) ;;
  printf ("/Title (" ++ title ++ ")") ;;
  printf ("/CreationDate (D:" ++ Format_20060102150405 mtime ++ ")") ;;
  printf ("/ModDate (D:" ++ Format_20060102150405 mtime ++ ")") ;;
  print "/Producer (mvztopdf 1.0)" ;;
  endObj ;;
  gets err.

(** The page object of [WritePage] and the content stream after it, up to
    the consistency check. *)
Definition WritePage_objs (x y : Length) (data : list byte) : M (PDFID * PDFID) :=
  r <- startObj ;;
  let id := fst r in
  print "/Type /Page" ;;
  printf ("/MediaBox [0 0 " ++ fmt_2f x ++ " " ++ fmt_2f y ++ "]") ;;
  printf ("/CropBox [0 0 " ++ fmt_2f x ++ " " ++ fmt_2f y ++ "]") ;;
  printf ("/Contents " ++ fmt_d (id + 1) ++ " 0 R") ;;
  endObj ;;
  s <- writeStreamObject data ;;
  ret (id, fst s).

Definition WritePage (x y : Length) (data : list byte) (p : PDFWriter W)
  : result ((PDFID * error) * PDFWriter W) :=
  let r := WritePage_objs x y data p in
  let id := fst (fst r) in
  let streamId := snd (fst r) in
  let p := snd r in
  if isNil (err p) && negb (streamId =? id + 1)
  then Panic "internal error: streamId != id+1"
  else
    let p := set_pages p (pages p ++ [id]) in
    Ok ((id, err p), p).

Definition DPI : Z := 150.

(** [Length(px) / 150 * INCH]: pixels to points. *)
Definition points (px : Z) : Length := (Length_of_int px / 150 * INCH)%float.

(** The "Postscript code" that [WriteJPEGPage] collects in a buffer. *)
Definition JPEGPage_content (x y : Length) : list byte :=
  bytes (String "q" (String "010" "")) ++
  bytes (fmt_2f x ++ " 0 0 " ++ fmt_2f y ++ " 0 0 cm" ++ String "010" "") ++
  bytes ("/I Do" ++ String "010" "") ++
  bytes (String "Q" (String "010" "")).

Definition WriteJPEGPage_objs (x y : Length) : M (PDFID * PDFID) :=
  r <- startObj ;;
  let id := fst r in
  print "/Type /Page" ;;
  printf ("/MediaBox [0 0 " ++ fmt_2f x ++ " " ++ fmt_2f y ++ "]") ;;
  printf ("/CropBox [0 0 " ++ fmt_2f x ++ " " ++ fmt_2f y ++ "]") ;;
  printf ("/Contents " ++ fmt_d (id + 1) ++ " 0 R") ;;
  printf ("/Resources << /XObject << /I " ++ fmt_d (id + 2) ++ " 0 R >> >>") ;;
  endObj ;;
  s <- writeStreamObject (JPEGPage_content x y) ;;
  ret (id, fst s).

Definition WriteJPEGPage (img : Image) (data : list byte) (p : PDFWriter W)
  : result ((PDFID * error) * PDFWriter W) :=
  let x := points (Dx (Bounds img)) in
  let y := points (Dy (Bounds img)) in
  let r := WriteJPEGPage_objs x y p in
  let id := fst (fst r) in
  let streamId := snd (fst r) in
  let p := snd r in
  if isNil (err p) && negb (streamId =? id + 1)
  then Panic "internal error: streamId != id+1"
  else
    let r' := writeImage (Dx (Bounds img)) (Dy (Bounds img)) data p in
    let imgId := fst (fst r') in
    let p := snd r' in
    if isNil (err p) && negb (imgId =? id + 2)
    then Panic "internal error: imgId != id+2"
    else
      let p := set_pages p (pages p ++ [id]) in
      Ok ((id, err p), p).

(** The buffer [Flush] fills with one reference per page. *)
Definition kids (pgs : list PDFID) : string :=
  fold_left (fun buf page => (buf ++ fmt_d page ++ " 0 R ")%string) pgs EmptyString.

(** [for _, off := range p.objects { p.printf("%010d 00000 n", off) }] *)
Fixpoint print_xref_entries (offs : list Z) : M unit :=
  match offs with
  | [] => ret tt
  | off :: offs' =>
      printf (fmt_0d 10 off ++ " 00000 n") ;;
      print_xref_entries offs'
  end.

(** [Flush], block by block as the source comments them: pages, catalog,
    xref table, trailer and end. *)
Definition Flush_pages : M PDFID :=
  r <- startObj ;;
  let pagesId := fst r in
  print "/Type /Pages" ;;
  pgs <- gets pages ;;
  printf ("/Kids [ " ++ kids pgs ++ "]") ;;
  printf ("/Count " ++ fmt_d (len pgs)) ;;
  endObj ;;
  ret pagesId.

Definition Flush_catalog (pagesId : PDFID) : M PDFID :=
  r <- startObj ;;
  let rootId := fst r in
  print "/Type /Catalog" ;;
  printf ("/Pages " ++ fmt_d pagesId ++ " 0 R") ;;
  endObj ;;
  ret rootId.

Definition Flush_xref : M Z :=
  xrefOff <- gets offset ;;
  print "xref" ;;
  objs <- gets objects ;;
  printf ("0 " ++ fmt_d (len objs + 1)) ;;
  print "0000000000 65535 f" ;;
  objs <- gets objects ;;
  print_xref_entries objs ;;
  ret xrefOff.

(** [const id = "deadbeef"] *)
Definition id_const : string := "deadbeef".

Definition Flush_trailer (rootId : PDFID) (xrefOff : Z) : M unit :=
  print "trailer" ;;
  print "<<" ;;
  objs <- gets objects ;;
  printf ("/Size " ++ fmt_d (len objs + 1)) ;;
  info <- gets infoId ;;
  printf ("/Info " ++ fmt_d info ++ " 0 R") ;;
  printf ("/Root " ++ fmt_d rootId ++ " 0 R") ;;
  printf ("/ID [<" ++ id_const ++ "> <" ++ id_const ++ ">]") ;;
  print ">>" ;;
  print "startxref" ;;
  printf (fmt_d xrefOff) ;;
  print "%%EOF" ;;
  ret tt.

Definition Flush : M error :=
  pagesId <- Flush_pages ;;
  e <- gets err ;;
  if isNil e then
    rootId <- Flush_catalog pagesId ;;
    xrefOff <- Flush_xref ;;
    Flush_trailer rootId xrefOff ;;
    gets err
  else ret e.

End Methods.

(* ================================================================== *)
(** ** Callers: a document is [NewPDFWriter], some operations, [Flush] *)

Inductive Op : Type :=
| OpWriteInfo (title : string) (mtime : Time)
| OpWritePage (x y : Length) (data : list byte)
| OpWriteJPEGPage (img : Image) (data : list byte).

Section Callers.

Context {W : Type} `{Writer W}.

(** One operation: the error it returns and the writer it leaves. *)
Definition step (o : Op) (p : PDFWriter W) : result (error * PDFWriter W) :=
  match o with
  | OpWriteInfo title mtime => Ok (WriteInfo title mtime p)
  | OpWritePage x y data =>
      match WritePage x y data p with
      | Ok r => Ok (snd (fst r), snd r)
      | Panic msg => Panic msg
      end
  | OpWriteJPEGPage img data =>
      match WriteJPEGPage img data p with
      | Ok r => Ok (snd (fst r), snd r)
      | Panic msg => Panic msg
      end
  end.

Fixpoint run (ops : list Op) (p : PDFWriter W) : result (PDFWriter W) :=
  match ops with
  | [] => Ok p
  | o :: ops' =>
      match step o p with
      | Ok r => run ops' (snd r)
      | Panic msg => Panic msg
      end
  end.

Definition document (snk : W) (ops : list Op) : result (error * PDFWriter W) :=
  match run ops (fst (NewPDFWriter snk)) with
  | Ok p => Ok (Flush p)
  | Panic msg => Panic msg
  end.

End Callers.

(* ================================================================== *)
(** ** Sinks *)

(** *** A recording sink

    [Traced W] is the sink [W] with a log of every [Write] it served: the
    bytes offered, the count and the error it answered.  What the sink
    took in is the offered bytes cut at the answered count. *)

Record event := mkEvent { ev_data : list byte; ev_n : Z; ev_err : error }.

Record Traced (W : Type) := mkTraced { inner : W; log : list event }.

Arguments mkTraced {W}.
Arguments inner {W}.
Arguments log {W}.

#[export] Instance Traced_Writer {W} `{Writer W} : Writer (Traced W) :=
  fun t d =>
    let r := Write (inner t) d in
    (mkTraced (fst r) (log t ++ [mkEvent d (fst (snd r)) (snd (snd r))]), snd r).

Definition trace {W} (snk : W) : Traced W := mkTraced snk [].

Definition taken (ev : event) : list byte :=
  firstn (Z.to_nat (ev_n ev)) (ev_data ev).

(** The bytes the sink accepted, in order. *)
Definition accepted_of (evs : list event) : list byte := flat_map taken evs.

Definition accepted {W} (p : PDFWriter (Traced W)) : list byte :=
  accepted_of (log (w p)).

(** A write that did not fail: no error, every byte taken. *)
Definition ok_event (ev : event) : bool :=
  isNil (ev_err ev) && (ev_n ev =? len (ev_data ev)).

Definition all_ok (evs : list event) : bool := forallb ok_event evs.

(** A write that kept the contract of [io.Writer]: [0 <= n <= len(p)]. *)
Definition conforming_event (ev : event) : bool :=
  (0 <=? ev_n ev) && (ev_n ev <=? len (ev_data ev)).

Definition conforming (evs : list event) : bool := forallb conforming_event evs.

(** The bytes offered to the sink. *)
Definition requested (evs : list event) : Z :=
  fold_right (fun ev acc => len (ev_data ev) + acc) 0 evs.

(** The error of the last write of [evs], or [e] when there is none. *)
Definition last_err (evs : list event) (e : error) : error :=
  fold_left (fun _ ev => ev_err ev) evs e.

(** *** [bytes.Buffer]: takes everything *)

Record Buffer := mkBuffer { contents : list byte }.

#[export] Instance Buffer_Writer : Writer Buffer :=
  fun b d => (mkBuffer (contents b ++ d), (len d, None)).

(** *** A sink with a largest write (a datagram socket): a longer write is
    refused whole, the next one is served again *)

Record Packet := mkPacket { sent : list byte; limit : nat }.

#[export] Instance Packet_Writer : Writer Packet :=
  fun s d =>
    if (List.length d <=? limit s)%nat
    then (mkPacket (sent s ++ d) (limit s), (len d, None))
    else (s, (0, Some "message too long"%string)).

(** *** A sink with room for so many bytes (a full disk): the write that
    does not fit is cut short and fails *)

Record Quota := mkQuota { stored : list byte; room : nat }.

#[export] Instance Quota_Writer : Writer Quota :=
  fun q d =>
    if (List.length d <=? room q)%nat
    then (mkQuota (stored q ++ d) (room q - List.length d), (len d, None))
    else (mkQuota (stored q ++ firstn (room q) d) 0,
          (Z.of_nat (room q), Some "no space left on device"%string)).

(* ================================================================== *)
(** * The vocabulary of the specification

    The texts the writer puts out, the states between its blocks, and the
    relations and invariants the proofs are about. *)

(** One line of output: the text and the newline [print] adds. *)
Definition line (s : string) : list byte := bytes s ++ nl.

(** The number that a string of decimal digits denotes, as a reader of the
    file takes it. *)
Definition digit_value (c : ascii) : Z := Z.of_nat (nat_of_ascii c) - 48.

Fixpoint read_aux (s : string) (acc : Z) : Z :=
  match s with
  | EmptyString => acc
  | String c s' => read_aux s' (10 * acc + digit_value c)
  end.

Definition read_d (s : string) : Z := read_aux s 0.

(** A call of the public interface after [NewPDFWriter]. *)
Inductive Call : Type :=
| CallOp (o : Op)
| CallFlush.

(** The two ways the writer makes a stream object. *)
Inductive StreamKind : Type :=
| ContentStream
| ImageStream (wd h : Z).

Section States.

Context {W : Type} `{Writer W}.

(** The identifier [startObj] hands out next. *)
Definition next_id (p : PDFWriter W) : PDFID := len (objects p) + 1.

(** The states between the blocks of [Flush]. *)
Definition after_pages (p : PDFWriter W) : PDFWriter W := exec Flush_pages p.

Definition after_catalog (p : PDFWriter W) : PDFWriter W :=
  exec (Flush_catalog (next_id p)) (after_pages p).

Definition after_xref (p : PDFWriter W) : PDFWriter W :=
  exec Flush_xref (after_catalog p).

(** The writer that [WritePage] leaves. *)
Definition after_WritePage (x y : Length) (data : list byte) (p : PDFWriter W)
  : PDFWriter W :=
  set_pages (exec (WritePage_objs x y data) p) (pages p ++ [next_id p]).

(** The writer that [WriteJPEGPage] leaves. *)
Definition after_WriteJPEGPage (img : Image) (data : list byte) (p : PDFWriter W)
  : PDFWriter W :=
  set_pages
    (exec (writeImage (Dx (Bounds img)) (Dy (Bounds img)) data)
          (exec (WriteJPEGPage_objs (points (Dx (Bounds img)))
                                    (points (Dy (Bounds img)))) p))
    (pages p ++ [next_id p]).

(** What an operation does, with the [panic]s gone. *)
Definition after (o : Op) (p : PDFWriter W) : PDFWriter W :=
  match o with
  | OpWriteInfo title mtime => exec (WriteInfo title mtime) p
  | OpWritePage x y data => after_WritePage x y data p
  | OpWriteJPEGPage img data => after_WriteJPEGPage img data p
  end.

(** What a sequence of operations does. *)
Definition after_all (ops : list Op) (p : PDFWriter W) : PDFWriter W :=
  fold_left (fun q o => after o q) ops p.

(** The writer at the end of a document. *)
Definition finished (snk : W) (ops : list Op) : PDFWriter W :=
  exec Flush (after_all ops (fst (NewPDFWriter snk))).

(** How many objects an operation makes, which pages it adds, and what it
    does to [infoId]. *)
Definition op_objects (o : Op) : Z :=
  match o with
  | OpWriteInfo _ _ => 1
  | OpWritePage _ _ _ => 2
  | OpWriteJPEGPage _ _ => 3
  end.

Definition op_pages (o : Op) (id : PDFID) : list PDFID :=
  match o with
  | OpWriteInfo _ _ => []
  | _ => [id]
  end.

Definition op_infoId (o : Op) (id old : PDFID) : PDFID :=
  match o with
  | OpWriteInfo _ _ => id
  | _ => old
  end.

End States.

Section Vocabulary.

Context {W : Type} `{Writer W}.

(** [emits p p' B]: from [p] to [p'] the sink served the writes [evs], at
    least one.  [err] is the answer to the last of them; the cursor moved by
    [c], which lies between the bytes taken and the bytes offered when the
    sink keeps its contract; and when no write failed, the bytes taken are
    exactly [B]. *)
Definition emits (p p' : PDFWriter (Traced W)) (B : list byte) : Prop :=
  exists (evs : list event) (c : Z),
    log (w p') = log (w p) ++ evs /\
    evs <> [] /\
    err p' = last_err evs (err p) /\
    offset p' = wrap (offset p + c) /\
    (conforming evs = true -> len (accepted_of evs) <= c <= requested evs) /\
    (all_ok evs = true -> accepted_of evs = B).

(** A step that leaves the sink, the cursor and [err] alone. *)
Definition quiet (p p' : PDFWriter (Traced W)) : Prop :=
  w p' = w p /\ err p' = err p /\ offset p' = offset p.

(** The header of object [id]: its first line, then the open dictionary. *)
Definition obj_line (id : PDFID) : list byte := line (fmt_d id ++ " 0 obj").

Definition obj_header (id : PDFID) : list byte := obj_line id ++ line "<<".

Definition obj_end : list byte := line ">>" ++ line "endobj".

(** The framing of a payload, as [writeStream] writes it. *)
Definition stream_text (data : list byte) : list byte :=
  line "stream" ++ data ++ line "endstream".

(** A stream object: dictionary with the length, payload, end. *)
Definition stream_obj_text (id : PDFID) (data : list byte) : list byte :=
  obj_header id ++
  line ("/Length " ++ fmt_d (len data)) ++
  line ">>" ++
  stream_text data ++
  obj_end.

(** An image object. *)
Definition image_obj_text (id : PDFID) (wd h : Z) (data : list byte) : list byte :=
  obj_header id ++
  line "/Type /XObject" ++
  line "/Subtype /Image" ++
  line "/Name /I" ++
  line "/Filter [ /DCTDecode ]" ++
  line ("/Width " ++ fmt_d wd) ++
  line ("/Height " ++ fmt_d h) ++
  line "/ColorSpace /DeviceRGB" ++
  line "/BitsPerComponent 8" ++
  line ("/Length " ++ fmt_d (len data)) ++
  line ">>" ++
  stream_text data ++
  obj_end.

(** The metadata object. *)
Definition info_obj_text (id : PDFID) (title : string) (mtime : Time) : list byte :=
  obj_header id ++
  line ("/Title (" ++ title ++ ")") ++
  line ("/CreationDate (D:" ++ Format_20060102150405 mtime ++ ")") ++
  line ("/ModDate (D:" ++ Format_20060102150405 mtime ++ ")") ++
  line "/Producer (mvztopdf 1.0)" ++
  obj_end.

(** The page object of [WritePage]. *)
Definition page_obj_text (id : PDFID) (x y : Length) : list byte :=
  obj_header id ++
  line "/Type /Page" ++
  line ("/MediaBox [0 0 " ++ fmt_2f x ++ " " ++ fmt_2f y ++ "]") ++
  line ("/CropBox [0 0 " ++ fmt_2f x ++ " " ++ fmt_2f y ++ "]") ++
  line ("/Contents " ++ fmt_d (id + 1) ++ " 0 R") ++
  obj_end.

(** The two objects of [WritePage]: page and content stream. *)
Definition WritePage_text (id : PDFID) (x y : Length) (data : list byte) : list byte :=
  page_obj_text id x y ++ stream_obj_text (id + 1) data.

(** The page object of [WriteJPEGPage]. *)
Definition jpeg_page_obj_text (id : PDFID) (x y : Length) : list byte :=
  obj_header id ++
  line "/Type /Page" ++
  line ("/MediaBox [0 0 " ++ fmt_2f x ++ " " ++ fmt_2f y ++ "]") ++
  line ("/CropBox [0 0 " ++ fmt_2f x ++ " " ++ fmt_2f y ++ "]") ++
  line ("/Contents " ++ fmt_d (id + 1) ++ " 0 R") ++
  line ("/Resources << /XObject << /I " ++ fmt_d (id + 2) ++ " 0 R >> >>") ++
  obj_end.

(** The pages tree. *)
Definition pages_obj_text (id : PDFID) (pgs : list PDFID) : list byte :=
  obj_header id ++
  line "/Type /Pages" ++
  line ("/Kids [ " ++ kids pgs ++ "]") ++
  line ("/Count " ++ fmt_d (len pgs)) ++
  obj_end.

(** The catalog. *)
Definition catalog_text (id pagesId : PDFID) : list byte :=
  obj_header id ++
  line "/Type /Catalog" ++
  line ("/Pages " ++ fmt_d pagesId ++ " 0 R") ++
  obj_end.

(** One entry of the cross-reference table for an object in use. *)
Definition xref_entry (off : Z) : list byte :=
  line (fmt_0d 10 off ++ " 00000 n").

(** The entry of object 0, the head of the free list. *)
Definition xref_free_entry : list byte := line "0000000000 65535 f".

Definition xref_entries (offs : list Z) : list byte := flat_map xref_entry offs.

(** The cross-reference section for the object table [objs]. *)
Definition xref_text (objs : list Z) : list byte :=
  line "xref" ++
  line ("0 " ++ fmt_d (len objs + 1)) ++
  xref_free_entry ++
  xref_entries objs.

(** The trailer and the end of the file. *)
Definition trailer_text (size : Z) (info root : PDFID) (xrefOff : Z) : list byte :=
  line "trailer" ++
  line "<<" ++
  line ("/Size " ++ fmt_d size) ++
  line ("/Info " ++ fmt_d info ++ " 0 R") ++
  line ("/Root " ++ fmt_d root ++ " 0 R") ++
  line ("/ID [<" ++ id_const ++ "> <" ++ id_const ++ ">]") ++
  line ">>" ++
  line "startxref" ++
  line (fmt_d xrefOff) ++
  line "%%EOF".

(** Everything [Flush] writes, from the state [p] it starts in. *)
Definition Flush_text (p : PDFWriter (Traced W)) : list byte :=
  pages_obj_text (next_id p) (pages p) ++
  catalog_text (next_id p + 1) (next_id p) ++
  xref_text (objects (after_catalog p)) ++
  trailer_text (len (objects (after_catalog p)) + 1) (infoId p)
               (next_id p + 1) (offset (after_catalog p)).

(** The first line of object [id] starts at offset [off] of the output. *)
Definition header_at (out : list byte) (id : PDFID) (off : Z) : Prop :=
  exists pre post, out = pre ++ obj_line id ++ post /\ off = wrap (len pre).

(** The invariant of the ledger: while no write has failed, the cursor is
    the number of bytes written, and every entry of the object table is
    the place where its object starts. *)
Definition Inv (p : PDFWriter (Traced W)) : Prop :=
  all_ok (log (w p)) = true ->
  offset p = wrap (len (accepted p)) /\
  forall (k : nat) (off : Z),
    nth_error (objects p) k = Some off ->
    header_at (accepted p) (Z.of_nat k + 1) off.

(** Methods that keep the invariant. *)
Definition preserves {A} (m : M A) : Prop :=
  forall p : PDFWriter (Traced W), Inv p -> Inv (exec m p).

(** The writes the sink served between the states [p] and [p']. *)
Definition written (p p' : PDFWriter (Traced W)) : list event :=
  skipn (List.length (log (w p))) (log (w p')).

(** The three objects of [WriteJPEGPage]: page, content stream, image. *)
Definition WriteJPEGPage_text (id : PDFID) (img : Image) (data : list byte)
  : list byte :=
  jpeg_page_obj_text id (points (Dx (Bounds img))) (points (Dy (Bounds img))) ++
  stream_obj_text (id + 1)
    (JPEGPage_content (points (Dx (Bounds img))) (points (Dy (Bounds img)))) ++
  image_obj_text (id + 2) (Dx (Bounds img)) (Dy (Bounds img)) data.

(** The text of an operation that starts with object [id]. *)
Definition op_text (o : Op) (id : PDFID) : list byte :=
  match o with
  | OpWriteInfo title mtime => info_obj_text id title mtime
  | OpWritePage x y data => WritePage_text id x y data
  | OpWriteJPEGPage img data => WriteJPEGPage_text id img data
  end.

Fixpoint ops_text (ops : list Op) (id : PDFID) : list byte :=
  match ops with
  | [] => []
  | o :: ops' => op_text o id ++ ops_text ops' (id + op_objects o)
  end.

(** What a call does. *)
Definition after_call (c : Call) (p : PDFWriter (Traced W)) : PDFWriter (Traced W) :=
  match c with
  | CallOp o => after o p
  | CallFlush => exec Flush p
  end.

(** The error a call returns. *)
Definition returned (c : Call) (p : PDFWriter (Traced W)) : result error :=
  match c with
  | CallOp o =>
      match step o p with
      | Ok r => Ok (fst r)
      | Panic msg => Panic msg
      end
  | CallFlush => Ok (eval Flush p)
  end.

(** The text of a call made in the state [p]. *)
Definition call_text (c : Call) (p : PDFWriter (Traced W)) : list byte :=
  match c with
  | CallOp o => op_text o (next_id p)
  | CallFlush => Flush_text p
  end.

(** The writer before anything is written. *)
Definition blank (snk : W) : PDFWriter (Traced W) :=
  mkPDFWriter (trace snk) 0 [] [] None 0.

(** The text of a whole document. *)
Definition document_text (snk : W) (ops : list Op) : list byte :=
  line "%PDF-1.3" ++
  ops_text ops 1 ++
  Flush_text (after_all ops (fst (NewPDFWriter (trace snk)))).

(** The writer on the recording sink, seen as a writer on the sink. *)
Definition untrace (p : PDFWriter (Traced W)) : PDFWriter W :=
  mkPDFWriter (inner (w p)) (offset p) (objects p) (pages p) (err p) (infoId p).

(** [mT] on the recording sink does what [m] does on the sink. *)
Definition sim {A} (m : M (W := W) A) (mT : M (W := Traced W) A) : Prop :=
  forall p, m (untrace p) = (fst (mT p), untrace (snd (mT p))).

End Vocabulary.

(** Sample inputs. *)
Definition sample_time : Time := mkTime 2024 1 2 3 4 5.

Definition sample_image : Image := mkImage (mkRect 0 0 1500 1050).

Definition sample_ops : list Op :=
  [ OpWriteInfo "T" sample_time;
    OpWritePage 612%float 792%float (bytes "BT ET");
    OpWriteJPEGPage sample_image (bytes "JPEGDATA") ].

(** The call that writes a stream object of the kind [k]. *)
Definition write_stream_object {W} `{Writer W} (k : StreamKind) (data : list byte)
  : M (PDFID * error) :=
  match k with
  | ContentStream => writeStreamObject data
  | ImageStream wd h => writeImage wd h data
  end.

(** [out] holds a dictionary entry [/Length n], the end of the dictionary,
    the line [stream], then the payload and [endstream] right after it,
    and the decimal number [n] is the length of the payload. *)
Definition declares_length (out payload : list byte) : Prop :=
  exists (pre post : list byte) (n : string),
    out = pre ++ line ("/Length " ++ n) ++ line ">>" ++
          line "stream" ++ payload ++ bytes "endstream" ++ post /\
    read_d n = len payload.

(** The page identifiers that the operations [ops] append, when the first
    of them starts with object [id]. *)
Fixpoint ops_pages (ops : list Op) (id : PDFID) : list PDFID :=
  match ops with
  | [] => []
  | o :: ops' => op_pages o id ++ ops_pages ops' (id + op_objects o)
  end.

(** The value of [infoId] after the operations [ops]. *)
Fixpoint ops_infoId (ops : list Op) (id old : PDFID) : PDFID :=
  match ops with
  | [] => old
  | o :: ops' => ops_infoId ops' (id + op_objects o) (op_infoId o id old)
  end.

(** The references of the [/Kids] array, page after page. *)
Fixpoint refs (pgs : list PDFID) : string :=
  match pgs with
  | [] => EmptyString
  | page :: pgs' => (fmt_d page ++ " 0 R " ++ refs pgs')%string
  end.

(** Is the operation a call of [WriteInfo]? *)
Definition is_WriteInfo (o : Op) : bool :=
  match o with OpWriteInfo _ _ => true | _ => false end.

(** How many objects the operations [ops] make. *)
Definition ops_objects (ops : list Op) : Z :=
  fold_right (fun o n => op_objects o + n) 0 ops.

(** The write [ev] failed with the error [e]. *)
Definition failed_with (e : string) (ev : event) : bool :=
  match ev_err ev with
  | Some e' => String.eqb e e'
  | None => false
  end.

(** *** The layout of a document

    The page object that a page operation writes first, where the objects
    of an operation start, and the document that a list of operations
    determines. *)

Section PageObjects.

Context {W : Type} `{Writer W}.

Local Notation "x <- m ;; k" := (bind m (fun x => k))
  (at level 61, m at next level, right associativity).
Local Notation "m ;; k" := (bind m (fun _ => k))
  (at level 61, right associativity).

(** [WritePage], to the end of the page object. *)
Definition WritePage_page (x y : Length) : M PDFID :=
  r <- startObj ;;
  let id := fst r in
  print "/Type /Page" ;;
  printf ("/MediaBox [0 0 " ++ fmt_2f x ++ " " ++ fmt_2f y ++ "]") ;;
  printf ("/CropBox [0 0 " ++ fmt_2f x ++ " " ++ fmt_2f y ++ "]") ;;
  printf ("/Contents " ++ fmt_d (id + 1) ++ " 0 R") ;;
  endObj ;;
  ret id.

(** [WriteJPEGPage], to the end of the page object. *)
Definition WriteJPEGPage_page (x y : Length) : M PDFID :=
  r <- startObj ;;
  let id := fst r in
  print "/Type /Page" ;;
  printf ("/MediaBox [0 0 " ++ fmt_2f x ++ " " ++ fmt_2f y ++ "]") ;;
  printf ("/CropBox [0 0 " ++ fmt_2f x ++ " " ++ fmt_2f y ++ "]") ;;
  printf ("/Contents " ++ fmt_d (id + 1) ++ " 0 R") ;;
  printf ("/Resources << /XObject << /I " ++ fmt_d (id + 2) ++ " 0 R >> >>") ;;
  endObj ;;
  ret id.

End PageObjects.

(** Where the objects of an operation start, when the first of them is
    object [id] and starts at [off]. *)
Definition op_offsets (o : Op) (id : PDFID) (off : Z) : list Z :=
  match o with
  | OpWriteInfo _ _ => [off]
  | OpWritePage x y _ => [off; off + len (page_obj_text id x y)]
  | OpWriteJPEGPage img _ =>
      let x := points (Dx (Bounds img)) in
      let y := points (Dy (Bounds img)) in
      [off;
       off + len (jpeg_page_obj_text id x y);
       off + len (jpeg_page_obj_text id x y) +
       len (stream_obj_text (id + 1) (JPEGPage_content x y))]
  end.

Fixpoint ops_offsets (ops : list Op) (id : PDFID) (off : Z) : list Z :=
  match ops with
  | [] => []
  | o :: ops' =>
      op_offsets o id off ++
      ops_offsets ops' (id + op_objects o) (off + len (op_text o id))
  end.

(** A document as a function of the operations alone: the header and the
    objects of the operations, the pages tree, the catalog, the
    cross-reference section and the trailer. *)
Definition body_text (ops : list Op) : list byte :=
  line "%PDF-1.3" ++ ops_text ops 1.

Definition pdf_pages_text (ops : list Op) : list byte :=
  pages_obj_text (1 + ops_objects ops) (ops_pages ops 1).

Definition pdf_catalog_text (ops : list Op) : list byte :=
  catalog_text (1 + ops_objects ops + 1) (1 + ops_objects ops).

Definition pdf_objects (ops : list Op) : list Z :=
  ops_offsets ops 1 9 ++
  [len (body_text ops); len (body_text ops) + len (pdf_pages_text ops)].

Definition pdf_xref_offset (ops : list Op) : Z :=
  len (body_text ops) + len (pdf_pages_text ops) + len (pdf_catalog_text ops).

Definition pdf_document (ops : list Op) : list byte :=
  body_text ops ++
  pdf_pages_text ops ++
  pdf_catalog_text ops ++
  xref_text (pdf_objects ops) ++
  trailer_text (len (pdf_objects ops) + 1) (ops_infoId ops 1 0)
               (1 + ops_objects ops + 1) (pdf_xref_offset ops).

(** A list of integers that grows strictly. *)
Fixpoint increasing (l : list Z) : Prop :=
  match l with
  | [] => True
  | a :: l' => Forall (fun b => a < b) l' /\ increasing l'
  end.

Section Progress.

Context {W : Type} `{Writer W}.

(** The log only grows. *)
Definition extends (p p' : PDFWriter (Traced W)) : Prop :=
  exists evs, log (w p') = log (w p) ++ evs.

(** A state of the writer in which the cursor is where the output ends,
    with all that follows written without a failed write and within the
    range of [int]. *)
Definition exact_until (p p' : PDFWriter (Traced W)) : Prop :=
  all_ok (log (w p')) = true /\ len (accepted p') < 2 ^ 63 /\
  offset p = len (accepted p).

End Progress.

(* ================================================================== *)
(** * Lemmas *)

(* ================================================================== *)
(** ** Arithmetic of [int] and of logs *)

Lemma wrap_small (z : Z) : - 2 ^ 63 <= z < 2 ^ 63 -> wrap z = z.
Proof.
  intros Hz. unfold wrap. rewrite Z.mod_small; lia.
Qed.

Lemma wrap_add_l (a b : Z) : wrap (wrap a + b) = wrap (a + b).
Proof.
  unfold wrap.
  replace ((a + 2 ^ 63) mod 2 ^ 64 - 2 ^ 63 + b + 2 ^ 63)
    with ((a + 2 ^ 63) mod 2 ^ 64 + b) by lia.
  rewrite Zplus_mod_idemp_l. f_equal. f_equal. lia.
Qed.

Lemma wrap_range (z : Z) : - 2 ^ 63 <= wrap z < 2 ^ 63.
Proof.
  unfold wrap.
  pose proof (Z.mod_pos_bound (z + 2 ^ 63) (2 ^ 64) ltac:(lia)). lia.
Qed.

Lemma len_app {A} (l1 l2 : list A) : len (l1 ++ l2) = len l1 + len l2.
Proof. unfold len. rewrite length_app. lia. Qed.

Lemma len_nonneg {A} (l : list A) : 0 <= len l.
Proof. unfold len. lia. Qed.

Lemma accepted_of_app (l1 l2 : list event) :
  accepted_of (l1 ++ l2) = accepted_of l1 ++ accepted_of l2.
Proof. apply flat_map_app. Qed.

Lemma all_ok_app (l1 l2 : list event) :
  all_ok (l1 ++ l2) = all_ok l1 && all_ok l2.
Proof. apply forallb_app. Qed.

Lemma conforming_app (l1 l2 : list event) :
  conforming (l1 ++ l2) = conforming l1 && conforming l2.
Proof. apply forallb_app. Qed.

Lemma requested_app (l1 l2 : list event) :
  requested (l1 ++ l2) = requested l1 + requested l2.
Proof.
  induction l1 as [|ev l1 IH]; simpl; [reflexivity|]. rewrite IH. lia.
Qed.

Lemma last_err_app (l1 l2 : list event) (e : error) :
  last_err (l1 ++ l2) e = last_err l2 (last_err l1 e).
Proof. apply fold_left_app. Qed.

Lemma taken_ok (ev : event) : ok_event ev = true -> taken ev = ev_data ev.
Proof.
  unfold ok_event, taken. intros Hok.
  apply andb_true_iff in Hok as [_ Hn]. apply Z.eqb_eq in Hn.
  rewrite Hn. unfold len. rewrite Nat2Z.id. apply firstn_all.
Qed.

Lemma taken_conforming (ev : event) :
  conforming_event ev = true -> len (taken ev) = ev_n ev.
Proof.
  unfold conforming_event, taken, len. intros Hc.
  apply andb_true_iff in Hc as [H0 Hn].
  apply Z.leb_le in H0. apply Z.leb_le in Hn. unfold len in Hn.
  rewrite length_firstn. lia.
Qed.

Lemma ok_conforming_event (ev : event) :
  ok_event ev = true -> conforming_event ev = true.
Proof.
  unfold ok_event, conforming_event. intros Hok.
  apply andb_true_iff in Hok as [_ Hn]. apply Z.eqb_eq in Hn.
  rewrite Hn. pose proof (len_nonneg (ev_data ev)).
  apply andb_true_iff. split; apply Z.leb_le; lia.
Qed.

Lemma all_ok_conforming (evs : list event) :
  all_ok evs = true -> conforming evs = true.
Proof.
  induction evs as [|ev evs IH]; simpl; [reflexivity|].
  intros Hok. apply andb_true_iff in Hok as [H1 H2].
  rewrite (ok_conforming_event _ H1). simpl. auto.
Qed.

Lemma all_ok_requested (evs : list event) :
  all_ok evs = true -> len (accepted_of evs) = requested evs.
Proof.
  induction evs as [|ev evs IH]; simpl; [reflexivity|].
  intros Hok. apply andb_true_iff in Hok as [H1 H2].
  rewrite len_app, (taken_ok _ H1), (IH H2). reflexivity.
Qed.

Lemma all_ok_last_err (evs : list event) (e : error) :
  evs <> [] -> all_ok evs = true -> last_err evs e = None.
Proof.
  intros Hne Hok. destruct (exists_last Hne) as [l [ev ->]].
  rewrite last_err_app. simpl.
  rewrite all_ok_app in Hok. apply andb_true_iff in Hok as [_ Hok].
  simpl in Hok. rewrite andb_true_r in Hok. unfold ok_event in Hok.
  apply andb_true_iff in Hok as [Hok _].
  destruct (ev_err ev); [discriminate|reflexivity].
Qed.

Lemma conforming_bounds (evs : list event) :
  conforming evs = true -> 0 <= len (accepted_of evs) <= requested evs.
Proof.
  induction evs as [|ev evs IH]; simpl; [intros _; unfold len; simpl; lia|].
  intros Hc. apply andb_true_iff in Hc as [H1 H2].
  rewrite len_app, (taken_conforming _ H1). specialize (IH H2).
  unfold conforming_event in H1. apply andb_true_iff in H1 as [Ha Hb].
  apply Z.leb_le in Ha. apply Z.leb_le in Hb. lia.
Qed.

(* ================================================================== *)
(** ** Running a method step by step *)

Section MonadLaws.

Context {W : Type} `{Writer W}.

Lemma exec_bind {A B} (m : M A) (k : A -> M B) (p : PDFWriter W) :
  exec (bind m k) p = exec (k (eval m p)) (exec m p).
Proof. reflexivity. Qed.

Lemma eval_bind {A B} (m : M A) (k : A -> M B) (p : PDFWriter W) :
  eval (bind m k) p = eval (k (eval m p)) (exec m p).
Proof. reflexivity. Qed.

Lemma exec_ret {A} (a : A) (p : PDFWriter W) : exec (ret a) p = p.
Proof. reflexivity. Qed.

Lemma eval_ret {A} (a : A) (p : PDFWriter W) : eval (ret a) p = a.
Proof. reflexivity. Qed.

Lemma exec_gets {A} (f : PDFWriter W -> A) (p : PDFWriter W) :
  exec (gets f) p = p.
Proof. reflexivity. Qed.

Lemma eval_gets {A} (f : PDFWriter W -> A) (p : PDFWriter W) :
  eval (gets f) p = f p.
Proof. reflexivity. Qed.

Lemma exec_modify (f : PDFWriter W -> PDFWriter W) (p : PDFWriter W) :
  exec (modify f) p = f p.
Proof. reflexivity. Qed.

Lemma printf_print (s : string) : printf s = print s.
Proof. reflexivity. Qed.

End MonadLaws.

Section Emission.

Context {W : Type} `{Writer W}.

Lemma emits_trans (p p' p'' : PDFWriter (Traced W)) (B B' : list byte) :
  emits p p' B -> emits p' p'' B' -> emits p p'' (B ++ B').
Proof.
  intros (evs & c & Hlog & Hne & Herr & Hoff & Hc & Hok)
         (evs' & c' & Hlog' & Hne' & Herr' & Hoff' & Hc' & Hok').
  exists (evs ++ evs'), (c + c'). repeat split.
  - rewrite Hlog', Hlog, app_assoc. reflexivity.
  - destruct evs; [congruence|discriminate].
  - rewrite Herr', Herr, last_err_app. reflexivity.
  - rewrite Hoff', Hoff, wrap_add_l. f_equal. lia.
  - rewrite conforming_app in H0. apply andb_true_iff in H0 as [H1 H2].
    rewrite accepted_of_app, len_app. specialize (Hc H1). specialize (Hc' H2). lia.
  - rewrite conforming_app in H0. apply andb_true_iff in H0 as [H1 H2].
    rewrite requested_app. specialize (Hc H1). specialize (Hc' H2). lia.
  - intros Hall. rewrite all_ok_app in Hall. apply andb_true_iff in Hall as [H1 H2].
    rewrite accepted_of_app, (Hok H1), (Hok' H2). reflexivity.
Qed.

(** A stretch that ended with [err] set cannot have been free of failures,
    so it "emits" whatever one likes. *)
Lemma emits_failed (p p' : PDFWriter (Traced W)) (B B' : list byte) :
  emits p p' B -> isNil (err p') = false -> emits p p' B'.
Proof.
  intros (evs & c & Hlog & Hne & Herr & Hoff & Hc & Hok) Hnil.
  exists evs, c. repeat split; auto; try (apply Hc; assumption).
  intros Hall. rewrite Herr, (all_ok_last_err _ _ Hne Hall) in Hnil. discriminate.
Qed.

Lemma Write_traced (t : Traced W) (d : list byte) :
  Write t d =
  (mkTraced (fst (Write (inner t) d))
            (log t ++ [mkEvent d (fst (snd (Write (inner t) d)))
                                 (snd (snd (Write (inner t) d)))]),
   snd (Write (inner t) d)).
Proof. reflexivity. Qed.

Lemma emits_print (s : string) (p : PDFWriter (Traced W)) :
  emits p (exec (print s) p) (line s).
Proof.
  unfold exec, print, WriteString. cbv zeta.
  rewrite (Write_traced (w p)). cbn [fst snd].
  set (r := Write (inner (w p)) (bytes s)).
  destruct (snd (snd r)) as [e|] eqn:He.
  - exists [mkEvent (bytes s) (fst (snd r)) (Some e)], (fst (snd r)).
    cbn. repeat split; try congruence.
    + rewrite andb_true_r in H0. rewrite app_nil_r.
      rewrite (taken_conforming _ H0). cbn. lia.
    + rewrite andb_true_r in H0. unfold conforming_event in H0. cbn in H0.
      apply andb_true_iff in H0 as [_ H0]. apply Z.leb_le in H0. lia.
  - cbn [w set_w set_offset]. rewrite Write_traced. cbn [inner log fst snd].
    set (r' := Write (fst r) nl).
    exists [mkEvent (bytes s) (fst (snd r)) None;
            mkEvent nl (fst (snd r')) (snd (snd r'))], (fst (snd r) + 1).
    cbn [w set_w set_offset set_err log offset err app].
    repeat split; try congruence.
    + rewrite <- app_assoc. reflexivity.
    + unfold int_add. rewrite wrap_add_l. f_equal. lia.
    + cbn in H0. rewrite andb_true_r in H0. apply andb_true_iff in H0 as [H1 H2].
      cbn. rewrite app_nil_r, len_app.
      rewrite (taken_conforming _ H1), (taken_conforming _ H2). cbn.
      unfold conforming_event in H2. cbn in H2.
      apply andb_true_iff in H2 as [_ H2]. apply Z.leb_le in H2.
      unfold len in H2. cbn in H2. lia.
    + cbn in H0. rewrite andb_true_r in H0. apply andb_true_iff in H0 as [H1 H2].
      unfold conforming_event in H1. cbn in H1.
      apply andb_true_iff in H1 as [_ H1]. apply Z.leb_le in H1.
      cbn [requested fold_right ev_data]. change (len nl) with 1. lia.
    + intros Hall. unfold all_ok in Hall. cbn [forallb] in Hall. rewrite andb_true_r in Hall.
      apply andb_true_iff in Hall as [H1 H2].
      cbn. rewrite app_nil_r, (taken_ok _ H1), (taken_ok _ H2). reflexivity.
Qed.

Lemma emits_printf (s : string) (p : PDFWriter (Traced W)) :
  emits p (exec (printf s) p) (line s).
Proof. rewrite printf_print. apply emits_print. Qed.

Lemma emits_write_data (data : list byte) (p : PDFWriter (Traced W)) :
  emits p (write_data data p) data.
Proof.
  unfold write_data. cbv zeta. rewrite Write_traced. cbn [fst snd].
  set (r := Write (inner (w p)) data).
  exists [mkEvent data (fst (snd r)) (snd (snd r))], (fst (snd r)).
  cbn. repeat split; try congruence.
  - rewrite andb_true_r in H0. rewrite app_nil_r.
    rewrite (taken_conforming _ H0). cbn. lia.
  - rewrite andb_true_r in H0. unfold conforming_event in H0. cbn in H0.
    apply andb_true_iff in H0 as [_ H0]. apply Z.leb_le in H0. lia.
  - intros Hall. rewrite andb_true_r in Hall.
    rewrite app_nil_r, (taken_ok _ Hall). reflexivity.
Qed.

Lemma emits_quiet_l (p p' p'' : PDFWriter (Traced W)) (B : list byte) :
  quiet p p' -> emits p' p'' B -> emits p p'' B.
Proof.
  intros (Hw & He & Ho). unfold emits. rewrite Hw, He, Ho. auto.
Qed.

Lemma emits_quiet_r (p p' p'' : PDFWriter (Traced W)) (B : list byte) :
  emits p p' B -> quiet p' p'' -> emits p p'' B.
Proof.
  intros Hem (Hw & He & Ho). unfold emits. rewrite Hw, He, Ho. auto.
Qed.

Lemma emits_bind {A B} (m : M A) (k : A -> M B) (p : PDFWriter (Traced W))
      (B1 B2 : list byte) :
  emits p (exec m p) B1 ->
  emits (exec m p) (exec (k (eval m p)) (exec m p)) B2 ->
  emits p (exec (bind m k) p) (B1 ++ B2).
Proof. rewrite exec_bind. apply emits_trans. Qed.

Lemma emits_bind_quiet {A B} (m : M A) (k : A -> M B) (p : PDFWriter (Traced W))
      (B2 : list byte) :
  quiet p (exec m p) ->
  emits (exec m p) (exec (k (eval m p)) (exec m p)) B2 ->
  emits p (exec (bind m k) p) B2.
Proof. rewrite exec_bind. apply emits_quiet_l. Qed.

Lemma emits_bind_end {A B} (m : M A) (k : A -> M B) (p : PDFWriter (Traced W))
      (B1 : list byte) :
  emits p (exec m p) B1 ->
  quiet (exec m p) (exec (k (eval m p)) (exec m p)) ->
  emits p (exec (bind m k) p) B1.
Proof. rewrite exec_bind. apply emits_quiet_r. Qed.

Lemma emits_modify_write_data (data : list byte) (p : PDFWriter (Traced W)) :
  emits p (exec (modify (write_data data)) p) data.
Proof. apply emits_write_data. Qed.

Lemma emits_print_eq (s : string) (p : PDFWriter (Traced W)) (B : list byte) :
  B = line s -> emits p (exec (print s) p) B.
Proof. intros ->. apply emits_print. Qed.

Lemma emits_printf_eq (s : string) (p : PDFWriter (Traced W)) (B : list byte) :
  B = line s -> emits p (exec (printf s) p) B.
Proof. intros ->. apply emits_printf. Qed.

End Emission.

(* ================================================================== *)
(** ** The tables of the writer: what each call does to them

    [objects], [pages] and [infoId] do not depend on what the sink
    answers. *)

Section Tables.

Context {W : Type} `{Writer W}.

Lemma objects_print (s : string) (p : PDFWriter W) :
  objects (exec (print s) p) = objects p.
Proof. unfold exec, print. cbv zeta. destruct (snd (snd _)); reflexivity. Qed.

Lemma pages_print (s : string) (p : PDFWriter W) :
  pages (exec (print s) p) = pages p.
Proof. unfold exec, print. cbv zeta. destruct (snd (snd _)); reflexivity. Qed.

Lemma infoId_print (s : string) (p : PDFWriter W) :
  infoId (exec (print s) p) = infoId p.
Proof. unfold exec, print. cbv zeta. destruct (snd (snd _)); reflexivity. Qed.

Lemma objects_printf (s : string) (p : PDFWriter W) :
  objects (exec (printf s) p) = objects p.
Proof. apply objects_print. Qed.

Lemma pages_printf (s : string) (p : PDFWriter W) :
  pages (exec (printf s) p) = pages p.
Proof. apply pages_print. Qed.

Lemma infoId_printf (s : string) (p : PDFWriter W) :
  infoId (exec (printf s) p) = infoId p.
Proof. apply infoId_print. Qed.

Lemma objects_write_data (d : list byte) (p : PDFWriter W) :
  objects (write_data d p) = objects p.
Proof. reflexivity. Qed.

Lemma pages_write_data (d : list byte) (p : PDFWriter W) :
  pages (write_data d p) = pages p.
Proof. reflexivity. Qed.

Lemma infoId_write_data (d : list byte) (p : PDFWriter W) :
  infoId (write_data d p) = infoId p.
Proof. reflexivity. Qed.

End Tables.

Create Rewrite HintDb pdf.

#[export] Hint Rewrite
  @exec_bind @eval_bind @exec_ret @eval_ret @exec_gets @eval_gets @exec_modify
  @objects_print @pages_print @infoId_print
  @objects_printf @pages_printf @infoId_printf
  @objects_write_data @pages_write_data @infoId_write_data : pdf.

(** Run a method symbolically down to its calls of [print] and the like. *)
Ltac mnorm :=
  repeat (progress (autorewrite with pdf;
                    cbv beta zeta;
                    cbn [fst snd objects pages infoId
                         set_objects set_pages set_infoId])).

Section TablesOfCalls.

Context {W : Type} `{Writer W}.

Lemma eval_startObj (p : PDFWriter W) : fst (eval startObj p) = next_id p.
Proof.
  unfold startObj, next_id. mnorm. rewrite len_app. reflexivity.
Qed.

Lemma objects_startObj (p : PDFWriter W) :
  objects (exec startObj p) = objects p ++ [offset p].
Proof. unfold startObj. mnorm. reflexivity. Qed.

Lemma pages_startObj (p : PDFWriter W) : pages (exec startObj p) = pages p.
Proof. unfold startObj. mnorm. reflexivity. Qed.

Lemma infoId_startObj (p : PDFWriter W) : infoId (exec startObj p) = infoId p.
Proof. unfold startObj. mnorm. reflexivity. Qed.

Lemma next_id_startObj (p : PDFWriter W) :
  next_id (exec startObj p) = next_id p + 1.
Proof. unfold next_id. rewrite objects_startObj, len_app. reflexivity. Qed.

Lemma objects_endObj (p : PDFWriter W) : objects (exec endObj p) = objects p.
Proof. unfold endObj. mnorm. reflexivity. Qed.

Lemma pages_endObj (p : PDFWriter W) : pages (exec endObj p) = pages p.
Proof. unfold endObj. mnorm. reflexivity. Qed.

Lemma infoId_endObj (p : PDFWriter W) : infoId (exec endObj p) = infoId p.
Proof. unfold endObj. mnorm. reflexivity. Qed.

Lemma objects_writeStream (d : list byte) (p : PDFWriter W) :
  objects (exec (writeStream d) p) = objects p.
Proof. unfold writeStream. mnorm. reflexivity. Qed.

Lemma pages_writeStream (d : list byte) (p : PDFWriter W) :
  pages (exec (writeStream d) p) = pages p.
Proof. unfold writeStream. mnorm. reflexivity. Qed.

Lemma infoId_writeStream (d : list byte) (p : PDFWriter W) :
  infoId (exec (writeStream d) p) = infoId p.
Proof. unfold writeStream. mnorm. reflexivity. Qed.

End TablesOfCalls.

#[export] Hint Rewrite
  @eval_startObj @objects_startObj @pages_startObj @infoId_startObj
  @objects_endObj @pages_endObj @infoId_endObj
  @objects_writeStream @pages_writeStream @infoId_writeStream : pdf.

(** [emits] through a method, one [bind] at a time.  The text of the goal
    is a right-nested [++] of the texts of the calls, so its shape tells
    whether a call is the last one that writes; [call] proves the [emits]
    of a single call. *)
Ltac quiet_tac :=
  unfold quiet;
  repeat (progress (rewrite ?exec_bind, ?exec_gets, ?exec_ret, ?exec_modify;
                    cbv beta zeta));
  cbn [w err offset set_objects set_pages set_infoId];
  repeat split; reflexivity.

Ltac emits_step call :=
  lazymatch goal with
  | |- emits _ (exec (bind (gets _) _) _) _ =>
      apply emits_bind_quiet; [quiet_tac | cbv beta zeta]
  | |- emits _ (exec (bind (ret _) _) _) _ =>
      apply emits_bind_quiet; [quiet_tac | cbv beta zeta]
  | |- emits _ (exec (bind (modify (write_data _)) _) _) (_ ++ _) =>
      apply emits_bind; [call | cbv beta zeta]
  | |- emits _ (exec (bind (modify _) _) _) _ =>
      apply emits_bind_quiet; [quiet_tac | cbv beta zeta]
  | |- emits _ (exec (bind _ _) _) (_ ++ _) =>
      apply emits_bind; [call | cbv beta zeta]
  | |- emits _ (exec (bind _ _) _) _ =>
      apply emits_bind_end; [call | quiet_tac]
  end.

Ltac same :=
  lazymatch goal with
  | |- ?a = ?b => first [ constr_eq a b; reflexivity | f_equal; lia ]
  end.

Ltac emits_base :=
  idtac;
  lazymatch goal with
  | |- emits _ (exec (print _) _) _ => apply emits_print_eq; same
  | |- emits _ (exec (printf _) _) _ => apply emits_printf_eq; same
  | |- emits _ (exec (modify (write_data _)) _) _ =>
      apply emits_modify_write_data
  end.

Section Blocks.

Context {W : Type} `{Writer W}.

Lemma emits_startObj (p : PDFWriter (Traced W)) :
  emits p (exec startObj p) (obj_header (next_id p)).
Proof.
  unfold startObj, obj_header, obj_line.
  emits_step emits_base. emits_step emits_base.
  rewrite eval_gets, exec_modify. cbn [objects set_objects].
  rewrite len_app. change (len [offset p]) with 1. fold (next_id p).
  emits_step emits_base. emits_step emits_base.
Qed.

Lemma emits_startObj_eq (p : PDFWriter (Traced W)) (B : list byte) :
  B = obj_header (next_id p) -> emits p (exec startObj p) B.
Proof. intros ->. apply emits_startObj. Qed.

Lemma emits_endObj (p : PDFWriter (Traced W)) :
  emits p (exec endObj p) obj_end.
Proof. unfold endObj, obj_end. repeat emits_step emits_base. Qed.

Lemma emits_writeStream (data : list byte) (p : PDFWriter (Traced W)) :
  emits p (exec (writeStream data) p) (stream_text data).
Proof. unfold writeStream, stream_text. repeat emits_step emits_base. Qed.

End Blocks.

Ltac emits_calls :=
  idtac;
  lazymatch goal with
  | |- emits _ (exec startObj _) _ =>
      apply emits_startObj_eq; autorewrite with pdf_id; same
  | |- emits _ (exec endObj _) _ => apply emits_endObj
  | |- emits _ (exec (writeStream _) _) _ => apply emits_writeStream
  | |- _ => emits_base
  end.

(** Step after step, with the identifiers and tables in the text rewritten
    to what they are. *)
Ltac emits_go call :=
  repeat (emits_step call; autorewrite with pdf_id).

Create Rewrite HintDb pdf_id.

#[export] Hint Rewrite
  @eval_gets @eval_ret
  @eval_startObj @objects_startObj @pages_startObj @infoId_startObj
  @objects_print @pages_print @infoId_print
  @objects_printf @pages_printf @infoId_printf
  @objects_endObj @pages_endObj @infoId_endObj
  @objects_writeStream @pages_writeStream @infoId_writeStream : pdf_id.

Section Objects.

Context {W : Type} `{Writer W}.

Lemma emits_writeStreamObject (data : list byte) (p : PDFWriter (Traced W)) :
  emits p (exec (writeStreamObject data) p) (stream_obj_text (next_id p) data).
Proof.
  unfold writeStreamObject, stream_obj_text. emits_go emits_calls.
Qed.

Lemma emits_writeImage (wd h : Z) (data : list byte) (p : PDFWriter (Traced W)) :
  emits p (exec (writeImage wd h data) p) (image_obj_text (next_id p) wd h data).
Proof.
  unfold writeImage, image_obj_text. emits_go emits_calls.
Qed.

End Objects.

Section TablesOfObjects.

Context {W : Type} `{Writer W}.

Lemma eval_writeStreamObject (d : list byte) (p : PDFWriter W) :
  fst (eval (writeStreamObject d) p) = next_id p.
Proof. unfold writeStreamObject. mnorm. reflexivity. Qed.

Lemma objects_writeStreamObject (d : list byte) (p : PDFWriter W) :
  objects (exec (writeStreamObject d) p) = objects p ++ [offset p].
Proof. unfold writeStreamObject. mnorm. reflexivity. Qed.

Lemma pages_writeStreamObject (d : list byte) (p : PDFWriter W) :
  pages (exec (writeStreamObject d) p) = pages p.
Proof. unfold writeStreamObject. mnorm. reflexivity. Qed.

Lemma infoId_writeStreamObject (d : list byte) (p : PDFWriter W) :
  infoId (exec (writeStreamObject d) p) = infoId p.
Proof. unfold writeStreamObject. mnorm. reflexivity. Qed.

Lemma eval_writeImage (wd h : Z) (d : list byte) (p : PDFWriter W) :
  fst (eval (writeImage wd h d) p) = next_id p.
Proof. unfold writeImage. mnorm. reflexivity. Qed.

Lemma objects_writeImage (wd h : Z) (d : list byte) (p : PDFWriter W) :
  objects (exec (writeImage wd h d) p) = objects p ++ [offset p].
Proof. unfold writeImage. mnorm. reflexivity. Qed.

Lemma pages_writeImage (wd h : Z) (d : list byte) (p : PDFWriter W) :
  pages (exec (writeImage wd h d) p) = pages p.
Proof. unfold writeImage. mnorm. reflexivity. Qed.

Lemma infoId_writeImage (wd h : Z) (d : list byte) (p : PDFWriter W) :
  infoId (exec (writeImage wd h d) p) = infoId p.
Proof. unfold writeImage. mnorm. reflexivity. Qed.

Lemma next_id_app (p q : PDFWriter W) (offs : list Z) :
  objects q = objects p ++ offs -> next_id q = next_id p + len offs.
Proof. unfold next_id. intros ->. rewrite len_app. lia. Qed.

End TablesOfObjects.

#[export] Hint Rewrite
  @eval_writeStreamObject @objects_writeStreamObject
  @pages_writeStreamObject @infoId_writeStreamObject
  @eval_writeImage @objects_writeImage
  @pages_writeImage @infoId_writeImage : pdf pdf_id.

(* ================================================================== *)
(** ** The operations: tables, identifiers and text *)

(** Equations between identifiers. *)
Ltac ids :=
  unfold next_id; mnorm; unfold len; rewrite ?length_app;
  cbn [List.length]; try lia.

Section TablesOfOperations.

Context {W : Type} `{Writer W}.

(** The identifiers [WritePage] and [WriteJPEGPage] hand to their page and
    to its content stream. *)
Lemma eval_WritePage_objs (x y : Length) (d : list byte) (p : PDFWriter W) :
  eval (WritePage_objs x y d) p = (next_id p, next_id p + 1).
Proof.
  unfold WritePage_objs. mnorm. f_equal. ids.
Qed.

Lemma pages_WritePage_objs (x y : Length) (d : list byte) (p : PDFWriter W) :
  pages (exec (WritePage_objs x y d) p) = pages p.
Proof. unfold WritePage_objs. mnorm. reflexivity. Qed.

Lemma infoId_WritePage_objs (x y : Length) (d : list byte) (p : PDFWriter W) :
  infoId (exec (WritePage_objs x y d) p) = infoId p.
Proof. unfold WritePage_objs. mnorm. reflexivity. Qed.

Lemma next_id_WritePage_objs (x y : Length) (d : list byte) (p : PDFWriter W) :
  next_id (exec (WritePage_objs x y d) p) = next_id p + 2.
Proof.
  unfold WritePage_objs. ids.
Qed.

Lemma eval_WriteJPEGPage_objs (x y : Length) (p : PDFWriter W) :
  eval (WriteJPEGPage_objs x y) p = (next_id p, next_id p + 1).
Proof.
  unfold WriteJPEGPage_objs. mnorm. f_equal. ids.
Qed.

Lemma pages_WriteJPEGPage_objs (x y : Length) (p : PDFWriter W) :
  pages (exec (WriteJPEGPage_objs x y) p) = pages p.
Proof. unfold WriteJPEGPage_objs. mnorm. reflexivity. Qed.

Lemma infoId_WriteJPEGPage_objs (x y : Length) (p : PDFWriter W) :
  infoId (exec (WriteJPEGPage_objs x y) p) = infoId p.
Proof. unfold WriteJPEGPage_objs. mnorm. reflexivity. Qed.

Lemma next_id_WriteJPEGPage_objs (x y : Length) (p : PDFWriter W) :
  next_id (exec (WriteJPEGPage_objs x y) p) = next_id p + 2.
Proof.
  unfold WriteJPEGPage_objs. ids.
Qed.

Lemma pages_WriteInfo (t : string) (m : Time) (p : PDFWriter W) :
  pages (exec (WriteInfo t m) p) = pages p.
Proof. unfold WriteInfo. mnorm. reflexivity. Qed.

Lemma infoId_WriteInfo (t : string) (m : Time) (p : PDFWriter W) :
  infoId (exec (WriteInfo t m) p) = next_id p.
Proof. unfold WriteInfo. mnorm. reflexivity. Qed.

Lemma objects_WriteInfo (t : string) (m : Time) (p : PDFWriter W) :
  objects (exec (WriteInfo t m) p) = objects p ++ [offset p].
Proof. unfold WriteInfo. mnorm. reflexivity. Qed.

Lemma eval_WriteInfo (t : string) (m : Time) (p : PDFWriter W) :
  eval (WriteInfo t m) p = err (exec (WriteInfo t m) p).
Proof. unfold WriteInfo. mnorm. reflexivity. Qed.

End TablesOfOperations.

Section NextId.

Context {W : Type} `{Writer W}.

Lemma next_id_print (s : string) (p : PDFWriter W) :
  next_id (exec (print s) p) = next_id p.
Proof. ids. Qed.

Lemma next_id_printf (s : string) (p : PDFWriter W) :
  next_id (exec (printf s) p) = next_id p.
Proof. ids. Qed.

Lemma next_id_endObj (p : PDFWriter W) : next_id (exec endObj p) = next_id p.
Proof. ids. Qed.

Lemma next_id_writeStreamObject (d : list byte) (p : PDFWriter W) :
  next_id (exec (writeStreamObject d) p) = next_id p + 1.
Proof. ids. Qed.

Lemma next_id_writeImage (wd h : Z) (d : list byte) (p : PDFWriter W) :
  next_id (exec (writeImage wd h d) p) = next_id p + 1.
Proof. ids. Qed.

Lemma next_id_set_infoId (p : PDFWriter W) (x : PDFID) :
  next_id (set_infoId p x) = next_id p.
Proof. reflexivity. Qed.

Lemma next_id_set_pages (p : PDFWriter W) (x : list PDFID) :
  next_id (set_pages p x) = next_id p.
Proof. reflexivity. Qed.

End NextId.

#[export] Hint Rewrite
  @next_id_print @next_id_printf @next_id_endObj @next_id_startObj
  @next_id_writeStreamObject @next_id_writeImage
  @next_id_set_infoId @next_id_set_pages
  @exec_modify @exec_gets @exec_ret : pdf_id.

Section TextOfOperations.

Context {W : Type} `{Writer W}.

Lemma emits_writeStreamObject_eq (data : list byte) (p : PDFWriter (Traced W))
      (B : list byte) :
  B = stream_obj_text (next_id p) data ->
  emits p (exec (writeStreamObject data) p) B.
Proof. intros ->. apply emits_writeStreamObject. Qed.

Lemma emits_writeImage_eq (wd h : Z) (data : list byte) (p : PDFWriter (Traced W))
      (B : list byte) :
  B = image_obj_text (next_id p) wd h data ->
  emits p (exec (writeImage wd h data) p) B.
Proof. intros ->. apply emits_writeImage. Qed.

End TextOfOperations.

Ltac emits_objs :=
  idtac;
  lazymatch goal with
  | |- emits _ (exec (writeStreamObject _) _) _ =>
      apply emits_writeStreamObject_eq; autorewrite with pdf_id; same
  | |- emits _ (exec (writeImage _ _ _) _) _ =>
      apply emits_writeImage_eq; autorewrite with pdf_id; same
  | |- _ => emits_calls
  end.

Section TextOfPages.

Context {W : Type} `{Writer W}.

Lemma emits_WriteInfo (title : string) (mtime : Time) (p : PDFWriter (Traced W)) :
  emits p (exec (WriteInfo title mtime) p) (info_obj_text (next_id p) title mtime).
Proof. unfold WriteInfo, info_obj_text. emits_go emits_objs. Qed.

Lemma emits_WritePage_objs (x y : Length) (data : list byte) (p : PDFWriter (Traced W)) :
  emits p (exec (WritePage_objs x y data) p) (WritePage_text (next_id p) x y data).
Proof.
  unfold WritePage_objs, WritePage_text, page_obj_text.
  rewrite <- !app_assoc. emits_go emits_objs.
Qed.

Lemma emits_WriteJPEGPage_objs (x y : Length) (p : PDFWriter (Traced W)) :
  emits p (exec (WriteJPEGPage_objs x y) p)
        (jpeg_page_obj_text (next_id p) x y ++
         stream_obj_text (next_id p + 1) (JPEGPage_content x y)).
Proof.
  unfold WriteJPEGPage_objs, jpeg_page_obj_text.
  rewrite <- !app_assoc. emits_go emits_objs.
Qed.

End TextOfPages.

(* ================================================================== *)
(** ** [Flush]: tables and text *)

Section TablesOfFlush.

Context {W : Type} `{Writer W}.

Lemma tables_print_xref_entries (offs : list Z) (p : PDFWriter W) :
  objects (exec (print_xref_entries offs) p) = objects p /\
  pages (exec (print_xref_entries offs) p) = pages p /\
  infoId (exec (print_xref_entries offs) p) = infoId p.
Proof.
  revert p. induction offs as [|off offs IH]; intros p; cbn [print_xref_entries].
  - repeat split.
  - rewrite exec_bind. destruct (IH (exec (printf (fmt_0d 10 off ++ " 00000 n")) p))
      as (Ho & Hp & Hi).
    rewrite Ho, Hp, Hi. mnorm. repeat split.
Qed.

Lemma objects_print_xref_entries (offs : list Z) (p : PDFWriter W) :
  objects (exec (print_xref_entries offs) p) = objects p.
Proof. apply tables_print_xref_entries. Qed.

Lemma pages_print_xref_entries (offs : list Z) (p : PDFWriter W) :
  pages (exec (print_xref_entries offs) p) = pages p.
Proof. apply tables_print_xref_entries. Qed.

Lemma infoId_print_xref_entries (offs : list Z) (p : PDFWriter W) :
  infoId (exec (print_xref_entries offs) p) = infoId p.
Proof. apply tables_print_xref_entries. Qed.

End TablesOfFlush.

#[export] Hint Rewrite
  @objects_print_xref_entries @pages_print_xref_entries
  @infoId_print_xref_entries : pdf pdf_id.

Section TablesOfFlushBlocks.

Context {W : Type} `{Writer W}.

Lemma eval_Flush_pages (p : PDFWriter W) : eval Flush_pages p = next_id p.
Proof. unfold Flush_pages. mnorm. reflexivity. Qed.

Lemma objects_Flush_pages (p : PDFWriter W) :
  objects (exec Flush_pages p) = objects p ++ [offset p].
Proof. unfold Flush_pages. mnorm. reflexivity. Qed.

Lemma pages_Flush_pages (p : PDFWriter W) : pages (exec Flush_pages p) = pages p.
Proof. unfold Flush_pages. mnorm. reflexivity. Qed.

Lemma infoId_Flush_pages (p : PDFWriter W) :
  infoId (exec Flush_pages p) = infoId p.
Proof. unfold Flush_pages. mnorm. reflexivity. Qed.

Lemma eval_Flush_catalog (pagesId : PDFID) (p : PDFWriter W) :
  eval (Flush_catalog pagesId) p = next_id p.
Proof. unfold Flush_catalog. mnorm. reflexivity. Qed.

Lemma objects_Flush_catalog (pagesId : PDFID) (p : PDFWriter W) :
  objects (exec (Flush_catalog pagesId) p) = objects p ++ [offset p].
Proof. unfold Flush_catalog. mnorm. reflexivity. Qed.

Lemma pages_Flush_catalog (pagesId : PDFID) (p : PDFWriter W) :
  pages (exec (Flush_catalog pagesId) p) = pages p.
Proof. unfold Flush_catalog. mnorm. reflexivity. Qed.

Lemma infoId_Flush_catalog (pagesId : PDFID) (p : PDFWriter W) :
  infoId (exec (Flush_catalog pagesId) p) = infoId p.
Proof. unfold Flush_catalog. mnorm. reflexivity. Qed.

Lemma eval_Flush_xref (p : PDFWriter W) : eval Flush_xref p = offset p.
Proof. unfold Flush_xref. mnorm. reflexivity. Qed.

Lemma objects_Flush_xref (p : PDFWriter W) :
  objects (exec Flush_xref p) = objects p.
Proof. unfold Flush_xref. mnorm. reflexivity. Qed.

Lemma pages_Flush_xref (p : PDFWriter W) : pages (exec Flush_xref p) = pages p.
Proof. unfold Flush_xref. mnorm. reflexivity. Qed.

Lemma infoId_Flush_xref (p : PDFWriter W) : infoId (exec Flush_xref p) = infoId p.
Proof. unfold Flush_xref. mnorm. reflexivity. Qed.

Lemma objects_Flush_trailer (rootId : PDFID) (xrefOff : Z) (p : PDFWriter W) :
  objects (exec (Flush_trailer rootId xrefOff) p) = objects p.
Proof. unfold Flush_trailer. mnorm. reflexivity. Qed.

Lemma pages_Flush_trailer (rootId : PDFID) (xrefOff : Z) (p : PDFWriter W) :
  pages (exec (Flush_trailer rootId xrefOff) p) = pages p.
Proof. unfold Flush_trailer. mnorm. reflexivity. Qed.

Lemma infoId_Flush_trailer (rootId : PDFID) (xrefOff : Z) (p : PDFWriter W) :
  infoId (exec (Flush_trailer rootId xrefOff) p) = infoId p.
Proof. unfold Flush_trailer. mnorm. reflexivity. Qed.

(** [Flush] either stops after the pages object, with [err] set, or runs
    to the end. *)
Lemma exec_Flush (p : PDFWriter W) :
  exec Flush p =
  if isNil (err (after_pages p))
  then exec (Flush_trailer (next_id p + 1) (offset (after_catalog p))) (after_xref p)
  else after_pages p.
Proof.
  unfold Flush. rewrite exec_bind, eval_Flush_pages. cbv beta.
  rewrite exec_bind, eval_gets, exec_gets. cbv beta.
  fold (after_pages p).
  destruct (isNil (err (after_pages p))); [|reflexivity].
  rewrite exec_bind, eval_Flush_catalog. cbv beta.
  rewrite exec_bind, eval_Flush_xref. cbv beta.
  rewrite exec_bind, exec_gets.
  fold (after_catalog p). fold (after_xref p).
  unfold after_pages at 1. rewrite next_id_app with (p := p) (offs := [offset p]).
  - reflexivity.
  - apply objects_Flush_pages.
Qed.

Lemma eval_Flush (p : PDFWriter W) : eval Flush p = err (exec Flush p).
Proof.
  unfold Flush. rewrite eval_bind, exec_bind, eval_Flush_pages. cbv beta.
  rewrite eval_bind, exec_bind, eval_gets, exec_gets. cbv beta.
  destruct (err (exec Flush_pages p)) as [e|] eqn:He; cbn [isNil].
  - rewrite eval_ret, exec_ret. symmetry. exact He.
  - rewrite !eval_bind, !exec_bind, eval_gets, exec_gets. reflexivity.
Qed.

Lemma objects_after_catalog (p : PDFWriter W) :
  objects (after_catalog p) = objects p ++ [offset p; offset (after_pages p)].
Proof.
  unfold after_catalog, after_pages.
  rewrite objects_Flush_catalog, objects_Flush_pages, <- app_assoc. reflexivity.
Qed.

End TablesOfFlushBlocks.

#[export] Hint Rewrite
  @eval_Flush_pages @objects_Flush_pages @pages_Flush_pages @infoId_Flush_pages
  @eval_Flush_catalog @objects_Flush_catalog @pages_Flush_catalog
  @infoId_Flush_catalog
  @eval_Flush_xref @objects_Flush_xref @pages_Flush_xref @infoId_Flush_xref
  @objects_Flush_trailer @pages_Flush_trailer @infoId_Flush_trailer : pdf pdf_id.

Section TextOfFlush.

Context {W : Type} `{Writer W}.

Lemma emits_Flush_pages (p : PDFWriter (Traced W)) :
  emits p (exec Flush_pages p) (pages_obj_text (next_id p) (pages p)).
Proof. unfold Flush_pages, pages_obj_text. emits_go emits_objs. Qed.

Lemma emits_Flush_catalog (pagesId : PDFID) (p : PDFWriter (Traced W)) :
  emits p (exec (Flush_catalog pagesId) p) (catalog_text (next_id p) pagesId).
Proof. unfold Flush_catalog, catalog_text. emits_go emits_objs. Qed.

Lemma emits_print_xref_entries (offs : list Z) (p0 p : PDFWriter (Traced W))
      (B : list byte) :
  emits p0 p B ->
  emits p0 (exec (print_xref_entries offs) p) (B ++ xref_entries offs).
Proof.
  revert p B. induction offs as [|off offs IH]; intros p B Hem.
  - cbn. rewrite app_nil_r. exact Hem.
  - cbn [print_xref_entries xref_entries flat_map]. rewrite exec_bind.
    rewrite app_assoc. apply IH.
    apply emits_trans with (p' := p); [exact Hem|]. apply emits_printf.
Qed.

Lemma emits_Flush_xref (p : PDFWriter (Traced W)) :
  emits p (exec Flush_xref p) (xref_text (objects p)).
Proof.
  unfold Flush_xref, xref_text.
  rewrite !app_assoc.
  mnorm. apply emits_print_xref_entries.
  rewrite <- app_assoc.
  eapply emits_trans; [apply emits_print|].
  eapply emits_trans; [apply emits_printf|]. apply emits_print.
Qed.

Lemma emits_Flush_trailer (rootId : PDFID) (xrefOff : Z) (p : PDFWriter (Traced W)) :
  emits p (exec (Flush_trailer rootId xrefOff) p)
        (trailer_text (len (objects p) + 1) (infoId p) rootId xrefOff).
Proof. unfold Flush_trailer, trailer_text. emits_go emits_objs. Qed.

Lemma emits_Flush (p : PDFWriter (Traced W)) :
  emits p (exec Flush p) (Flush_text p).
Proof.
  rewrite exec_Flush. unfold Flush_text.
  pose proof (emits_Flush_pages p) as Hpages. fold (after_pages p) in Hpages.
  destruct (isNil (err (after_pages p))) eqn:Hnil.
  - eapply emits_trans; [exact Hpages|].
    eapply emits_trans.
    { pose proof (emits_Flush_catalog (next_id p) (after_pages p)) as Hc.
      fold (after_catalog p) in Hc.
      unfold after_pages in Hc at 2. rewrite next_id_app with (p := p) (offs := [offset p]) in Hc
        by apply objects_Flush_pages.
      exact Hc. }
    eapply emits_trans.
    { unfold after_xref. apply emits_Flush_xref. }
    pose proof (emits_Flush_trailer (next_id p + 1) (offset (after_catalog p)) (after_xref p)) as Ht.
    unfold after_xref in Ht |- *.
    rewrite objects_Flush_xref, infoId_Flush_xref in Ht.
    replace (infoId (after_catalog p)) with (infoId p) in Ht
      by (unfold after_catalog, after_pages;
          rewrite infoId_Flush_catalog, infoId_Flush_pages; reflexivity).
    exact Ht.
  - eapply emits_failed; eassumption.
Qed.

End TextOfFlush.

(* ================================================================== *)
(** ** The page operations never reach their [panic] *)

Section PageOperations.

Context {W : Type} `{Writer W}.

Lemma WritePage_Ok (x y : Length) (data : list byte) (p : PDFWriter W) :
  WritePage x y data p =
  Ok ((next_id p, err (after_WritePage x y data p)), after_WritePage x y data p).
Proof.
  unfold WritePage, after_WritePage. cbv zeta.
  change (fst (WritePage_objs x y data p)) with (eval (WritePage_objs x y data) p).
  change (snd (WritePage_objs x y data p)) with (exec (WritePage_objs x y data) p).
  rewrite eval_WritePage_objs. cbn [fst snd].
  rewrite Z.eqb_refl, andb_false_r, pages_WritePage_objs. reflexivity.
Qed.

Lemma WriteJPEGPage_Ok (img : Image) (data : list byte) (p : PDFWriter W) :
  WriteJPEGPage img data p =
  Ok ((next_id p, err (after_WriteJPEGPage img data p)),
      after_WriteJPEGPage img data p).
Proof.
  unfold WriteJPEGPage, after_WriteJPEGPage. cbv zeta.
  set (x := points (Dx (Bounds img))). set (y := points (Dy (Bounds img))).
  change (fst (WriteJPEGPage_objs x y p)) with (eval (WriteJPEGPage_objs x y) p).
  change (snd (WriteJPEGPage_objs x y p)) with (exec (WriteJPEGPage_objs x y) p).
  rewrite eval_WriteJPEGPage_objs. cbn [fst snd].
  rewrite Z.eqb_refl, andb_false_r.
  set (p1 := exec (WriteJPEGPage_objs x y) p).
  change (fst (writeImage (Dx (Bounds img)) (Dy (Bounds img)) data p1))
    with (eval (writeImage (Dx (Bounds img)) (Dy (Bounds img)) data) p1).
  change (snd (writeImage (Dx (Bounds img)) (Dy (Bounds img)) data p1))
    with (exec (writeImage (Dx (Bounds img)) (Dy (Bounds img)) data) p1).
  rewrite eval_writeImage. unfold p1. rewrite next_id_WriteJPEGPage_objs.
  rewrite Z.eqb_refl, andb_false_r.
  rewrite pages_writeImage, pages_WriteJPEGPage_objs. reflexivity.
Qed.

Lemma step_Ok (o : Op) (p : PDFWriter W) :
  step o p = Ok (err (after o p), after o p).
Proof.
  destruct o as [title mtime|x y data|img data]; cbn [step after].
  - rewrite (surjective_pairing (WriteInfo title mtime p)).
    change (fst (WriteInfo title mtime p)) with (eval (WriteInfo title mtime) p).
    rewrite eval_WriteInfo. reflexivity.
  - rewrite WritePage_Ok. reflexivity.
  - rewrite WriteJPEGPage_Ok. reflexivity.
Qed.

Lemma run_Ok (ops : list Op) (p : PDFWriter W) : run ops p = Ok (after_all ops p).
Proof.
  revert p. induction ops as [|o ops IH]; intros p; cbn [run after_all fold_left].
  - reflexivity.
  - rewrite step_Ok. cbn [snd]. apply IH.
Qed.

Lemma document_Ok (snk : W) (ops : list Op) :
  document snk ops = Ok (err (finished snk ops), finished snk ops).
Proof.
  unfold document, finished. rewrite run_Ok.
  set (p := after_all ops (fst (NewPDFWriter snk))).
  rewrite (surjective_pairing (Flush p)).
  change (fst (Flush p)) with (eval Flush p).
  rewrite eval_Flush. reflexivity.
Qed.

Lemma next_id_after (o : Op) (p : PDFWriter W) :
  next_id (after o p) = next_id p + op_objects o.
Proof.
  destruct o as [title mtime|x y data|img data]; cbn [after op_objects].
  - unfold next_id. rewrite objects_WriteInfo. ids.
  - unfold after_WritePage. rewrite next_id_set_pages. apply next_id_WritePage_objs.
  - unfold after_WriteJPEGPage.
    rewrite next_id_set_pages, next_id_writeImage, next_id_WriteJPEGPage_objs. lia.
Qed.

Lemma pages_after (o : Op) (p : PDFWriter W) :
  pages (after o p) = pages p ++ op_pages o (next_id p).
Proof.
  destruct o as [title mtime|x y data|img data]; cbn [after op_pages].
  - rewrite pages_WriteInfo, app_nil_r. reflexivity.
  - reflexivity.
  - reflexivity.
Qed.

Lemma infoId_after (o : Op) (p : PDFWriter W) :
  infoId (after o p) = op_infoId o (next_id p) (infoId p).
Proof.
  destruct o as [title mtime|x y data|img data]; cbn [after op_infoId].
  - apply infoId_WriteInfo.
  - unfold after_WritePage. cbn [infoId set_pages]. apply infoId_WritePage_objs.
  - unfold after_WriteJPEGPage. cbn [infoId set_pages].
    rewrite infoId_writeImage. apply infoId_WriteJPEGPage_objs.
Qed.

End PageOperations.

(* ================================================================== *)
(** ** Runs in which no write fails *)

Section NoFailure.

Context {W : Type} `{Writer W}.

(** When no write failed, [emits] gives the bytes, the cursor and [err]. *)
Lemma emits_ok (p p' : PDFWriter (Traced W)) (B : list byte) :
  emits p p' B ->
  all_ok (log (w p')) = true ->
  all_ok (log (w p)) = true /\
  accepted p' = accepted p ++ B /\
  offset p' = wrap (offset p + len B) /\
  err p' = None.
Proof.
  intros (evs & c & Hlog & Hne & Herr & Hoff & Hc & Hok) Hall.
  rewrite Hlog, all_ok_app in Hall. apply andb_true_iff in Hall as [H1 H2].
  specialize (Hok H2). specialize (Hc (all_ok_conforming _ H2)).
  pose proof (all_ok_requested _ H2) as Hreq.
  repeat split.
  - exact H1.
  - unfold accepted. rewrite Hlog, accepted_of_app, Hok. reflexivity.
  - rewrite Hoff. f_equal. rewrite <- Hok. lia.
  - rewrite Herr. apply all_ok_last_err; assumption.
Qed.

Lemma header_at_app (out more : list byte) (id : PDFID) (off : Z) :
  header_at out id off -> header_at (out ++ more) id off.
Proof.
  intros (pre & post & -> & ->). exists pre, (post ++ more).
  rewrite <- !app_assoc. auto.
Qed.

Lemma Inv_emits (p p' : PDFWriter (Traced W)) (B : list byte) :
  Inv p -> emits p p' B -> objects p' = objects p -> Inv p'.
Proof.
  intros HI Hem Hobj Hall.
  destruct (emits_ok _ _ _ Hem Hall) as (Hp & Hacc & Hoff & _).
  destruct (HI Hp) as (Ho & Hh). split.
  - rewrite Hoff, Ho, Hacc, wrap_add_l, len_app. reflexivity.
  - intros k off Hk. rewrite Hobj in Hk. rewrite Hacc.
    apply header_at_app. auto.
Qed.

Lemma Inv_startObj (p : PDFWriter (Traced W)) : Inv p -> Inv (exec startObj p).
Proof.
  intros HI Hall.
  destruct (emits_ok _ _ _ (emits_startObj p) Hall) as (Hp & Hacc & Hoff & _).
  destruct (HI Hp) as (Ho & Hh). split.
  - rewrite Hoff, Ho, Hacc, wrap_add_l, len_app. reflexivity.
  - intros k off Hk. rewrite objects_startObj in Hk. rewrite Hacc.
    destruct (Nat.lt_ge_cases k (List.length (objects p))) as [Hlt|Hge].
    + rewrite nth_error_app1 in Hk by exact Hlt.
      apply header_at_app. auto.
    + rewrite nth_error_app2 in Hk by exact Hge.
      destruct (k - List.length (objects p))%nat as [|n] eqn:Hd.
      * cbn in Hk. injection Hk as <-.
        exists (accepted p), (line "<<"). split; [|exact Ho].
        unfold obj_header, next_id, len.
        replace k with (List.length (objects p)) by lia. reflexivity.
      * destruct n; discriminate.
Qed.

Lemma preserves_bind {A B} (m : M A) (k : A -> M B) :
  preserves (W := W) m -> (forall a, preserves (W := W) (k a)) -> preserves (W := W) (bind m k).
Proof. intros Hm Hk p HI. rewrite exec_bind. apply Hk, Hm, HI. Qed.

Lemma preserves_ret {A} (a : A) : preserves (W := W) (ret a).
Proof. intros p HI. exact HI. Qed.

Lemma preserves_gets {A} (f : PDFWriter (Traced W) -> A) : preserves (W := W) (gets f).
Proof. intros p HI. exact HI. Qed.

Lemma preserves_print (s : string) : preserves (W := W) (print s).
Proof.
  intros p HI. eapply Inv_emits; [exact HI|apply emits_print|apply objects_print].
Qed.

Lemma preserves_printf (s : string) : preserves (W := W) (printf s).
Proof. apply preserves_print. Qed.

Lemma preserves_write_data (d : list byte) : preserves (W := W) (modify (write_data d)).
Proof.
  intros p HI. eapply Inv_emits; [exact HI|apply emits_write_data|reflexivity].
Qed.

Lemma preserves_startObj : preserves (W := W) startObj.
Proof. intros p. apply Inv_startObj. Qed.

Lemma preserves_set_infoId (f : PDFWriter (Traced W) -> PDFID) :
  preserves (W := W) (modify (fun p => set_infoId p (f p))).
Proof. intros p HI. exact HI. Qed.

Lemma preserves_print_xref_entries (offs : list Z) :
  preserves (W := W) (print_xref_entries offs).
Proof.
  induction offs as [|off offs IH]; cbn [print_xref_entries].
  - apply preserves_ret.
  - apply preserves_bind; [apply preserves_printf|intros _; exact IH].
Qed.

Lemma preserves_if {A} (b : bool) (m1 m2 : M A) :
  preserves (W := W) m1 -> preserves (W := W) m2 -> preserves (W := W) (if b then m1 else m2).
Proof. destruct b; auto. Qed.

End NoFailure.

(** [preserves], by the shape of the method. *)
Ltac preserves_tac :=
  repeat
    lazymatch goal with
    | |- preserves (bind _ _) => apply preserves_bind; [|intro]
    | |- preserves (ret _) => apply preserves_ret
    | |- preserves (gets _) => apply preserves_gets
    | |- preserves (print _) => apply preserves_print
    | |- preserves (printf _) => apply preserves_printf
    | |- preserves (modify (write_data _)) => apply preserves_write_data
    | |- preserves (modify (fun p => set_infoId p _)) =>
        apply (preserves_set_infoId (fun _ => _))
    | |- preserves startObj => apply preserves_startObj
    | |- preserves (print_xref_entries _) => apply preserves_print_xref_entries
    | |- preserves (if _ then _ else _) => apply preserves_if
    | |- preserves (let _ := _ in _) => cbv zeta
    | |- preserves endObj => unfold endObj
    | |- preserves (writeStream _) => unfold writeStream
    | |- preserves (writeStreamObject _) => unfold writeStreamObject
    | |- preserves (writeImage _ _ _) => unfold writeImage
    | |- preserves (WriteInfo _ _) => unfold WriteInfo
    | |- preserves (WritePage_objs _ _ _) => unfold WritePage_objs
    | |- preserves (WriteJPEGPage_objs _ _) => unfold WriteJPEGPage_objs
    | |- preserves Flush_pages => unfold Flush_pages
    | |- preserves (Flush_catalog _) => unfold Flush_catalog
    | |- preserves Flush_xref => unfold Flush_xref
    | |- preserves (Flush_trailer _ _) => unfold Flush_trailer
    | |- preserves Flush => unfold Flush
    end.

Section InvariantOfOperations.

Context {W : Type} `{Writer W}.

Lemma preserves_WriteInfo (title : string) (mtime : Time) :
  preserves (W := W) (WriteInfo title mtime).
Proof. preserves_tac. Qed.

Lemma preserves_WritePage_objs (x y : Length) (data : list byte) :
  preserves (W := W) (WritePage_objs x y data).
Proof. preserves_tac. Qed.

Lemma preserves_WriteJPEGPage_objs (x y : Length) :
  preserves (W := W) (WriteJPEGPage_objs x y).
Proof. preserves_tac. Qed.

Lemma preserves_writeImage (wd h : Z) (data : list byte) :
  preserves (W := W) (writeImage wd h data).
Proof. preserves_tac. Qed.

Lemma preserves_Flush : preserves (W := W) Flush.
Proof. preserves_tac. Qed.

Lemma Inv_set_pages (p : PDFWriter (Traced W)) (l : list PDFID) :
  Inv p -> Inv (set_pages p l).
Proof. intros HI. exact HI. Qed.

Lemma Inv_after (o : Op) (p : PDFWriter (Traced W)) : Inv p -> Inv (after o p).
Proof.
  intros HI. destruct o as [title mtime|x y data|img data]; cbn [after].
  - apply preserves_WriteInfo, HI.
  - unfold after_WritePage. apply Inv_set_pages.
    apply preserves_WritePage_objs, HI.
  - unfold after_WriteJPEGPage. apply Inv_set_pages.
    apply preserves_writeImage, preserves_WriteJPEGPage_objs, HI.
Qed.

Lemma Inv_after_all (ops : list Op) (p : PDFWriter (Traced W)) :
  Inv p -> Inv (after_all ops p).
Proof.
  revert p. induction ops as [|o ops IH]; intros p HI; cbn [after_all fold_left].
  - exact HI.
  - apply IH, Inv_after, HI.
Qed.

Lemma Inv_NewPDFWriter (snk : W) : Inv (fst (NewPDFWriter (trace snk))).
Proof.
  unfold NewPDFWriter. cbn [fst]. apply preserves_print.
  intros _. split; [reflexivity|]. intros [|k] off Hk; discriminate.
Qed.

Lemma Inv_finished (snk : W) (ops : list Op) : Inv (finished (trace snk) ops).
Proof.
  unfold finished. apply preserves_Flush, Inv_after_all, Inv_NewPDFWriter.
Qed.

End InvariantOfOperations.

Section Documents.

Context {W : Type} `{Writer W}.

Lemma emits_written (p p' : PDFWriter (Traced W)) (B : list byte) :
  emits p p' B ->
  exists c : Z,
    log (w p') = log (w p) ++ written p p' /\
    written p p' <> [] /\
    err p' = last_err (written p p') (err p) /\
    offset p' = wrap (offset p + c) /\
    (conforming (written p p') = true ->
     len (accepted_of (written p p')) <= c <= requested (written p p')) /\
    (all_ok (written p p') = true -> accepted_of (written p p') = B).
Proof.
  intros (evs & c & Hlog & Hne & Herr & Hoff & Hc & Hok).
  assert (Hw : written p p' = evs).
  { unfold written. rewrite Hlog, skipn_app, skipn_all, Nat.sub_diag. reflexivity. }
  rewrite Hw. exists c. auto 10.
Qed.

Lemma emits_set_pages (p p' : PDFWriter (Traced W)) (B : list byte) (l : list PDFID) :
  emits p p' B -> emits p (set_pages p' l) B.
Proof. intros Hem. exact Hem. Qed.

Lemma emits_after_WritePage (x y : Length) (data : list byte) (p : PDFWriter (Traced W)) :
  emits p (after_WritePage x y data p) (WritePage_text (next_id p) x y data).
Proof. unfold after_WritePage. apply emits_set_pages, emits_WritePage_objs. Qed.

Lemma emits_after_WriteJPEGPage (img : Image) (data : list byte)
      (p : PDFWriter (Traced W)) :
  emits p (after_WriteJPEGPage img data p) (WriteJPEGPage_text (next_id p) img data).
Proof.
  unfold after_WriteJPEGPage, WriteJPEGPage_text. apply emits_set_pages.
  rewrite app_assoc.
  eapply emits_trans; [apply emits_WriteJPEGPage_objs|].
  apply emits_writeImage_eq. rewrite next_id_WriteJPEGPage_objs. reflexivity.
Qed.

Lemma emits_after (o : Op) (p : PDFWriter (Traced W)) :
  emits p (after o p) (op_text o (next_id p)).
Proof.
  destruct o as [title mtime|x y data|img data]; cbn [after op_text].
  - apply emits_WriteInfo.
  - apply emits_after_WritePage.
  - apply emits_after_WriteJPEGPage.
Qed.

Lemma emits_after_all (ops : list Op) (p0 p : PDFWriter (Traced W)) (B : list byte) :
  emits p0 p B ->
  emits p0 (after_all ops p) (B ++ ops_text ops (next_id p)).
Proof.
  revert p B. induction ops as [|o ops IH]; intros p B Hem;
    cbn [after_all fold_left ops_text].
  - rewrite app_nil_r. exact Hem.
  - rewrite app_assoc, <- next_id_after. apply IH.
    eapply emits_trans; [exact Hem|apply emits_after].
Qed.

Lemma emits_after_call (c : Call) (p : PDFWriter (Traced W)) :
  emits p (after_call c p) (call_text c p).
Proof.
  destruct c as [o|]; cbn [after_call call_text].
  - apply emits_after.
  - apply emits_Flush.
Qed.

Lemma returned_err (c : Call) (p : PDFWriter (Traced W)) :
  returned c p = Ok (err (after_call c p)).
Proof.
  destruct c as [o|]; cbn [returned after_call].
  - rewrite step_Ok. reflexivity.
  - rewrite eval_Flush. reflexivity.
Qed.

Lemma emits_NewPDFWriter (snk : W) :
  emits (blank snk) (fst (NewPDFWriter (trace snk))) (line "%PDF-1.3").
Proof. unfold NewPDFWriter. cbn [fst]. apply emits_print. Qed.

Lemma next_id_NewPDFWriter (snk : W) : next_id (fst (NewPDFWriter (trace snk))) = 1.
Proof. unfold NewPDFWriter. cbn [fst]. rewrite next_id_print. reflexivity. Qed.

Lemma emits_finished (snk : W) (ops : list Op) :
  emits (blank snk) (finished (trace snk) ops) (document_text snk ops).
Proof.
  unfold finished, document_text. rewrite app_assoc.
  eapply emits_trans; [|apply emits_Flush].
  rewrite <- (next_id_NewPDFWriter snk).
  apply emits_after_all, emits_NewPDFWriter.
Qed.

Lemma accepted_finished (snk : W) (ops : list Op) :
  all_ok (log (w (finished (trace snk) ops))) = true ->
  accepted (finished (trace snk) ops) = document_text snk ops /\
  err (finished (trace snk) ops) = None.
Proof.
  intros Hall.
  destruct (emits_ok _ _ _ (emits_finished snk ops) Hall) as (_ & Hacc & _ & Herr).
  split; [exact Hacc|exact Herr].
Qed.

(** When no write failed, [Flush] ran to its end. *)
Lemma Flush_ran (p : PDFWriter (Traced W)) :
  all_ok (log (w (exec Flush p))) = true ->
  isNil (err (after_pages p)) = true.
Proof.
  intros Hall. rewrite exec_Flush in Hall.
  destruct (isNil (err (after_pages p))) eqn:Hnil; [reflexivity|].
  pose proof (emits_Flush_pages p) as Hem. fold (after_pages p) in Hem.
  destruct (emits_ok _ _ _ Hem Hall) as (_ & _ & _ & Herr).
  rewrite Herr in Hnil. discriminate.
Qed.

Lemma objects_Flush (p : PDFWriter (Traced W)) :
  all_ok (log (w (exec Flush p))) = true ->
  objects (exec Flush p) = objects (after_catalog p).
Proof.
  intros Hall. rewrite exec_Flush, (Flush_ran p Hall).
  unfold after_xref. rewrite objects_Flush_trailer, objects_Flush_xref. reflexivity.
Qed.

Lemma pages_Flush (p : PDFWriter (Traced W)) : pages (exec Flush p) = pages p.
Proof.
  rewrite exec_Flush. destruct (isNil (err (after_pages p))).
  - unfold after_xref, after_catalog, after_pages.
    rewrite pages_Flush_trailer, pages_Flush_xref, pages_Flush_catalog.
    apply pages_Flush_pages.
  - apply pages_Flush_pages.
Qed.

Lemma infoId_Flush (p : PDFWriter (Traced W)) : infoId (exec Flush p) = infoId p.
Proof.
  rewrite exec_Flush. destruct (isNil (err (after_pages p))).
  - unfold after_xref, after_catalog, after_pages.
    rewrite infoId_Flush_trailer, infoId_Flush_xref, infoId_Flush_catalog.
    apply infoId_Flush_pages.
  - apply infoId_Flush_pages.
Qed.

End Documents.

(* ================================================================== *)
(** ** Whole documents *)

(** The output of a document without a failed write holds the
    cross-reference section of the final object table. *)
Lemma xref_in_output {W} `{Writer W} (snk : W) (ops : list Op) :
  all_ok (log (w (finished (trace snk) ops))) = true ->
  exists head tail,
    accepted (finished (trace snk) ops) =
    head ++ xref_text (objects (finished (trace snk) ops)) ++ tail.
Proof.
  intros Hall.
  destruct (accepted_finished snk ops Hall) as (Hacc & Herr).
  rewrite Hacc. unfold document_text, Flush_text.
  set (q := after_all ops (fst (NewPDFWriter (trace snk)))).
  unfold finished in Hall |- *. fold q in Hall |- *.
  rewrite (objects_Flush q Hall).
  eexists (line "%PDF-1.3" ++ ops_text ops 1 ++
           pages_obj_text (next_id q) (pages q) ++
           catalog_text (next_id q + 1) (next_id q)), _.
  rewrite <- !app_assoc. reflexivity.
Qed.

Lemma written_ok {W} `{Writer W} (p p' : PDFWriter (Traced W)) (B : list byte) :
  emits p p' B -> all_ok (written p p') = true -> accepted_of (written p p') = B.
Proof.
  intros Hem Hall. destruct (emits_written _ _ _ Hem) as (c & _ & _ & _ & _ & _ & Hok).
  auto.
Qed.

(** ** Lengths of formatted text *)

Lemma append_assoc (a b c : string) : ((a ++ b) ++ c = a ++ b ++ c)%string.
Proof. induction a as [|ch a IH]; cbn; [reflexivity|]. rewrite IH. reflexivity. Qed.

Lemma append_empty_r (a : string) : (a ++ EmptyString)%string = a.
Proof. induction a as [|ch a IH]; cbn; [reflexivity|]. rewrite IH. reflexivity. Qed.

Lemma length_append (s1 s2 : string) :
  String.length (s1 ++ s2) = (String.length s1 + String.length s2)%nat.
Proof. induction s1 as [|c s1 IH]; cbn; [reflexivity|]. rewrite IH. reflexivity. Qed.

Lemma len_bytes (s : string) : len (bytes s) = Z.of_nat (String.length s).
Proof.
  unfold len, bytes. f_equal.
  induction s as [|c s IH]; cbn; [reflexivity|]. f_equal. exact IH.
Qed.

Lemma len_line (s : string) : len (line s) = Z.of_nat (String.length s) + 1.
Proof. unfold line. rewrite len_app, len_bytes. reflexivity. Qed.

Lemma length_zeros (n : nat) : String.length (zeros n) = n.
Proof. induction n as [|n IH]; cbn; [reflexivity|]. rewrite IH. reflexivity. Qed.

(** A number below [10^k] has at most [k] digits. *)
Lemma length_digits_aux (fuel : nat) :
  forall (k : nat) (n : Z) (acc : string),
    (1 <= k)%nat -> 0 <= n < 10 ^ Z.of_nat k ->
    (String.length (digits_aux fuel n acc) <= k + String.length acc)%nat.
Proof.
  induction fuel as [|fuel IH]; intros k n acc Hk Hn; cbn [digits_aux].
  - lia.
  - destruct (n <? 10) eqn:Hlt.
    + cbn. lia.
    + apply Z.ltb_ge in Hlt.
      destruct k as [|[|k]]; [lia| cbn in Hn; lia |].
      specialize (IH (S k) (n / 10) (String (digit (n mod 10)) acc)).
      cbn [String.length] in IH.
      assert (Hdiv : 0 <= n / 10 < 10 ^ Z.of_nat (S k)).
      { replace (Z.of_nat (S (S k))) with (Z.of_nat (S k) + 1) in Hn by lia.
        rewrite Z.pow_add_r, Z.pow_1_r in Hn by lia.
        split; [apply Z.div_pos; lia|].
        apply Z.div_lt_upper_bound; lia. }
      specialize (IH ltac:(lia) Hdiv). lia.
Qed.

Lemma length_digits (k : nat) (n : Z) :
  (1 <= k)%nat -> 0 <= n < 10 ^ Z.of_nat k -> (String.length (digits n) <= k)%nat.
Proof.
  intros Hk Hn. unfold digits.
  pose proof (length_digits_aux (S (Z.to_nat (Z.log2 n))) k n EmptyString Hk Hn) as Hl.
  cbn [String.length] in Hl. lia.
Qed.

(** Reading back what [%d] and [%0<width>d] print. *)
Lemma read_aux_app (a b : string) (acc : Z) :
  read_aux (a ++ b) acc = read_aux b (read_aux a acc).
Proof.
  revert acc. induction a as [|c a IH]; intros acc; cbn; [reflexivity|]. apply IH.
Qed.

Lemma digit_value_digit (d : Z) : 0 <= d < 10 -> digit_value (digit d) = d.
Proof.
  intros Hd. unfold digit_value, digit.
  rewrite nat_ascii_embedding by lia. lia.
Qed.

Lemma digits_aux_acc (fuel : nat) :
  forall (n : Z) (acc : string),
    digits_aux fuel n acc = (digits_aux fuel n EmptyString ++ acc)%string.
Proof.
  induction fuel as [|fuel IH]; intros n acc; cbn [digits_aux]; [reflexivity|].
  destruct (n <? 10); [reflexivity|].
  rewrite (IH (n / 10) (String (digit (n mod 10)) acc)).
  rewrite (IH (n / 10) (String (digit (n mod 10)) EmptyString)).
  rewrite append_assoc. reflexivity.
Qed.

Lemma read_digits_aux (fuel : nat) :
  forall n : Z,
    0 <= n < 10 ^ Z.of_nat fuel ->
    read_aux (digits_aux fuel n EmptyString) 0 = n.
Proof.
  induction fuel as [|fuel IH]; intros n Hn; cbn [digits_aux].
  - cbn in Hn. cbn. lia.
  - destruct (n <? 10) eqn:Hlt.
    + apply Z.ltb_lt in Hlt. cbn [read_aux].
      rewrite Z.mod_small by lia. rewrite digit_value_digit by lia. lia.
    + apply Z.ltb_ge in Hlt.
      rewrite digits_aux_acc, read_aux_app. cbn [read_aux].
      replace (Z.of_nat (S fuel)) with (Z.of_nat fuel + 1) in Hn by lia.
      rewrite Z.pow_add_r, Z.pow_1_r in Hn by lia.
      rewrite IH.
      * rewrite digit_value_digit by (apply Z.mod_pos_bound; lia).
        pose proof (Z.div_mod n 10 ltac:(lia)). lia.
      * split; [apply Z.div_pos; lia|]. apply Z.div_lt_upper_bound; lia.
Qed.

Lemma read_digits (n : Z) : 0 <= n -> read_d (digits n) = n.
Proof.
  intros Hn. unfold read_d, digits. apply read_digits_aux.
  split; [exact Hn|].
  destruct (Z.eq_dec n 0) as [->|Hnz]; [cbn; lia|].
  pose proof (Z.log2_spec n ltac:(lia)) as (_ & Hlog).
  pose proof (Z.log2_nonneg n) as Hl.
  replace (Z.of_nat (S (Z.to_nat (Z.log2 n)))) with (Z.succ (Z.log2 n)) by lia.
  eapply Z.lt_le_trans; [exact Hlog|].
  apply Z.pow_le_mono_l. lia.
Qed.

Lemma read_fmt_d (n : Z) : 0 <= n -> read_d (fmt_d n) = n.
Proof.
  intros Hn. unfold fmt_d.
  destruct (n <? 0) eqn:Hneg; [apply Z.ltb_lt in Hneg; lia|].
  apply read_digits, Hn.
Qed.

Lemma read_zeros (k : nat) (s : string) :
  read_aux (zeros k ++ s) 0 = read_aux s 0.
Proof. induction k as [|k IH]; cbn; [reflexivity|]. exact IH. Qed.

Lemma read_fmt_0d (width : nat) (n : Z) : 0 <= n -> read_d (fmt_0d width n) = n.
Proof.
  intros Hn. unfold fmt_0d. cbv zeta.
  destruct (n <? 0) eqn:Hneg; [apply Z.ltb_lt in Hneg; lia|].
  rewrite Z.abs_eq by lia. unfold read_d. rewrite read_zeros.
  apply read_digits, Hn.
Qed.

Lemma length_fmt_0d_10 (off : Z) :
  0 <= off < 10 ^ 10 -> String.length (fmt_0d 10 off) = 10%nat.
Proof.
  intros Hoff. unfold fmt_0d. cbv zeta.
  destruct (off <? 0) eqn:Hneg; [apply Z.ltb_lt in Hneg; lia|].
  rewrite Z.abs_eq by lia.
  pose proof (length_digits 10 off ltac:(lia) Hoff) as Hd.
  rewrite length_append, length_zeros. lia.
Qed.

Lemma len_xref_entry (off : Z) : 0 <= off < 10 ^ 10 -> len (xref_entry off) = 19.
Proof.
  intros Hoff. unfold xref_entry.
  rewrite len_line, length_append, (length_fmt_0d_10 off Hoff). reflexivity.
Qed.

(** In a document without a failed write every recorded offset lies inside
    the output. *)
Lemma objects_in_output {W} `{Writer W} (snk : W) (ops : list Op) :
  let p := finished (trace snk) ops in
  all_ok (log (w p)) = true ->
  len (accepted p) < 2 ^ 63 ->
  Forall (fun off => 0 <= off < len (accepted p)) (objects p).
Proof.
  intros p Hall Hlen. subst p. apply Forall_forall. intros off Hin.
  apply In_nth_error in Hin as (k & Hk).
  destruct (Inv_finished snk ops Hall) as (_ & Hh).
  destruct (Hh k off Hk) as (pre & post & Hout & Hoff).
  rewrite Hout, !len_app in Hlen |- *.
  pose proof (len_nonneg pre). pose proof (len_nonneg post).
  assert (0 < len (obj_line (Z.of_nat k + 1))).
  { unfold obj_line. rewrite len_line. lia. }
  rewrite Hoff, wrap_small; lia.
Qed.

(** The cursor over a stretch of the run on a sink that keeps its
    contract, while the count fits in an [int]. *)
Lemma cursor_step {W} `{Writer W} (p p' : PDFWriter (Traced W)) (B : list byte) :
  emits p p' B ->
  conforming (written p p') = true ->
  - 2 ^ 63 <= offset p ->
  offset p + requested (written p p') < 2 ^ 63 ->
  offset p <= offset p' /\
  (len (accepted p) <= offset p -> len (accepted p') <= offset p') /\
  (all_ok (written p p') = true ->
   offset p = len (accepted p) -> offset p' = len (accepted p')).
Proof.
  intros Hem Hconf Hlo Hhi.
  destruct (emits_written _ _ _ Hem) as (c & Hlog & _ & _ & Hoff & Hc & _).
  specialize (Hc Hconf).
  pose proof (conforming_bounds _ Hconf) as Hb.
  assert (Hacc : len (accepted p') = len (accepted p) + len (accepted_of (written p p'))).
  { unfold accepted. rewrite Hlog, accepted_of_app, len_app. reflexivity. }
  rewrite wrap_small in Hoff by lia.
  split; [lia|]. split; [lia|].
  intros Hall Heq. pose proof (all_ok_requested _ Hall). lia.
Qed.

Lemma written_err_ok {W} `{Writer W} (p p' : PDFWriter (Traced W)) (B : list byte) :
  emits p p' B -> all_ok (written p p') = true -> err p' = None.
Proof.
  intros Hem Hall.
  destruct (emits_written _ _ _ Hem) as (c & _ & Hne & Herr & _ & _ & _).
  rewrite Herr. apply all_ok_last_err; assumption.
Qed.

Lemma pages_after_all {W} `{Writer W} (ops : list Op) (p : PDFWriter W) :
  pages (after_all ops p) = pages p ++ ops_pages ops (next_id p).
Proof.
  revert p. induction ops as [|o ops IH]; intros p;
    cbn [after_all fold_left ops_pages].
  - rewrite app_nil_r. reflexivity.
  - fold (after_all ops (after o p)).
    rewrite IH, pages_after, next_id_after, app_assoc. reflexivity.
Qed.

Lemma infoId_after_all {W} `{Writer W} (ops : list Op) (p : PDFWriter W) :
  infoId (after_all ops p) = ops_infoId ops (next_id p) (infoId p).
Proof.
  revert p. induction ops as [|o ops IH]; intros p;
    cbn [after_all fold_left ops_infoId].
  - reflexivity.
  - fold (after_all ops (after o p)).
    rewrite IH, infoId_after, next_id_after. reflexivity.
Qed.

Lemma pages_finished {W} `{Writer W} (snk : W) (ops : list Op) :
  pages (finished (trace snk) ops) = ops_pages ops 1.
Proof.
  unfold finished. rewrite pages_Flush, pages_after_all, next_id_NewPDFWriter.
  unfold NewPDFWriter. cbn [fst]. rewrite pages_print. reflexivity.
Qed.

Lemma infoId_finished {W} `{Writer W} (snk : W) (ops : list Op) :
  infoId (finished (trace snk) ops) = ops_infoId ops 1 0.
Proof.
  unfold finished. rewrite infoId_Flush, infoId_after_all, next_id_NewPDFWriter.
  unfold NewPDFWriter. cbn [fst]. rewrite infoId_print. reflexivity.
Qed.

Lemma kids_refs (pgs : list PDFID) : kids pgs = refs pgs.
Proof.
  unfold kids.
  assert (Hgen : forall buf,
             fold_left (fun buf page => (buf ++ fmt_d page ++ " 0 R ")%string) pgs buf
             = (buf ++ refs pgs)%string).
  { induction pgs as [|page pgs IH]; intros buf; cbn [fold_left refs].
    - rewrite append_empty_r. reflexivity.
    - rewrite IH, !append_assoc. reflexivity. }
  apply (Hgen EmptyString).
Qed.

(** The output of a document without a failed write holds the pages tree of
    the final page list and a trailer with the final [infoId]. *)
Lemma pages_tree_in_output {W} `{Writer W} (snk : W) (ops : list Op) :
  let p := finished (trace snk) ops in
  all_ok (log (w p)) = true ->
  exists head tail,
    accepted p =
    head ++
    line "/Type /Pages" ++
    line ("/Kids [ " ++ kids (pages p) ++ "]") ++
    line ("/Count " ++ fmt_d (len (pages p))) ++
    tail.
Proof.
  intros p Hall. subst p.
  destruct (accepted_finished snk ops Hall) as (Hacc & _).
  rewrite Hacc. unfold document_text, Flush_text, pages_obj_text.
  set (q := after_all ops (fst (NewPDFWriter (trace snk)))).
  unfold finished. fold q. rewrite (pages_Flush q).
  exists (line "%PDF-1.3" ++ ops_text ops 1 ++ obj_header (next_id q)). eexists.
  rewrite <- !app_assoc. reflexivity.
Qed.

Lemma info_in_output {W} `{Writer W} (snk : W) (ops : list Op) :
  let p := finished (trace snk) ops in
  all_ok (log (w p)) = true ->
  exists head tail,
    accepted p = head ++ line ("/Info " ++ fmt_d (infoId p) ++ " 0 R") ++ tail.
Proof.
  intros p Hall. subst p.
  destruct (accepted_finished snk ops Hall) as (Hacc & _).
  rewrite Hacc. unfold document_text, Flush_text, trailer_text.
  set (q := after_all ops (fst (NewPDFWriter (trace snk)))).
  unfold finished. fold q. rewrite (infoId_Flush q).
  exists (line "%PDF-1.3" ++ ops_text ops 1 ++
          pages_obj_text (next_id q) (pages q) ++
          catalog_text (next_id q + 1) (next_id q) ++
          xref_text (objects (after_catalog q)) ++
          line "trailer" ++ line "<<" ++
          line ("/Size " ++ fmt_d (len (objects (after_catalog q)) + 1))).
  eexists. rewrite <- !app_assoc. reflexivity.
Qed.

Lemma ops_infoId_none (ops : list Op) (id old : PDFID) :
  forallb (fun o => negb (is_WriteInfo o)) ops = true ->
  ops_infoId ops id old = old.
Proof.
  revert id old. induction ops as [|o ops IH]; intros id old Hno;
    cbn [ops_infoId]; [reflexivity|].
  cbn [forallb] in Hno. apply andb_true_iff in Hno as [Ho Hno].
  rewrite (IH _ _ Hno). destruct o; [discriminate|reflexivity|reflexivity].
Qed.

Lemma ops_infoId_app (ops1 ops2 : list Op) (id old : PDFID) :
  ops_infoId (ops1 ++ ops2) id old =
  ops_infoId ops2 (id + ops_objects ops1) (ops_infoId ops1 id old).
Proof.
  revert id old. induction ops1 as [|o ops1 IH]; intros id old;
    cbn [app ops_infoId ops_objects fold_right].
  - rewrite Z.add_0_r. reflexivity.
  - rewrite IH. fold (ops_objects ops1). f_equal. lia.
Qed.

(* ================================================================== *)
(** ** Recording changes nothing

    The properties below speak of a writer on a recording sink.  The
    writer does the same on the sink itself: only the log is gone. *)

Section Recording.

Context {W : Type} `{Writer W}.

Lemma sim_ret {A} (a : A) : sim (W := W) (ret a) (ret a).
Proof. intros p. reflexivity. Qed.

Lemma sim_bind {A B} (m : M A) (mT : M A) (k : A -> M B) (kT : A -> M B) :
  sim (W := W) m mT -> (forall a, sim (W := W) (k a) (kT a)) -> sim (W := W) (bind m k) (bind mT kT).
Proof.
  intros Hm Hk p. unfold bind. cbv zeta. rewrite Hm. cbn [fst snd]. apply Hk.
Qed.

Lemma sim_gets {A} (f : PDFWriter W -> A) (fT : PDFWriter (Traced W) -> A) :
  (forall p, f (untrace p) = fT p) -> sim (W := W) (gets f) (gets fT).
Proof. intros Hf p. unfold gets. rewrite Hf. reflexivity. Qed.

Lemma sim_modify (f : PDFWriter W -> PDFWriter W)
      (fT : PDFWriter (Traced W) -> PDFWriter (Traced W)) :
  (forall p, f (untrace p) = untrace (fT p)) -> sim (W := W) (modify f) (modify fT).
Proof. intros Hf p. unfold modify. rewrite Hf. reflexivity. Qed.

Lemma sim_print (s : string) : sim (W := W) (print s) (print s).
Proof.
  intros p. unfold print, WriteString. cbv zeta.
  rewrite (Write_traced (w p)). cbn [fst snd untrace w offset].
  destruct (snd (snd (Write (inner (w p)) (bytes s)))); [reflexivity|].
  cbn [set_w set_offset w]. rewrite Write_traced. reflexivity.
Qed.

Lemma sim_printf (s : string) : sim (W := W) (printf s) (printf s).
Proof. apply sim_print. Qed.

Lemma sim_write_data (d : list byte) :
  sim (W := W) (modify (write_data d)) (modify (write_data d)).
Proof.
  apply sim_modify. intros p. unfold write_data. cbv zeta.
  rewrite (Write_traced (w p)). reflexivity.
Qed.

Lemma sim_print_xref_entries (offs : list Z) :
  sim (W := W) (print_xref_entries offs) (print_xref_entries offs).
Proof.
  induction offs as [|off offs IH]; cbn [print_xref_entries].
  - apply sim_ret.
  - apply sim_bind; [apply sim_printf|intros _; exact IH].
Qed.

Lemma sim_if {A} (b : bool) (m1 m2 : M A) (m1T m2T : M A) :
  sim (W := W) m1 m1T -> sim (W := W) m2 m2T ->
  sim (W := W) (if b then m1 else m2) (if b then m1T else m2T).
Proof. destruct b; auto. Qed.

Lemma sim_exec {A} (m : M A) (mT : M A) (p : PDFWriter (Traced W)) :
  sim (W := W) m mT -> exec m (untrace p) = untrace (exec mT p).
Proof. intros Hs. unfold exec. rewrite Hs. reflexivity. Qed.

Lemma sim_eval {A} (m : M A) (mT : M A) (p : PDFWriter (Traced W)) :
  sim (W := W) m mT -> eval m (untrace p) = eval mT p.
Proof. intros Hs. unfold eval. rewrite Hs. reflexivity. Qed.

End Recording.

(** [sim], by the shape of the method. *)
Ltac sim_tac :=
  repeat
    lazymatch goal with
    | |- sim (bind _ _) _ => apply sim_bind; [|intro]
    | |- sim (ret _) _ => apply sim_ret
    | |- sim (gets _) _ => apply sim_gets; intro; reflexivity
    | |- sim (print _) _ => apply sim_print
    | |- sim (printf _) _ => apply sim_printf
    | |- sim (modify (write_data _)) _ => apply sim_write_data
    | |- sim (modify _) _ => apply sim_modify; intro; reflexivity
    | |- sim (print_xref_entries _) _ => apply sim_print_xref_entries
    | |- sim (if _ then _ else _) _ => apply sim_if
    | |- sim (let _ := _ in _) _ => cbv zeta
    | |- sim startObj _ => unfold startObj
    | |- sim endObj _ => unfold endObj
    | |- sim (writeStream _) _ => unfold writeStream
    | |- sim (writeStreamObject _) _ => unfold writeStreamObject
    | |- sim (writeImage _ _ _) _ => unfold writeImage
    | |- sim (WriteInfo _ _) _ => unfold WriteInfo
    | |- sim (WritePage_objs _ _ _) _ => unfold WritePage_objs
    | |- sim (WriteJPEGPage_objs _ _) _ => unfold WriteJPEGPage_objs
    | |- sim Flush_pages _ => unfold Flush_pages
    | |- sim (Flush_catalog _) _ => unfold Flush_catalog
    | |- sim Flush_xref _ => unfold Flush_xref
    | |- sim (Flush_trailer _ _) _ => unfold Flush_trailer
    | |- sim Flush _ => unfold Flush
    end.

Section RecordingOfOperations.

Context {W : Type} `{Writer W}.

Lemma sim_WriteInfo (title : string) (mtime : Time) :
  sim (W := W) (WriteInfo title mtime) (WriteInfo title mtime).
Proof. sim_tac. Qed.

Lemma sim_WritePage_objs (x y : Length) (data : list byte) :
  sim (W := W) (WritePage_objs x y data) (WritePage_objs x y data).
Proof. sim_tac. Qed.

Lemma sim_WriteJPEGPage_objs (x y : Length) :
  sim (W := W) (WriteJPEGPage_objs x y) (WriteJPEGPage_objs x y).
Proof. sim_tac. Qed.

Lemma sim_writeImage (wd h : Z) (data : list byte) :
  sim (W := W) (writeImage wd h data) (writeImage wd h data).
Proof. sim_tac. Qed.

Lemma sim_Flush : sim (W := W) Flush Flush.
Proof. sim_tac. Qed.

Lemma untrace_set_pages (p : PDFWriter (Traced W)) (l : list PDFID) :
  untrace (set_pages p l) = set_pages (untrace p) l.
Proof. reflexivity. Qed.

Lemma untrace_after (o : Op) (p : PDFWriter (Traced W)) :
  after o (untrace p) = untrace (after o p).
Proof.
  destruct o as [title mtime|x y data|img data]; cbn [after].
  - apply sim_exec, sim_WriteInfo.
  - unfold after_WritePage.
    rewrite untrace_set_pages, (sim_exec _ _ p (sim_WritePage_objs x y data)).
    reflexivity.
  - unfold after_WriteJPEGPage.
    set (x := points (Dx (Bounds img))). set (y := points (Dy (Bounds img))).
    rewrite untrace_set_pages.
    rewrite (sim_exec (WriteJPEGPage_objs x y) (WriteJPEGPage_objs x y) p
               (sim_WriteJPEGPage_objs x y)).
    rewrite (sim_exec (writeImage (Dx (Bounds img)) (Dy (Bounds img)) data)
               (writeImage (Dx (Bounds img)) (Dy (Bounds img)) data)
               (exec (WriteJPEGPage_objs x y) p)
               (sim_writeImage _ _ data)).
    reflexivity.
Qed.

Lemma untrace_after_all (ops : list Op) (p : PDFWriter (Traced W)) :
  after_all ops (untrace p) = untrace (after_all ops p).
Proof.
  revert p. induction ops as [|o ops IH]; intros p; cbn [after_all fold_left].
  - reflexivity.
  - fold (after_all ops (after o (untrace p))). fold (after_all ops (after o p)).
    rewrite untrace_after. apply IH.
Qed.

(** A document on a sink is the document on the recording sink, without
    the log. *)
Lemma document_untrace (snk : W) (ops : list Op) :
  document snk ops =
  Ok (err (finished (trace snk) ops), untrace (finished (trace snk) ops)).
Proof.
  rewrite document_Ok. unfold finished.
  assert (Hnew : fst (NewPDFWriter snk) = untrace (fst (NewPDFWriter (trace snk)))).
  { unfold NewPDFWriter. cbn [fst].
    change (mkPDFWriter snk 0 [] [] None 0) with (untrace (blank snk)).
    apply sim_exec, sim_print. }
  rewrite Hnew, untrace_after_all, (sim_exec _ _ _ sim_Flush). reflexivity.
Qed.

End RecordingOfOperations.

(* ================================================================== *)
(** ** The layout of a document *)

Section Extension.

Context {W : Type} `{Writer W}.

Lemma extends_refl (p : PDFWriter (Traced W)) : extends p p.
Proof. exists []. symmetry. apply app_nil_r. Qed.

Lemma extends_trans (p p' p'' : PDFWriter (Traced W)) :
  extends p p' -> extends p' p'' -> extends p p''.
Proof.
  intros (e1 & H1) (e2 & H2). exists (e1 ++ e2).
  rewrite H2, H1, app_assoc. reflexivity.
Qed.

Lemma emits_extends (p p' : PDFWriter (Traced W)) (B : list byte) :
  emits p p' B -> extends p p'.
Proof. intros (evs & c & Hlog & _). exists evs. exact Hlog. Qed.

Lemma extends_after_all (ops : list Op) :
  forall p : PDFWriter (Traced W), extends p (after_all ops p).
Proof.
  induction ops as [|o ops IH]; intro p.
  - apply extends_refl.
  - cbn [after_all fold_left].
    eapply extends_trans; [exact (emits_extends _ _ _ (emits_after o p))|].
    apply IH.
Qed.

Lemma extends_all_ok (p p' : PDFWriter (Traced W)) :
  extends p p' -> all_ok (log (w p')) = true -> all_ok (log (w p)) = true.
Proof.
  intros (evs & Hlog) Hok. rewrite Hlog, all_ok_app in Hok.
  apply andb_true_iff in Hok. tauto.
Qed.

Lemma extends_len (p p' : PDFWriter (Traced W)) :
  extends p p' -> len (accepted p) <= len (accepted p').
Proof.
  intros (evs & Hlog). unfold accepted. rewrite Hlog, accepted_of_app, len_app.
  pose proof (len_nonneg (accepted_of evs)). lia.
Qed.

(** A step without a failed write, from a state whose cursor is the
    length of the output, within the range of [int]. *)
Lemma emits_exact (p p' : PDFWriter (Traced W)) (B : list byte) :
  emits p p' B ->
  all_ok (log (w p')) = true ->
  len (accepted p') < 2 ^ 63 ->
  offset p = len (accepted p) ->
  accepted p' = accepted p ++ B /\
  offset p' = offset p + len B /\
  offset p' = len (accepted p').
Proof.
  intros He Hok Hlen Hoff.
  destruct (emits_ok _ _ _ He Hok) as (_ & Hacc & Ho & _).
  split; [exact Hacc|].
  assert (Hw : offset p' = offset p + len B).
  { rewrite Ho. apply wrap_small.
    rewrite Hacc, len_app in Hlen.
    pose proof (len_nonneg (accepted p)). pose proof (len_nonneg B). lia. }
  split; [exact Hw|].
  rewrite Hw, Hacc, len_app, Hoff. reflexivity.
Qed.

End Extension.

Section PageParts.

Context {W : Type} `{Writer W}.

Lemma exec_WritePage_objs (x y : Length) (d : list byte) (p : PDFWriter W) :
  exec (WritePage_objs x y d) p =
  exec (writeStreamObject d) (exec (WritePage_page x y) p).
Proof.
  unfold WritePage_objs, WritePage_page.
  rewrite !exec_bind, !exec_ret. reflexivity.
Qed.

Lemma exec_WriteJPEGPage_objs (x y : Length) (p : PDFWriter W) :
  exec (WriteJPEGPage_objs x y) p =
  exec (writeStreamObject (JPEGPage_content x y)) (exec (WriteJPEGPage_page x y) p).
Proof.
  unfold WriteJPEGPage_objs, WriteJPEGPage_page.
  rewrite !exec_bind, !exec_ret. reflexivity.
Qed.

Lemma objects_WritePage_page (x y : Length) (p : PDFWriter W) :
  objects (exec (WritePage_page x y) p) = objects p ++ [offset p].
Proof. unfold WritePage_page. mnorm. reflexivity. Qed.

Lemma objects_WriteJPEGPage_page (x y : Length) (p : PDFWriter W) :
  objects (exec (WriteJPEGPage_page x y) p) = objects p ++ [offset p].
Proof. unfold WriteJPEGPage_page. mnorm. reflexivity. Qed.

Lemma emits_WritePage_page (x y : Length) (p : PDFWriter (Traced W)) :
  emits p (exec (WritePage_page x y) p) (page_obj_text (next_id p) x y).
Proof. unfold WritePage_page, page_obj_text. emits_go emits_objs. Qed.

Lemma emits_WriteJPEGPage_page (x y : Length) (p : PDFWriter (Traced W)) :
  emits p (exec (WriteJPEGPage_page x y) p) (jpeg_page_obj_text (next_id p) x y).
Proof. unfold WriteJPEGPage_page, jpeg_page_obj_text. emits_go emits_objs. Qed.

Lemma next_id_WritePage_page (x y : Length) (p : PDFWriter W) :
  next_id (exec (WritePage_page x y) p) = next_id p + 1.
Proof.
  apply next_id_app with (offs := [offset p]), objects_WritePage_page.
Qed.

Lemma next_id_WriteJPEGPage_page (x y : Length) (p : PDFWriter W) :
  next_id (exec (WriteJPEGPage_page x y) p) = next_id p + 1.
Proof.
  apply next_id_app with (offs := [offset p]), objects_WriteJPEGPage_page.
Qed.

Lemma next_id_after_all (ops : list Op) :
  forall p : PDFWriter W, next_id (after_all ops p) = next_id p + ops_objects ops.
Proof.
  induction ops as [|o ops IH]; intro p; cbn [after_all fold_left ops_objects fold_right].
  - lia.
  - fold (after_all ops (after o p)). rewrite IH, next_id_after.
    fold (ops_objects ops). lia.
Qed.

End PageParts.

Section Layout.

Context {W : Type} `{Writer W}.

Lemma exact_step (p q p' : PDFWriter (Traced W)) (B : list byte) :
  exact_until p p' -> emits p q B -> extends q p' ->
  exact_until q p' /\ accepted q = accepted p ++ B /\ offset q = offset p + len B.
Proof.
  intros (Hok & Hlen & Hoff) He Hx.
  pose proof (extends_all_ok _ _ Hx Hok) as Hokq.
  pose proof (extends_len _ _ Hx) as Hlenq.
  destruct (emits_exact p q B He Hokq ltac:(lia) Hoff) as (Hacc & Ho & Hq).
  split; [|split; assumption].
  split; [exact Hok|]. split; [exact Hlen|exact Hq].
Qed.

Lemma extends_set_pages (p : PDFWriter (Traced W)) (l : list PDFID) :
  extends p (set_pages p l).
Proof. exists []. cbn [w set_pages]. symmetry. apply app_nil_r. Qed.

(** Where an operation puts its objects. *)
Lemma objects_after_exact (o : Op) (p : PDFWriter (Traced W)) :
  exact_until p (after o p) ->
  objects (after o p) = objects p ++ op_offsets o (next_id p) (offset p).
Proof.
  intros Hex.
  destruct o as [title mtime|x y data|img data]; cbn [after op_offsets] in *.
  - apply objects_WriteInfo.
  - unfold after_WritePage in *.
    set (l := pages p ++ [next_id p]) in *. clearbody l.
    cbn [objects set_pages].
    rewrite exec_WritePage_objs in *.
    set (q := exec (WritePage_page x y) p) in *.
    assert (Hq : objects q = objects p ++ [offset p])
      by apply objects_WritePage_page.
    assert (He : emits p q (page_obj_text (next_id p) x y))
      by apply emits_WritePage_page.
    clearbody q.
    rewrite objects_writeStreamObject, Hq, <- app_assoc. cbn [app].
    destruct (exact_step p q _ _ Hex He) as (_ & _ & Ho).
    { eapply extends_trans; [|apply extends_set_pages].
      exact (emits_extends _ _ _ (emits_writeStreamObject data q)). }
    rewrite Ho. reflexivity.
  - unfold after_WriteJPEGPage in *.
    set (l := pages p ++ [next_id p]) in *. clearbody l.
    set (x := points (Dx (Bounds img))) in *.
    set (y := points (Dy (Bounds img))) in *.
    set (wd := Dx (Bounds img)) in *. set (h := Dy (Bounds img)) in *.
    clearbody x y wd h.
    cbn [objects set_pages]. cbv zeta.
    rewrite exec_WriteJPEGPage_objs in *.
    set (q := exec (WriteJPEGPage_page x y) p) in *.
    assert (Hq : objects q = objects p ++ [offset p])
      by apply objects_WriteJPEGPage_page.
    assert (Hn : next_id q = next_id p + 1)
      by exact (next_id_WriteJPEGPage_page x y p).
    assert (He : emits p q (jpeg_page_obj_text (next_id p) x y))
      by apply emits_WriteJPEGPage_page.
    clearbody q.
    pose proof (emits_writeStreamObject (JPEGPage_content x y) q) as He2.
    assert (Hq2 : objects (exec (writeStreamObject (JPEGPage_content x y)) q) =
                  objects q ++ [offset q]) by apply objects_writeStreamObject.
    set (q2 := exec (writeStreamObject (JPEGPage_content x y)) q) in *.
    clearbody q2.
    pose proof (emits_writeImage wd h data q2) as He3.
    rewrite objects_writeImage, Hq2, Hq, <- !app_assoc. cbn [app].
    assert (Hx2 : extends q2 (set_pages (exec (writeImage wd h data) q2) l)).
    { eapply extends_trans; [|apply extends_set_pages].
      exact (emits_extends _ _ _ He3). }
    destruct (exact_step p q _ _ Hex He) as (Hexq & _ & Ho).
    { eapply extends_trans; [exact (emits_extends _ _ _ He2)|exact Hx2]. }
    destruct (exact_step q q2 _ _ Hexq He2 Hx2) as (_ & _ & Ho2).
    rewrite Ho2, Ho, Hn. reflexivity.
Qed.

(** Where a sequence of operations puts its objects, and what it writes. *)
Lemma layout_after_all (ops : list Op) :
  forall p : PDFWriter (Traced W),
    exact_until p (after_all ops p) ->
    objects (after_all ops p) =
      objects p ++ ops_offsets ops (next_id p) (offset p) /\
    accepted (after_all ops p) = accepted p ++ ops_text ops (next_id p) /\
    offset (after_all ops p) = offset p + len (ops_text ops (next_id p)) /\
    offset (after_all ops p) = len (accepted (after_all ops p)).
Proof.
  induction ops as [|o ops IH]; intros p Hex.
  - cbn [after_all fold_left ops_offsets ops_text].
    rewrite !app_nil_r. change (len (@nil byte)) with 0.
    destruct Hex as (_ & _ & Hoff).
    repeat split; try reflexivity; lia.
  - change (after_all (o :: ops) p) with (after_all ops (after o p)) in *.
    cbn [ops_offsets ops_text].
    destruct (exact_step p (after o p) _ _ Hex (emits_after o p)
                (extends_after_all ops (after o p))) as (Hexq & Hacc & Ho).
    destruct (IH (after o p) Hexq) as (Hobj & Hacc' & Ho' & Hlast).
    assert (Hexo : exact_until p (after o p)).
    { destruct Hex as (Hok & Hlen & Hoff).
      pose proof (extends_after_all ops (after o p)) as Hx.
      split; [exact (extends_all_ok _ _ Hx Hok)|].
      split; [pose proof (extends_len _ _ Hx); lia|exact Hoff]. }
    rewrite (objects_after_exact o p Hexo) in Hobj.
    rewrite next_id_after, Ho in Hobj, Ho'. rewrite next_id_after in Hacc'.
    rewrite Hacc in Hacc'.
    rewrite Hobj, Hacc', Ho', len_app, <- !app_assoc.
    repeat split; try reflexivity; try lia.
    rewrite <- Ho', Hlast, Hacc', <- app_assoc. reflexivity.
Qed.

End Layout.

Section LayoutOfFlush.

Context {W : Type} `{Writer W}.

Lemma next_id_after_pages (p : PDFWriter W) :
  next_id (after_pages p) = next_id p + 1.
Proof.
  apply next_id_app with (offs := [offset p]), objects_Flush_pages.
Qed.

End LayoutOfFlush.

Section ExactFlush.

Context {W : Type} `{Writer W}.

(** What [Flush] writes and where, without a failed write. *)
Lemma Flush_exact (q : PDFWriter (Traced W)) :
  exact_until q (exec Flush q) ->
  objects (exec Flush q) =
    objects q ++
    [offset q; offset q + len (pages_obj_text (next_id q) (pages q))] /\
  accepted (exec Flush q) =
    accepted q ++
    pages_obj_text (next_id q) (pages q) ++
    catalog_text (next_id q + 1) (next_id q) ++
    xref_text (objects (exec Flush q)) ++
    trailer_text (len (objects (exec Flush q)) + 1) (infoId q) (next_id q + 1)
      (offset q + len (pages_obj_text (next_id q) (pages q)) +
       len (catalog_text (next_id q + 1) (next_id q))).
Proof.
  intros Hex. pose proof Hex as (Hok & Hlen & Hoff).
  pose proof (objects_Flush q Hok) as Hobj.
  destruct (emits_ok _ _ _ (emits_Flush q) Hok) as (_ & Hacc & _ & _).
  unfold Flush_text in Hacc. rewrite <- Hobj in Hacc.
  rewrite objects_after_catalog in Hobj.
  pose proof (emits_Flush_pages q) as Hp. fold (after_pages q) in Hp.
  pose proof (emits_Flush_catalog (next_id q) (after_pages q)) as Hc.
  fold (after_catalog q) in Hc. rewrite next_id_after_pages in Hc.
  pose proof (emits_Flush_xref (after_catalog q)) as Hx.
  fold (after_xref q) in Hx.
  pose proof (emits_Flush_trailer (next_id q + 1) (offset (after_catalog q))
                (after_xref q)) as Ht.
  assert (Hfin : extends (after_xref q) (exec Flush q)).
  { rewrite exec_Flush, (Flush_ran q Hok). exact (emits_extends _ _ _ Ht). }
  assert (Hxc : extends (after_catalog q) (exec Flush q)).
  { eapply extends_trans; [exact (emits_extends _ _ _ Hx)|exact Hfin]. }
  assert (Hxp : extends (after_pages q) (exec Flush q)).
  { eapply extends_trans; [exact (emits_extends _ _ _ Hc)|exact Hxc]. }
  destruct (exact_step _ _ _ _ Hex Hp Hxp) as (Hexp & _ & Hop).
  destruct (exact_step _ _ _ _ Hexp Hc Hxc) as (_ & _ & Hoc).
  rewrite Hop in Hobj, Hoc. rewrite Hoc in Hacc.
  split; [exact Hobj|exact Hacc].
Qed.

Lemma exact_NewPDFWriter (snk : W) (p' : PDFWriter (Traced W)) :
  extends (fst (NewPDFWriter (trace snk))) p' ->
  all_ok (log (w p')) = true ->
  len (accepted p') < 2 ^ 63 ->
  exact_until (fst (NewPDFWriter (trace snk))) p' /\
  accepted (fst (NewPDFWriter (trace snk))) = line "%PDF-1.3" /\
  offset (fst (NewPDFWriter (trace snk))) = 9 /\
  objects (fst (NewPDFWriter (trace snk))) = [].
Proof.
  intros Hx Hok Hlen.
  assert (Hb : exact_until (blank snk) p').
  { split; [exact Hok|]. split; [exact Hlen|reflexivity]. }
  destruct (exact_step _ _ _ _ Hb (emits_NewPDFWriter snk) Hx)
    as (Hex & Hacc & Hoff).
  split; [exact Hex|]. split; [exact Hacc|]. split; [exact Hoff|].
  unfold NewPDFWriter. cbn [fst]. rewrite objects_print. reflexivity.
Qed.

(** A document written without a failed write is the document that the
    operations alone determine, and so is its object table. *)
Lemma document_exact (snk : W) (ops : list Op) :
  let p := finished (trace snk) ops in
  all_ok (log (w p)) = true ->
  len (accepted p) < 2 ^ 63 ->
  accepted p = pdf_document ops /\ objects p = pdf_objects ops.
Proof.
  intros p Hok Hlen. subst p. unfold finished in *.
  set (p0 := fst (NewPDFWriter (trace snk))) in *.
  set (q := after_all ops p0) in *.
  assert (Hxq : extends q (exec Flush q))
    by exact (emits_extends _ _ _ (emits_Flush q)).
  assert (Hx0 : extends p0 q) by apply extends_after_all.
  destruct (exact_NewPDFWriter snk (exec Flush q)
              (extends_trans _ _ _ Hx0 Hxq) Hok Hlen)
    as (Hex0 & Hacc0 & Hoff0 & Hobj0).
  fold p0 in Hex0, Hacc0, Hoff0, Hobj0.
  assert (Hn0 : next_id p0 = 1) by apply next_id_NewPDFWriter.
  assert (Hex0q : exact_until p0 q).
  { destruct Hex0 as (_ & _ & Ho).
    split; [exact (extends_all_ok _ _ Hxq Hok)|].
    split; [pose proof (extends_len _ _ Hxq); lia|exact Ho]. }
  destruct (layout_after_all ops p0 Hex0q) as (Hobj & Hacc & Hoff & Hlast).
  fold q in Hobj, Hacc, Hoff, Hlast.
  rewrite Hn0, Hoff0 in Hobj, Hoff. rewrite Hn0, Hacc0 in Hacc.
  rewrite Hobj0 in Hobj. cbn [app] in Hobj.
  assert (Hexq : exact_until q (exec Flush q)).
  { split; [exact Hok|]. split; [exact Hlen|exact Hlast]. }
  destruct (Flush_exact q Hexq) as (HobjF & HaccF).
  assert (Hnq : next_id q = 1 + ops_objects ops).
  { unfold q. rewrite next_id_after_all, Hn0. reflexivity. }
  assert (Hpg : pages q = ops_pages ops 1).
  { unfold q. rewrite pages_after_all, Hn0. unfold p0, NewPDFWriter.
    cbn [fst]. rewrite pages_print. reflexivity. }
  assert (Hinf : infoId q = ops_infoId ops 1 0).
  { unfold q. rewrite infoId_after_all, Hn0. unfold p0, NewPDFWriter.
    cbn [fst]. rewrite infoId_print. reflexivity. }
  assert (Hbody : offset q = len (body_text ops)).
  { rewrite Hoff. unfold body_text. rewrite len_app. reflexivity. }
  rewrite Hnq, Hpg, Hbody in HobjF. rewrite Hnq, Hpg, Hinf, Hbody in HaccF.
  fold (pdf_pages_text ops) in HobjF, HaccF.
  fold (pdf_catalog_text ops) in HaccF.
  fold (pdf_xref_offset ops) in HaccF.
  rewrite Hobj in HobjF. fold (pdf_objects ops) in HobjF.
  rewrite HobjF, Hacc in HaccF.
  fold (body_text ops) in HaccF.
  split; [exact HaccF|exact HobjF].
Qed.

End ExactFlush.

(** ** Objects follow one another *)

Lemma len_obj_header_pos (id : PDFID) (rest : list byte) :
  0 < len (obj_header id ++ rest).
Proof.
  unfold obj_header, obj_line. rewrite !len_app, !len_line.
  pose proof (len_nonneg rest). lia.
Qed.

Lemma len_op_text_parts (o : Op) (id : PDFID) (off : Z) :
  Forall (fun a => off <= a < off + len (op_text o id)) (op_offsets o id off) /\
  increasing (op_offsets o id off).
Proof.
  destruct o as [title mtime|x y data|img data]; cbn [op_text op_offsets increasing].
  - pose proof (len_obj_header_pos id
      (line ("/Title (" ++ title ++ ")") ++
       line ("/CreationDate (D:" ++ Format_20060102150405 mtime ++ ")") ++
       line ("/ModDate (D:" ++ Format_20060102150405 mtime ++ ")") ++
       line "/Producer (mvztopdf 1.0)" ++ obj_end)) as Hpos.
    fold (info_obj_text id title mtime) in Hpos.
    repeat constructor; lia.
  - unfold WritePage_text. rewrite len_app.
    assert (Ha : 0 < len (page_obj_text id x y))
      by (unfold page_obj_text; apply len_obj_header_pos).
    assert (Hb : 0 < len (stream_obj_text (id + 1) data))
      by (unfold stream_obj_text; apply len_obj_header_pos).
    repeat constructor; lia.
  - unfold WriteJPEGPage_text. cbv zeta. rewrite !len_app.
    set (x := points (Dx (Bounds img))). set (y := points (Dy (Bounds img))).
    assert (Ha : 0 < len (jpeg_page_obj_text id x y))
      by (unfold jpeg_page_obj_text; apply len_obj_header_pos).
    assert (Hb : 0 < len (stream_obj_text (id + 1) (JPEGPage_content x y)))
      by (unfold stream_obj_text; apply len_obj_header_pos).
    assert (Hc : 0 < len (image_obj_text (id + 2) (Dx (Bounds img))
                                         (Dy (Bounds img)) data))
      by (unfold image_obj_text; apply len_obj_header_pos).
    repeat constructor; lia.
Qed.

Lemma increasing_app (l1 l2 : list Z) :
  increasing l1 -> increasing l2 ->
  (forall a b, In a l1 -> In b l2 -> a < b) ->
  increasing (l1 ++ l2).
Proof.
  induction l1 as [|a l1 IH]; intros H1 H2 Hlt; cbn [app increasing].
  - exact H2.
  - destruct H1 as (Ha & H1). split.
    + apply Forall_app. split; [exact Ha|].
      apply Forall_forall. intros b Hb. apply Hlt; [left; reflexivity|exact Hb].
    + apply IH; [exact H1|exact H2|].
      intros a' b Ha' Hb. apply Hlt; [right; exact Ha'|exact Hb].
Qed.

Lemma increasing_nth (l : list Z) :
  increasing l ->
  forall (i j : nat) (a b : Z),
    nth_error l i = Some a -> nth_error l j = Some b -> (i < j)%nat -> a < b.
Proof.
  induction l as [|c l IH]; intros Hinc i j a b Hi Hj Hij.
  - destruct i; discriminate.
  - destruct Hinc as (Hc & Hinc). destruct j as [|j]; [lia|].
    cbn [nth_error] in Hj. destruct i as [|i].
    + cbn [nth_error] in Hi. injection Hi as <-.
      rewrite Forall_forall in Hc. apply Hc. eapply nth_error_In. exact Hj.
    + cbn [nth_error] in Hi. apply (IH Hinc i j); [exact Hi|exact Hj|lia].
Qed.

Lemma ops_offsets_increasing (ops : list Op) :
  forall (id : PDFID) (off : Z),
    Forall (fun a => off <= a < off + len (ops_text ops id)) (ops_offsets ops id off) /\
    increasing (ops_offsets ops id off).
Proof.
  induction ops as [|o ops IH]; intros id off; cbn [ops_offsets ops_text].
  - split; constructor.
  - destruct (len_op_text_parts o id off) as (Hb1 & Hi1).
    destruct (IH (id + op_objects o) (off + len (op_text o id))) as (Hb2 & Hi2).
    rewrite len_app. rewrite Forall_forall in Hb1, Hb2.
    pose proof (len_nonneg (ops_text ops (id + op_objects o))).
    pose proof (len_nonneg (op_text o id)).
    split.
    + apply Forall_app. split; apply Forall_forall; intros a Ha.
      * specialize (Hb1 a Ha). cbv beta in Hb1. lia.
      * specialize (Hb2 a Ha). cbv beta in Hb2. lia.
    + apply increasing_app; [exact Hi1|exact Hi2|].
      intros a b Ha Hb. specialize (Hb1 a Ha). specialize (Hb2 b Hb).
      cbv beta in Hb1, Hb2. lia.
Qed.

Lemma pdf_objects_increasing (ops : list Op) :
  increasing (pdf_objects ops) /\ Forall (fun a => 9 <= a) (pdf_objects ops).
Proof.
  unfold pdf_objects.
  destruct (ops_offsets_increasing ops 1 9) as (Hb & Hi).
  assert (Hbody : len (body_text ops) = 9 + len (ops_text ops 1)).
  { unfold body_text. rewrite len_app. reflexivity. }
  assert (Hp : 0 < len (pdf_pages_text ops))
    by (unfold pdf_pages_text, pages_obj_text; apply len_obj_header_pos).
  pose proof (len_nonneg (ops_text ops 1)).
  rewrite Forall_forall in Hb.
  split.
  - apply increasing_app; [exact Hi| |].
    + cbn [increasing]. repeat constructor. lia.
    + intros a b Ha Hb'. specialize (Hb a Ha). cbv beta in Hb.
      destruct Hb' as [<-|[<-|[]]]; lia.
  - apply Forall_app. split.
    + apply Forall_forall. intros a Ha. specialize (Hb a Ha). cbv beta in Hb. lia.
    + repeat constructor; lia.
Qed.

Lemma last_err_last (evs : list event) (e : error) :
  evs <> [] ->
  exists evs' ev, evs = evs' ++ [ev] /\ last_err evs e = ev_err ev.
Proof.
  intros Hne. destruct (exists_last Hne) as (evs' & ev & ->).
  exists evs', ev. split; [reflexivity|].
  rewrite last_err_app. reflexivity.
Qed.

Lemma ops_objects_nonneg (ops : list Op) : 0 <= ops_objects ops.
Proof.
  induction ops as [|o ops IH]; cbn [ops_objects fold_right]; [lia|].
  fold (ops_objects ops). destruct o; cbn [op_objects]; lia.
Qed.

Lemma ops_pages_increasing (ops : list Op) :
  forall id : PDFID,
    Forall (fun a => id <= a /\ a + 1 < id + ops_objects ops) (ops_pages ops id) /\
    increasing (ops_pages ops id).
Proof.
  induction ops as [|o ops IH]; intro id;
    cbn [ops_pages ops_objects fold_right].
  - split; constructor.
  - fold (ops_objects ops).
    destruct (IH (id + op_objects o)) as (Hb & Hi).
    pose proof (ops_objects_nonneg ops) as Hn.
    rewrite Forall_forall in Hb.
    assert (Hrest : Forall (fun a => id <= a /\ a + 1 < id + (op_objects o + ops_objects ops))
                           (ops_pages ops (id + op_objects o))).
    { apply Forall_forall. intros a Ha. specialize (Hb a Ha). cbv beta in Hb.
      destruct o; cbn [op_objects] in *; lia. }
    destruct o as [title mtime|x y data|img data]; cbn [op_pages op_objects app] in *.
    + split; [exact Hrest|exact Hi].
    + split.
      * constructor; [lia|exact Hrest].
      * cbn [increasing]. split; [|exact Hi].
        apply Forall_forall. intros a Ha. specialize (Hb a Ha). cbv beta in Hb. lia.
    + split.
      * constructor; [lia|exact Hrest].
      * cbn [increasing]. split; [|exact Hi].
        apply Forall_forall. intros a Ha. specialize (Hb a Ha). cbv beta in Hb. lia.
Qed.

Lemma len_ops_offsets (ops : list Op) :
  forall (id : PDFID) (off : Z), len (ops_offsets ops id off) = ops_objects ops.
Proof.
  induction ops as [|o ops IH]; intros id off;
    cbn [ops_offsets ops_objects fold_right].
  - reflexivity.
  - fold (ops_objects ops). rewrite len_app, IH.
    destruct o; reflexivity.
Qed.

Lemma len_pdf_objects (ops : list Op) :
  len (pdf_objects ops) = ops_objects ops + 2.
Proof.
  unfold pdf_objects. rewrite len_app, len_ops_offsets. reflexivity.
Qed.

Section TablesGrow.

Context {W : Type} `{Writer W}.

Lemma objects_after (o : Op) (p : PDFWriter W) :
  exists offs, objects (after o p) = objects p ++ offs /\ len offs = op_objects o.
Proof.
  destruct o as [title mtime|x y data|img data]; cbn [after op_objects].
  - exists [offset p]. split; [apply objects_WriteInfo|reflexivity].
  - unfold after_WritePage. cbn [objects set_pages].
    rewrite exec_WritePage_objs, objects_writeStreamObject, objects_WritePage_page.
    rewrite <- app_assoc. eexists. split; [reflexivity|reflexivity].
  - unfold after_WriteJPEGPage. cbn [objects set_pages].
    rewrite objects_writeImage, exec_WriteJPEGPage_objs,
      objects_writeStreamObject, objects_WriteJPEGPage_page.
    rewrite <- !app_assoc. eexists. split; [reflexivity|reflexivity].
Qed.

Lemma pages_exec_Flush (p : PDFWriter W) : pages (exec Flush p) = pages p.
Proof.
  rewrite exec_Flush. destruct (isNil (err (after_pages p))).
  - unfold after_xref, after_catalog, after_pages.
    rewrite pages_Flush_trailer, pages_Flush_xref, pages_Flush_catalog.
    apply pages_Flush_pages.
  - apply pages_Flush_pages.
Qed.

Lemma infoId_exec_Flush (p : PDFWriter W) : infoId (exec Flush p) = infoId p.
Proof.
  rewrite exec_Flush. destruct (isNil (err (after_pages p))).
  - unfold after_xref, after_catalog, after_pages.
    rewrite infoId_Flush_trailer, infoId_Flush_xref, infoId_Flush_catalog.
    apply infoId_Flush_pages.
  - apply infoId_Flush_pages.
Qed.

Lemma objects_exec_Flush (p : PDFWriter W) :
  objects (exec Flush p) =
  objects p ++
  (if isNil (err (after_pages p))
   then [offset p; offset (after_pages p)]
   else [offset p]).
Proof.
  rewrite exec_Flush. destruct (isNil (err (after_pages p))).
  - unfold after_xref. rewrite objects_Flush_trailer, objects_Flush_xref.
    apply objects_after_catalog.
  - apply objects_Flush_pages.
Qed.

End TablesGrow.

Section WritesOfCalls.

Context {W : Type} `{Writer W}.

Lemma written_extends (p p' : PDFWriter (Traced W)) (evs : list event) :
  log (w p') = log (w p) ++ evs -> written p p' = evs.
Proof.
  intros Hlog. unfold written.
  rewrite Hlog, skipn_app, skipn_all, Nat.sub_diag. reflexivity.
Qed.

Lemma written_trans (p p' p'' : PDFWriter (Traced W)) (B B' : list byte) :
  emits p p' B -> emits p' p'' B' ->
  written p p'' = written p p' ++ written p' p''.
Proof.
  intros (e1 & c1 & H1 & _) (e2 & c2 & H2 & _).
  rewrite (written_extends p p' e1 H1), (written_extends p' p'' e2 H2).
  apply written_extends. rewrite H2, H1, app_assoc. reflexivity.
Qed.

End WritesOfCalls.

Section IntObj.

Context {W : Type} `{Writer W}.

Lemma eval_intObj (n : Z) (p : PDFWriter W) :
  eval (intObj n) p = (next_id p, err (exec (intObj n) p)).
Proof.
  unfold intObj, next_id. mnorm. rewrite len_app. reflexivity.
Qed.

Lemma objects_intObj (n : Z) (p : PDFWriter W) :
  objects (exec (intObj n) p) = objects p ++ [offset p].
Proof. unfold intObj. mnorm. reflexivity. Qed.

Lemma pages_intObj (n : Z) (p : PDFWriter W) :
  pages (exec (intObj n) p) = pages p.
Proof. unfold intObj. mnorm. reflexivity. Qed.

Lemma infoId_intObj (n : Z) (p : PDFWriter W) :
  infoId (exec (intObj n) p) = infoId p.
Proof. unfold intObj. mnorm. reflexivity. Qed.

End IntObj.

Section TextOfIntObj.

Context {W : Type} `{Writer W}.

Lemma emits_intObj (n : Z) (p : PDFWriter (Traced W)) :
  emits p (exec (intObj n) p)
        (line (fmt_d (next_id p) ++ " 0 obj") ++ line (fmt_d n) ++ line "endobj").
Proof.
  unfold intObj.
  emits_step emits_base. emits_step emits_base.
  rewrite eval_gets, exec_modify. cbn [objects set_objects].
  rewrite len_app. change (len [offset p]) with 1. fold (next_id p).
  emits_step emits_base. emits_step emits_base. emits_step emits_base.
Qed.

End TextOfIntObj.

Lemma len_head_pdf_document (ops : list Op) :
  len (body_text ops ++ pdf_pages_text ops ++ pdf_catalog_text ops) =
  pdf_xref_offset ops.
Proof. unfold pdf_xref_offset. rewrite !len_app. lia. Qed.

Lemma bytes_app (a b : string) : bytes (a ++ b) = bytes a ++ bytes b.
Proof.
  unfold bytes, list_byte_of_string.
  induction a as [|c a IH]; cbn [append list_ascii_of_string map app];
    [reflexivity|]. f_equal. exact IH.
Qed.

(* ================================================================== *)
(** * The properties of the specification *)

(** ** The object table and the cross-reference entries *)

(** C1.  In a document during which no write to the sink failed (and whose
    output fits in an [int]), [Flush] returns no error, the offset recorded
    in the object table for object [k] is exactly the position in the output
    where the line "k 0 obj" begins, and the cross-reference section of the
    output is the one built from that very table, so the ten digits of
    entry [k] read as that position.  ([p] is the writer on the recording sink; on the sink itself
    the document ends with the same tables.) *)
Theorem C1_object_offsets_exact {W} `{Writer W} (snk : W) (ops : list Op) :
  let p := finished (trace snk) ops in
  all_ok (log (w p)) = true ->
  len (accepted p) < 2 ^ 63 ->
  document snk ops = Ok (None, untrace p) /\
  document (trace snk) ops = Ok (None, p) /\
  (exists head tail, accepted p = head ++ xref_text (objects p) ++ tail) /\
  (forall (k : nat) (off : Z),
     nth_error (objects p) k = Some off ->
     exists pre post,
       accepted p = pre ++ obj_line (Z.of_nat k + 1) ++ post /\
       off = len pre /\
       read_d (fmt_0d 10 off) = len pre).
Proof.
  intros p Hall Hlen. subst p.
  destruct (accepted_finished snk ops Hall) as (Hacc & Herr).
  split; [|split; [|split]].
  - rewrite document_untrace, Herr. reflexivity.
  - rewrite document_Ok, Herr. reflexivity.
  - apply (xref_in_output snk ops Hall).
  - intros k off Hk.
    destruct (Inv_finished snk ops Hall) as (_ & Hh).
    destruct (Hh k off Hk) as (pre & post & Hout & Hoff).
    exists pre, post. split; [exact Hout|].
    assert (Hpre : off = len pre).
    { rewrite Hoff. apply wrap_small.
      rewrite Hout, len_app in Hlen.
      pose proof (len_nonneg pre).
      pose proof (len_nonneg (obj_line (Z.of_nat k + 1) ++ post)).
      lia. }
    split; [exact Hpre|].
    rewrite Hpre. apply read_fmt_0d, len_nonneg.
Qed.

(** C1 on a sample document written to a [bytes.Buffer]. *)
Lemma C1_object_offsets_exact_witness :
  let p := finished (trace (mkBuffer [])) sample_ops in
  all_ok (log (w p)) = true /\
  len (accepted p) < 2 ^ 63 /\
  objects p = [9; 127; 235; 291; 440; 527; 717; 782] /\
  (forall (k : nat) (off : Z),
     nth_error (objects p) k = Some off ->
     exists pre post,
       accepted p = pre ++ obj_line (Z.of_nat k + 1) ++ post /\
       off = len pre /\
       read_d (fmt_0d 10 off) = len pre).
Proof.
  split; [vm_compute; reflexivity|].
  split; [vm_compute; reflexivity|].
  split; [vm_compute; reflexivity|].
  apply (C1_object_offsets_exact (mkBuffer []) sample_ops);
    vm_compute; reflexivity.
Defined.

(** ** Errors of the sink *)

(** C2.  The writer means to keep the first error: it has the field [err],
    every public method returns it, and [Flush] and the checks of the page
    operations test it.  But [print], [printf] and [writeStream] store in
    [err] the answer to each new write, so a write that succeeds wipes out
    the failure before it, and no operation holds back its writes.  On a
    sink with a largest write of 64 bytes the payload of a page (100
    bytes) is refused and the writes after it are served: [WritePage]
    itself returns no error, [Flush] is not a no-op (the sink serves 60
    more writes) and returns no error either. *)
Lemma C2_failure_is_forgotten :
  let p := fst (NewPDFWriter (trace (mkPacket [] 64))) in
  let data := repeat "A"%byte 100 in
  exists q,
    WritePage 612%float 792%float data p = Ok ((1, None), q) /\
    existsb (failed_with "message too long") (written p q) = true /\
    returned CallFlush q = Ok None /\
    List.length (written q (after_call CallFlush q)) = 60%nat.
Proof.
  eexists. split; [vm_compute; reflexivity|].
  split; [vm_compute; reflexivity|].
  split; vm_compute; reflexivity.
Qed.

(** ** The cursor *)

(** C3, as the code has it.  For a sink that keeps the contract of
    [io.Writer] ([0 <= n <= len(p)] for every write) and while the count
    fits in an [int]: the constructor and every later call leave the cursor
    no smaller than it was and no smaller than the number of bytes the sink
    has accepted; and the two are equal as long as no write failed or came
    up short. *)
Theorem C3_cursor_monotone_and_covers_output {W} `{Writer W} :
  (forall snk : W,
      let p := fst (NewPDFWriter (trace snk)) in
      conforming (log (w p)) = true ->
      0 <= offset p /\
      len (accepted p) <= offset p /\
      (all_ok (log (w p)) = true -> offset p = len (accepted p))) /\
  (forall (c : Call) (p : PDFWriter (Traced W)),
      let p' := after_call c p in
      conforming (written p p') = true ->
      - 2 ^ 63 <= offset p ->
      offset p + requested (written p p') < 2 ^ 63 ->
      offset p <= offset p' /\
      (len (accepted p) <= offset p -> len (accepted p') <= offset p') /\
      (all_ok (written p p') = true ->
       offset p = len (accepted p) -> offset p' = len (accepted p'))).
Proof.
  split.
  - intros snk p Hconf.
    pose proof (emits_NewPDFWriter snk) as Hem. fold p in Hem.
    assert (Hw : written (blank snk) p = log (w p)).
    { unfold written. cbn. reflexivity. }
    destruct (emits_written _ _ _ Hem) as (c & Hlog & _ & _ & Hoff & Hc & _).
    rewrite Hw in Hc. specialize (Hc Hconf).
    pose proof (conforming_bounds _ Hconf) as Hb.
    cbn [offset blank] in Hoff.
    assert (Hsmall : requested (log (w p)) <= 9).
    { destruct (emits_written _ _ _ Hem) as (c' & Hlog' & _).
      clear - Hlog'. subst p. revert Hlog'.
      unfold NewPDFWriter, exec, print, WriteString. cbv zeta. cbn [fst snd].
      rewrite Write_traced. cbn [fst snd set_w set_offset w].
      destruct (snd (snd (Write (inner (trace snk)) (bytes "%PDF-1.3")))).
      - intros _. cbn. lia.
      - rewrite Write_traced. intros _. cbn. lia. }
    rewrite wrap_small in Hoff by lia.
    fold (accepted p) in Hb, Hc.
    split; [lia|]. split; [lia|].
    intros Hall. pose proof (all_ok_requested _ Hall) as Hr.
    fold (accepted p) in Hr. lia.
  - intros c p p'. apply (cursor_step p p' (call_text c p)), emits_after_call.
Qed.

(** C3 on a sink with room for 8 bytes: its writes fail, within the
    contract. *)
Lemma C3_cursor_monotone_and_covers_output_witness :
  let p := fst (NewPDFWriter (trace (mkQuota [] 8))) in
  let p' := after_call CallFlush p in
  (conforming (log (w p)) = true /\
   len (accepted p) <= offset p) /\
  (conforming (written p p') = true /\
   - 2 ^ 63 <= offset p /\
   offset p + requested (written p p') < 2 ^ 63 /\
   offset p <= offset p').
Proof.
  destruct (@C3_cursor_monotone_and_covers_output Quota _) as (Hnew & Hcall).
  split.
  - split; [vm_compute; reflexivity|].
    apply (Hnew (mkQuota [] 8)). vm_compute. reflexivity.
  - split; [vm_compute; reflexivity|].
    split; [vm_compute; discriminate|].
    split; [vm_compute; reflexivity|].
    apply (Hcall CallFlush (fst (NewPDFWriter (trace (mkQuota [] 8))))).
    + vm_compute. reflexivity.
    + vm_compute. discriminate.
    + vm_compute. reflexivity.
Defined.

(** C3 as stated fails.  A sink with room for 8 bytes takes the 8 bytes of
    the header and refuses the newline after it; [print] counts the newline
    all the same, so after [NewPDFWriter] the cursor is 9 and the sink has
    accepted 8 bytes. *)
Lemma C3_cursor_ahead_of_sink :
  let p := fst (NewPDFWriter (trace (mkQuota [] 8))) in
  conforming (log (w p)) = true /\
  offset p = 9 /\
  len (accepted p) = 8 /\
  stored (inner (w p)) = bytes "%PDF-1.3".
Proof.
  split; [vm_compute; reflexivity|].
  split; [vm_compute; reflexivity|].
  split; vm_compute; reflexivity.
Qed.

(** ** The cross-reference section *)

(** C4.  What [Flush] emits as cross-reference section in a document
    without a failed write: the keyword [xref], the header [0 n] with [n]
    one more than the number of objects, the free entry of object 0
    (offset 0, generation 65535, [f]), then one entry per object in the
    order of the object table, each with the recorded offset in ten digits,
    generation [00000] and [n].  Every entry ends in a single newline and
    so takes 19 bytes (for an output below 10^10 bytes), not the 20 bytes
    of the PDF format. *)
Theorem C4_xref_section_has_19_byte_entries {W} `{Writer W}
        (snk : W) (ops : list Op) :
  let p := finished (trace snk) ops in
  all_ok (log (w p)) = true ->
  len (accepted p) < 10 ^ 10 ->
  (exists head tail,
     accepted p =
     head ++
     line "xref" ++
     line ("0 " ++ fmt_d (len (objects p) + 1)) ++
     line "0000000000 65535 f" ++
     flat_map (fun off => line (fmt_0d 10 off ++ " 00000 n")) (objects p) ++
     tail) /\
  len (line "0000000000 65535 f") = 19 /\
  Forall (fun off => len (line (fmt_0d 10 off ++ " 00000 n")) = 19) (objects p).
Proof.
  intros p Hall Hlen.
  destruct (xref_in_output snk ops Hall) as (head & tail & Hout).
  split; [|split].
  - exists head, tail. fold p in Hout. rewrite Hout.
    unfold xref_text, xref_free_entry, xref_entries, xref_entry.
    rewrite <- !app_assoc. reflexivity.
  - reflexivity.
  - assert (Hlen' : len (accepted p) < 2 ^ 63) by lia.
    pose proof (objects_in_output snk ops Hall Hlen') as Hin.
    fold p in Hin. eapply Forall_impl; [|exact Hin].
    intros off Hoff. cbv beta in Hoff. apply len_xref_entry. lia.
Qed.

(** C4 on the document without pages, written to a [bytes.Buffer]. *)
Lemma C4_xref_section_has_19_byte_entries_witness :
  let p := finished (trace (mkBuffer [])) [] in
  all_ok (log (w p)) = true /\
  len (accepted p) < 10 ^ 10 /\
  objects p = [9; 62] /\
  Forall (fun off => len (line (fmt_0d 10 off ++ " 00000 n")) = 19) (objects p).
Proof.
  split; [vm_compute; reflexivity|].
  split; [vm_compute; reflexivity|].
  split; [vm_compute; reflexivity|].
  apply (C4_xref_section_has_19_byte_entries (mkBuffer []) []);
    vm_compute; reflexivity.
Defined.

(** ** Stream objects *)

(** C5.  A stream object written without a failed write, be it a content
    stream ([writeStreamObject]) or an image ([writeImage]), declares as
    [/Length] a decimal number that is the exact number of bytes of the
    payload between the line [stream] and [endstream], and that payload is
    the data handed in. *)
Theorem C5_declared_length_is_payload_length {W} `{Writer W}
        (k : StreamKind) (data : list byte) (p : PDFWriter (Traced W)) :
  let p' := exec (write_stream_object k data) p in
  all_ok (written p p') = true ->
  declares_length (accepted_of (written p p')) data.
Proof.
  intros p' Hall. subst p'. unfold declares_length.
  destruct k as [|wd h]; cbn [write_stream_object] in *.
  - rewrite (written_ok _ _ _ (emits_writeStreamObject data p) Hall).
    exists (obj_header (next_id p)), (nl ++ obj_end), (fmt_d (len data)).
    split; [|apply read_fmt_d, len_nonneg].
    unfold stream_obj_text, stream_text, line. rewrite <- !app_assoc. reflexivity.
  - rewrite (written_ok _ _ _ (emits_writeImage wd h data p) Hall).
    eexists (obj_header (next_id p) ++
             line "/Type /XObject" ++ line "/Subtype /Image" ++ line "/Name /I" ++
             line "/Filter [ /DCTDecode ]" ++ line ("/Width " ++ fmt_d wd) ++
             line ("/Height " ++ fmt_d h) ++ line "/ColorSpace /DeviceRGB" ++
             line "/BitsPerComponent 8"), (nl ++ obj_end), (fmt_d (len data)).
    split; [|apply read_fmt_d, len_nonneg].
    unfold image_obj_text, stream_text, line. rewrite <- !app_assoc. reflexivity.
Qed.

(** C5 for an image written to a [bytes.Buffer]. *)
Lemma C5_declared_length_is_payload_length_witness :
  let p := fst (NewPDFWriter (trace (mkBuffer []))) in
  let p' := exec (write_stream_object (ImageStream 1500 1050) (bytes "JPEGDATA")) p in
  all_ok (written p p') = true /\
  declares_length (accepted_of (written p p')) (bytes "JPEGDATA").
Proof.
  split; [vm_compute; reflexivity|].
  apply (C5_declared_length_is_payload_length
           (ImageStream 1500 1050) (bytes "JPEGDATA")
           (fst (NewPDFWriter (trace (mkBuffer []))))).
  vm_compute. reflexivity.
Defined.

(** ** The page list and the pages tree *)

(** C6, as the code has it.  Each call of [WritePage] or [WriteJPEGPage]
    returns the identifier of its page object and appends it to the page
    list, also when a write to the sink failed during the call; no other
    call touches the list.  So at the end the list holds the identifiers of
    the page calls in call order.  In a document without a failed write the
    pages tree that [Flush] emits lists exactly these identifiers, in this
    order, in [/Kids], and their number as [/Count]; with no page call that
    is [/Kids [ ]] and [/Count 0]. *)
Theorem C6_pages_in_call_order {W} `{Writer W} (snk : W) (ops : list Op) :
  let p := finished (trace snk) ops in
  (forall (x y : Length) (data : list byte) (q : PDFWriter W),
      exists e q',
        WritePage x y data q = Ok ((next_id q, e), q') /\
        pages q' = pages q ++ [next_id q]) /\
  (forall (img : Image) (data : list byte) (q : PDFWriter W),
      exists e q',
        WriteJPEGPage img data q = Ok ((next_id q, e), q') /\
        pages q' = pages q ++ [next_id q]) /\
  (forall (title : string) (mtime : Time) (q : PDFWriter W),
      pages (exec (WriteInfo title mtime) q) = pages q) /\
  pages p = ops_pages ops 1 /\
  kids (pages p) = refs (pages p) /\
  (all_ok (log (w p)) = true ->
   exists head tail,
     accepted p =
     head ++
     line "/Type /Pages" ++
     line ("/Kids [ " ++ kids (pages p) ++ "]") ++
     line ("/Count " ++ fmt_d (len (pages p))) ++
     tail) /\
  (pages p = [] ->
   line ("/Kids [ " ++ kids (pages p) ++ "]") = line "/Kids [ ]" /\
   line ("/Count " ++ fmt_d (len (pages p))) = line "/Count 0").
Proof.
  intros p. repeat split.
  - intros x y data q. rewrite WritePage_Ok. eauto.
  - intros img data q. rewrite WriteJPEGPage_Ok. eauto.
  - intros title mtime q. apply pages_WriteInfo.
  - apply pages_finished.
  - apply kids_refs.
  - apply pages_tree_in_output.
  - rewrite H0. reflexivity.
  - rewrite H0. reflexivity.
Qed.

(** C6 on the sample document: two pages, objects 2 and 4. *)
Lemma C6_pages_in_call_order_witness :
  let p := finished (trace (mkBuffer [])) sample_ops in
  all_ok (log (w p)) = true /\
  pages p = [2; 4] /\
  exists head tail,
    accepted p =
    head ++
    line "/Type /Pages" ++
    line "/Kids [ 2 0 R 4 0 R ]" ++
    line "/Count 2" ++
    tail.
Proof.
  split; [vm_compute; reflexivity|].
  split; [vm_compute; reflexivity|].
  destruct (C6_pages_in_call_order (mkBuffer []) sample_ops)
    as (_ & _ & _ & _ & _ & Hout & _).
  destruct Hout as (head & tail & Hout); [vm_compute; reflexivity|].
  exists head, tail. rewrite Hout. vm_compute. reflexivity.
Defined.

(** C6 as stated fails: on a sink that runs out of room in the middle of
    the page object, [WritePage] returns the error of the sink and has
    appended the identifier of the page all the same. *)
Lemma C6_failed_page_is_listed :
  let p := fst (NewPDFWriter (trace (mkQuota [] 40))) in
  exists q,
    WritePage 612%float 792%float (bytes "BT ET") p =
      Ok ((1, Some "no space left on device"%string), q) /\
    pages p = [] /\
    pages q = [1].
Proof.
  eexists. split; [vm_compute; reflexivity|].
  split; vm_compute; reflexivity.
Qed.

(** ** The trailer and the metadata object *)

(** C7, as the code has it.  The trailer that [Flush] emits always holds an
    [/Info] reference, with the value of [infoId].  [WriteInfo] sets
    [infoId] to the identifier of the metadata object it writes, so after
    a call of [WriteInfo] the reference names the metadata object of the
    last such call; when [WriteInfo] was never called, [infoId] is still 0
    and the trailer reads [/Info 0 0 R]. *)
Theorem C7_trailer_info_reference {W} `{Writer W} (snk : W) (ops : list Op) :
  let p := finished (trace snk) ops in
  (all_ok (log (w p)) = true ->
   exists head tail,
     accepted p = head ++ line ("/Info " ++ fmt_d (infoId p) ++ " 0 R") ++ tail) /\
  (forall (title : string) (mtime : Time) (q : PDFWriter W),
      fst (eval startObj q) = next_id q /\
      infoId (exec (WriteInfo title mtime) q) = next_id q) /\
  (forall ops1 title mtime ops2,
      ops = ops1 ++ OpWriteInfo title mtime :: ops2 ->
      forallb (fun o => negb (is_WriteInfo o)) ops2 = true ->
      infoId p = 1 + ops_objects ops1) /\
  (forallb (fun o => negb (is_WriteInfo o)) ops = true ->
   infoId p = 0 /\
   line ("/Info " ++ fmt_d (infoId p) ++ " 0 R") = line "/Info 0 0 R").
Proof.
  intros p. split; [|split; [|split]].
  - apply info_in_output.
  - intros title mtime q. split; [apply eval_startObj|apply infoId_WriteInfo].
  - intros ops1 title mtime ops2 -> Hno. subst p.
    rewrite infoId_finished, ops_infoId_app. cbn [ops_infoId op_infoId].
    apply ops_infoId_none, Hno.
  - intros Hno. subst p. rewrite infoId_finished, (ops_infoId_none _ _ _ Hno).
    split; reflexivity.
Qed.

(** C7 on the sample document: the metadata object is object 1. *)
Lemma C7_trailer_info_reference_witness :
  let p := finished (trace (mkBuffer [])) sample_ops in
  all_ok (log (w p)) = true /\
  infoId p = 1 /\
  exists head tail, accepted p = head ++ line "/Info 1 0 R" ++ tail.
Proof.
  split; [vm_compute; reflexivity|].
  destruct (C7_trailer_info_reference (mkBuffer []) sample_ops)
    as (Hout & _ & Hlast & _).
  split.
  - apply (Hlast [] "T"%string sample_time
                 [OpWritePage 612%float 792%float (bytes "BT ET");
                  OpWriteJPEGPage sample_image (bytes "JPEGDATA")]);
      reflexivity.
  - destruct Hout as (head & tail & Hout); [vm_compute; reflexivity|].
    exists head, tail. rewrite Hout. vm_compute. reflexivity.
Defined.

(** C7 as stated fails: a document for which [WriteInfo] was never called
    ends in a trailer with an [/Info] reference all the same, to object 0,
    which is no object of the document (the object table has objects 1 and
    2 only). *)
Lemma C7_info_reference_without_metadata :
  let p := finished (trace (mkBuffer [])) [] in
  document (trace (mkBuffer [])) [] = Ok (None, p) /\
  len (objects p) = 2 /\
  accepted p =
  (line "%PDF-1.3" ++ pages_obj_text 1 [] ++ catalog_text 2 1 ++
   xref_text [9; 62] ++ line "trailer" ++ line "<<" ++ line "/Size 3") ++
  line "/Info 0 0 R" ++
  (line "/Root 2 0 R" ++ line "/ID [<deadbeef> <deadbeef>]" ++ line ">>" ++
   line "startxref" ++ line "111" ++ line "%%EOF").
Proof.
  split; [vm_compute; reflexivity|].
  split; vm_compute; reflexivity.
Qed.

(** ** The consistency checks of the page operations *)

(** C8.  In [WritePage] the content stream gets the identifier of the page
    plus 1; in [WriteJPEGPage] the content stream and the image get the
    identifier of the page plus 1 and plus 2.  So neither operation reaches
    a [panic]: each returns, whatever the sink answers. *)
Theorem C8_adjacent_identifiers {W} `{Writer W}
        (x y : Length) (img : Image) (data : list byte) (p : PDFWriter W) :
  let r := eval (WritePage_objs x y data) p in
  let r' := eval (WriteJPEGPage_objs (points (Dx (Bounds img)))
                                     (points (Dy (Bounds img)))) p in
  let p' := exec (WriteJPEGPage_objs (points (Dx (Bounds img)))
                                     (points (Dy (Bounds img)))) p in
  let imgId := fst (eval (writeImage (Dx (Bounds img)) (Dy (Bounds img)) data) p') in
  snd r = fst r + 1 /\
  snd r' = fst r' + 1 /\
  imgId = fst r' + 2 /\
  (exists e q, WritePage x y data p = Ok ((fst r, e), q)) /\
  (exists e q, WriteJPEGPage img data p = Ok ((fst r', e), q)).
Proof.
  cbv zeta. rewrite eval_WritePage_objs, eval_WriteJPEGPage_objs, eval_writeImage.
  rewrite next_id_WriteJPEGPage_objs. cbn [fst snd].
  repeat split.
  - rewrite WritePage_Ok. eauto.
  - rewrite WriteJPEGPage_Ok. eauto.
Qed.

(** ** Image pages *)

(** C9.  [WriteJPEGPage] prints as MediaBox and as CropBox of the page the
    pixel dimensions of the image turned into points at 150 dots per inch,
    [pixels / 150 * 72] in [float64], with two decimals.  For an image of
    1500 by 1050 pixels the line reads [/MediaBox [0 0 720.00 504.00]]. *)
Theorem C9_jpeg_page_box_at_150_dpi {W} `{Writer W}
        (img : Image) (data : list byte) (p : PDFWriter (Traced W)) :
  let x := (Length_of_int (Dx (Bounds img)) / 150 * 72)%float in
  let y := (Length_of_int (Dy (Bounds img)) / 150 * 72)%float in
  let p' := after_WriteJPEGPage img data p in
  all_ok (written p p') = true ->
  WriteJPEGPage img data p = Ok ((next_id p, None), p') /\
  (exists pre post,
     accepted_of (written p p') =
     pre ++
     line ("/MediaBox [0 0 " ++ fmt_2f x ++ " " ++ fmt_2f y ++ "]") ++
     line ("/CropBox [0 0 " ++ fmt_2f x ++ " " ++ fmt_2f y ++ "]") ++
     post) /\
  (Dx (Bounds img) = 1500 -> Dy (Bounds img) = 1050 ->
   line ("/MediaBox [0 0 " ++ fmt_2f x ++ " " ++ fmt_2f y ++ "]") =
   line "/MediaBox [0 0 720.00 504.00]").
Proof.
  intros x y p' Hall. subst p'.
  pose proof (emits_after_WriteJPEGPage img data p) as Hem.
  split; [|split].
  - rewrite WriteJPEGPage_Ok, (written_err_ok _ _ _ Hem Hall). reflexivity.
  - rewrite (written_ok _ _ _ Hem Hall).
    unfold WriteJPEGPage_text, jpeg_page_obj_text.
    change (points (Dx (Bounds img))) with x.
    change (points (Dy (Bounds img))) with y.
    exists (obj_header (next_id p) ++ line "/Type /Page"). eexists.
    rewrite <- !app_assoc. reflexivity.
  - intros Hx Hy. subst x y. rewrite Hx, Hy. vm_compute. reflexivity.
Qed.

(** C9 for an image of 1500 by 1050 pixels. *)
Lemma C9_jpeg_page_box_at_150_dpi_witness :
  let p := fst (NewPDFWriter (trace (mkBuffer []))) in
  let p' := after_WriteJPEGPage sample_image (bytes "JPEGDATA") p in
  all_ok (written p p') = true /\
  Dx (Bounds sample_image) = 1500 /\
  Dy (Bounds sample_image) = 1050 /\
  exists pre post,
    accepted_of (written p p') =
    pre ++
    line "/MediaBox [0 0 720.00 504.00]" ++
    line "/CropBox [0 0 720.00 504.00]" ++
    post.
Proof.
  split; [vm_compute; reflexivity|].
  split; [vm_compute; reflexivity|].
  split; [vm_compute; reflexivity|].
  destruct (C9_jpeg_page_box_at_150_dpi sample_image (bytes "JPEGDATA")
              (fst (NewPDFWriter (trace (mkBuffer [])))))
    as (_ & (pre & post & Hout) & _).
  - vm_compute. reflexivity.
  - exists pre, post. rewrite Hout. vm_compute. reflexivity.
Defined.

(** ** The framing of a stream *)

(** C10.  [writeStream], when none of its writes fails, puts out the line
    [stream] with its newline, the payload byte for byte, and [endstream]
    directly after the last byte of the payload: the only newlines it adds
    are the one after [stream] and the one after [endstream]. *)
Theorem C10_stream_framing {W} `{Writer W}
        (data : list byte) (p : PDFWriter (Traced W)) :
  let p' := exec (writeStream data) p in
  all_ok (written p p') = true ->
  accepted_of (written p p') =
  bytes "stream" ++ [x0a] ++ data ++ bytes "endstream" ++ [x0a].
Proof.
  intros p' Hall. subst p'.
  rewrite (written_ok _ _ _ (emits_writeStream data p) Hall).
  unfold stream_text, line, nl. rewrite <- !app_assoc. reflexivity.
Qed.

(** C10 for a payload of five bytes. *)
Lemma C10_stream_framing_witness :
  let p := fst (NewPDFWriter (trace (mkBuffer []))) in
  let p' := exec (writeStream (bytes "BT ET")) p in
  all_ok (written p p') = true /\
  string_of_list_byte (accepted_of (written p p')) =
  String.append "stream" (String "010" (String.append "BT ETendstream" (String "010" ""))).
Proof.
  split; [vm_compute; reflexivity|].
  rewrite (C10_stream_framing (bytes "BT ET")
             (fst (NewPDFWriter (trace (mkBuffer []))))).
  - vm_compute. reflexivity.
  - vm_compute. reflexivity.
Defined.

(* ================================================================== *)
(** * Further properties of the code *)

(** X1.  [intObj] makes an object that holds one integer.  Called in a
    state whose cursor is the length of the output, with no failed write
    and within the range of [int], it returns the next identifier and no
    error, writes the three lines "id 0 obj", the number and "endobj", and
    records as offset of the object exactly the place where its first line
    starts; pages and [infoId] stay as they are. *)
Theorem X1_intObj_object {W} `{Writer W} (n : Z) (p : PDFWriter (Traced W)) :
  let p' := exec (intObj n) p in
  all_ok (log (w p')) = true ->
  len (accepted p') < 2 ^ 63 ->
  offset p = len (accepted p) ->
  eval (intObj n) p = (next_id p, None) /\
  accepted p' =
    accepted p ++
    line (fmt_d (next_id p) ++ " 0 obj") ++ line (fmt_d n) ++ line "endobj" /\
  objects p' = objects p ++ [len (accepted p)] /\
  offset p' = len (accepted p') /\
  pages p' = pages p /\
  infoId p' = infoId p.
Proof.
  intros p' Hok Hlen Hoff. subst p'.
  destruct (emits_ok _ _ _ (emits_intObj n p) Hok) as (_ & _ & _ & Herr).
  destruct (emits_exact _ _ _ (emits_intObj n p) Hok Hlen Hoff)
    as (Hacc & _ & Hlast).
  rewrite eval_intObj, Herr, objects_intObj, Hoff, pages_intObj, infoId_intObj.
  repeat split; assumption.
Qed.

(** X1 for the integer 42 as first object of a document in a
    [bytes.Buffer]: object 1 at offset 9. *)
Lemma X1_intObj_object_witness :
  let p := fst (NewPDFWriter (trace (mkBuffer []))) in
  let p' := exec (intObj 42) p in
  eval (intObj 42) p = (1, None) /\
  accepted p' = bytes "%PDF-1.3" ++ nl ++ bytes "1 0 obj" ++ nl ++
                bytes "42" ++ nl ++ bytes "endobj" ++ nl /\
  objects p' = [9].
Proof.
  destruct (X1_intObj_object 42 (fst (NewPDFWriter (trace (mkBuffer [])))))
    as (He & Ha & Ho & _); [vm_compute; reflexivity ..|].
  split; [exact He|]. split; [exact Ha|exact Ho].
Defined.

(** X2.  What a call returns is the answer of the sink to the last write
    the call issued, and nothing else: every operation and [Flush] issue
    at least one write, and return (and leave in [err]) the error of the
    last one.  [NewPDFWriter] does the same with the header. *)
Theorem X2_call_returns_last_answer {W} `{Writer W} :
  (forall (c : Call) (p : PDFWriter (Traced W)),
     exists evs ev,
       written p (after_call c p) = evs ++ [ev] /\
       returned c p = Ok (ev_err ev) /\
       err (after_call c p) = ev_err ev) /\
  (forall snk : W,
     exists evs ev,
       log (w (fst (NewPDFWriter (trace snk)))) = evs ++ [ev] /\
       snd (NewPDFWriter (trace snk)) = ev_err ev).
Proof.
  split.
  - intros c p.
    destruct (emits_written _ _ _ (emits_after_call c p))
      as (n & _ & Hne & Herr & _).
    destruct (last_err_last _ (err p) Hne) as (evs & ev & Hw & Hl).
    exists evs, ev. rewrite returned_err, Herr, Hl. auto.
  - intros snk.
    destruct (emits_written _ _ _ (emits_NewPDFWriter snk))
      as (n & Hlog & Hne & Herr & _).
    destruct (last_err_last _ (err (blank snk)) Hne) as (evs & ev & Hw & Hl).
    exists evs, ev. split.
    + rewrite Hlog, Hw. reflexivity.
    + unfold NewPDFWriter at 1. cbn [snd].
      change (exec (print "%PDF-1.3") (mkPDFWriter (trace snk) 0 [] [] None 0))
        with (fst (NewPDFWriter (trace snk))).
      rewrite Herr, Hl. reflexivity.
Qed.

(** X3.  The tables only grow, whatever the sink answers.  An operation
    appends to the object table as many offsets as it makes objects (one
    for [WriteInfo], two for [WritePage], three for [WriteJPEGPage]) and
    appends its page, if it makes one, to the page list; [Flush] appends
    two offsets, or one when it stops after the pages tree, and leaves the
    page list and [infoId] as they are.  No entry is ever changed or
    removed. *)
Theorem X3_tables_only_grow {W} `{Writer W} (p : PDFWriter W) :
  (forall o : Op,
     exists offs,
       objects (after o p) = objects p ++ offs /\
       len offs = op_objects o /\
       pages (after o p) = pages p ++ op_pages o (next_id p)) /\
  (exists offs,
     objects (exec Flush p) = objects p ++ offs /\
     len offs = (if isNil (err (after_pages p)) then 2 else 1) /\
     pages (exec Flush p) = pages p /\
     infoId (exec Flush p) = infoId p).
Proof.
  split.
  - intro o. destruct (objects_after o p) as (offs & Hobj & Hlen).
    exists offs. split; [exact Hobj|]. split; [exact Hlen|apply pages_after].
  - eexists. split; [apply objects_exec_Flush|].
    split; [destruct (isNil (err (after_pages p))); reflexivity|].
    split; [apply pages_exec_Flush|apply infoId_exec_Flush].
Qed.

(** X4.  At the end of a document, whatever the sink answered, the page
    list grows strictly (no page is listed twice), and every page in it,
    and the content stream after it, is an object of the table: the
    references of the pages tree are never dangling. *)
Theorem X4_pages_are_objects {W} `{Writer W} (snk : W) (ops : list Op) :
  let p := finished snk ops in
  (forall (i j : nat) (a b : PDFID),
     nth_error (pages p) i = Some a -> nth_error (pages p) j = Some b ->
     (i < j)%nat -> a < b) /\
  (forall id : PDFID, In id (pages p) -> 1 <= id /\ id + 1 < len (objects p)).
Proof.
  intros p. subst p. unfold finished.
  set (p0 := fst (NewPDFWriter snk)).
  assert (Hn0 : next_id p0 = 1).
  { unfold p0, NewPDFWriter. cbn [fst]. rewrite next_id_print. reflexivity. }
  assert (Hp0 : pages p0 = []).
  { unfold p0, NewPDFWriter. cbn [fst]. rewrite pages_print. reflexivity. }
  rewrite pages_exec_Flush, pages_after_all, Hn0, Hp0. cbn [app].
  destruct (ops_pages_increasing ops 1) as (Hb & Hi).
  split; [exact (increasing_nth _ Hi)|].
  intros id Hin. rewrite Forall_forall in Hb. specialize (Hb id Hin).
  cbv beta in Hb. split; [lia|].
  pose proof (next_id_after_all ops p0) as Hn. rewrite Hn0 in Hn.
  unfold next_id in Hn. rewrite objects_exec_Flush, len_app.
  destruct (isNil (err (after_pages (after_all ops p0))));
    [change (len [_; _]) with 2|change (len [_]) with 1]; lia.
Qed.

(** X5.  In a document written without a failed write (and within the
    range of [int]) the number that [Flush] prints after "startxref" is the
    number of bytes before the cross-reference section, so a reader that
    seeks to it finds the keyword "xref"; the line "%%EOF" ends the
    output. *)
Theorem X5_startxref_is_xref_position {W} `{Writer W} (snk : W) (ops : list Op) :
  let p := finished (trace snk) ops in
  all_ok (log (w p)) = true ->
  len (accepted p) < 2 ^ 63 ->
  exists head mid,
    accepted p =
      head ++ xref_text (objects p) ++ mid ++
      line "startxref" ++ line (fmt_d (len head)) ++ line "%%EOF" /\
    read_d (fmt_d (len head)) = len head.
Proof.
  intros p Hok Hlen. subst p.
  destruct (document_exact snk ops Hok Hlen) as (Hacc & Hobj).
  exists (body_text ops ++ pdf_pages_text ops ++ pdf_catalog_text ops).
  exists (line "trailer" ++
          line "<<" ++
          line ("/Size " ++ fmt_d (len (pdf_objects ops) + 1)) ++
          line ("/Info " ++ fmt_d (ops_infoId ops 1 0) ++ " 0 R") ++
          line ("/Root " ++ fmt_d (1 + ops_objects ops + 1) ++ " 0 R") ++
          line ("/ID [<" ++ id_const ++ "> <" ++ id_const ++ ">]") ++
          line ">>").
  split; [|apply read_fmt_d, len_nonneg].
  rewrite Hacc, Hobj, len_head_pdf_document.
  unfold pdf_document, trailer_text.
  rewrite <- !app_assoc. reflexivity.
Qed.

(** X5 on the sample document, written to a [bytes.Buffer]. *)
Lemma X5_startxref_is_xref_position_witness :
  let p := finished (trace (mkBuffer [])) sample_ops in
  all_ok (log (w p)) = true /\
  len (accepted p) < 2 ^ 63 /\
  exists head mid,
    accepted p =
      head ++ xref_text (objects p) ++ mid ++
      line "startxref" ++ line (fmt_d (len head)) ++ line "%%EOF" /\
    read_d (fmt_d (len head)) = len head.
Proof.
  split; [vm_compute; reflexivity|].
  split; [vm_compute; reflexivity|].
  apply (X5_startxref_is_xref_position (mkBuffer []) sample_ops);
    vm_compute; reflexivity.
Defined.

(** X6.  The end of a document written without a failed write hangs
    together.  With [n] objects in the table, the pages tree is object
    [n - 1] and the catalog is object [n], the last one; the catalog names
    the pages tree as [/Pages], the trailer names the catalog as [/Root]
    and gives [n + 1] as [/Size], which is also the count in the head of
    the cross-reference section; and the last two entries of the table are
    the places where the pages tree and the catalog start. *)
Theorem X6_catalog_and_trailer {W} `{Writer W} (snk : W) (ops : list Op) :
  let p := finished (trace snk) ops in
  let n := len (objects p) in
  all_ok (log (w p)) = true ->
  len (accepted p) < 2 ^ 63 ->
  exists body front tail,
    accepted p =
      body ++
      pages_obj_text (n - 1) (pages p) ++
      catalog_text n (n - 1) ++
      line "xref" ++
      line ("0 " ++ fmt_d (n + 1)) ++
      xref_free_entry ++
      xref_entries (objects p) ++
      line "trailer" ++
      line "<<" ++
      line ("/Size " ++ fmt_d (n + 1)) ++
      line ("/Info " ++ fmt_d (infoId p) ++ " 0 R") ++
      line ("/Root " ++ fmt_d n ++ " 0 R") ++
      tail /\
    objects p =
      front ++ [len body; len body + len (pages_obj_text (n - 1) (pages p))].
Proof.
  intros p n Hok Hlen. subst n p.
  destruct (document_exact snk ops Hok Hlen) as (Hacc & Hobj).
  rewrite Hacc, Hobj, pages_finished, infoId_finished, len_pdf_objects.
  replace (ops_objects ops + 2 - 1) with (1 + ops_objects ops) by lia.
  replace (ops_objects ops + 2) with (1 + ops_objects ops + 1) by lia.
  exists (body_text ops), (ops_offsets ops 1 9).
  exists (line ("/ID [<" ++ id_const ++ "> <" ++ id_const ++ ">]") ++
          line ">>" ++
          line "startxref" ++
          line (fmt_d (pdf_xref_offset ops)) ++
          line "%%EOF").
  split; [|reflexivity].
  unfold pdf_document, pdf_pages_text, pdf_catalog_text, xref_text, trailer_text.
  rewrite len_pdf_objects.
  replace (ops_objects ops + 2 + 1) with (1 + ops_objects ops + 1 + 1) by lia.
  rewrite <- !app_assoc. reflexivity.
Qed.

(** X6 on the sample document: eight objects, the pages tree is object 7
    and the catalog object 8. *)
Lemma X6_catalog_and_trailer_witness :
  let p := finished (trace (mkBuffer [])) sample_ops in
  let n := len (objects p) in
  n = 8 /\
  exists body front tail,
    accepted p =
      body ++
      pages_obj_text (n - 1) (pages p) ++
      catalog_text n (n - 1) ++
      line "xref" ++
      line ("0 " ++ fmt_d (n + 1)) ++
      xref_free_entry ++
      xref_entries (objects p) ++
      line "trailer" ++
      line "<<" ++
      line ("/Size " ++ fmt_d (n + 1)) ++
      line ("/Info " ++ fmt_d (infoId p) ++ " 0 R") ++
      line ("/Root " ++ fmt_d n ++ " 0 R") ++
      tail /\
    objects p =
      front ++ [len body; len body + len (pages_obj_text (n - 1) (pages p))].
Proof.
  split; [vm_compute; reflexivity|].
  apply (X6_catalog_and_trailer (mkBuffer []) sample_ops);
    vm_compute; reflexivity.
Defined.

(** X7.  The output is a function of the operations.  A document written
    without a failed write (and within the range of [int]) is, byte for
    byte, the document [pdf_document ops], and its object table is
    [pdf_objects ops]; neither mentions the sink.  So the same operations
    written to two sinks, of whatever kinds, give the same bytes and the
    same table. *)
Theorem X7_output_is_determined {W1 W2} `{Writer W1} `{Writer W2}
        (snk1 : W1) (snk2 : W2) (ops : list Op) :
  let p1 := finished (trace snk1) ops in
  let p2 := finished (trace snk2) ops in
  all_ok (log (w p1)) = true -> len (accepted p1) < 2 ^ 63 ->
  all_ok (log (w p2)) = true -> len (accepted p2) < 2 ^ 63 ->
  accepted p1 = pdf_document ops /\
  objects p1 = pdf_objects ops /\
  accepted p2 = accepted p1 /\
  objects p2 = objects p1.
Proof.
  intros p1 p2 Hok1 Hlen1 Hok2 Hlen2. subst p1 p2.
  destruct (document_exact snk1 ops Hok1 Hlen1) as (Ha1 & Ho1).
  destruct (document_exact snk2 ops Hok2 Hlen2) as (Ha2 & Ho2).
  rewrite Ha1, Ho1, Ha2, Ho2. repeat split.
Qed.

(** X7 on the sample document, written to a [bytes.Buffer] and to a sink
    that takes writes of up to 64 bytes. *)
Lemma X7_output_is_determined_witness :
  let p1 := finished (trace (mkBuffer [])) sample_ops in
  let p2 := finished (trace (mkPacket [] 64)) sample_ops in
  accepted p1 = pdf_document sample_ops /\
  objects p1 = pdf_objects sample_ops /\
  accepted p2 = accepted p1 /\
  objects p2 = objects p1.
Proof.
  apply (X7_output_is_determined (mkBuffer []) (mkPacket [] 64) sample_ops);
    vm_compute; reflexivity.
Defined.

(** X8.  In a document written without a failed write the objects follow
    one another in the output in the order of their identifiers: the first
    one starts at byte 9, right after the header line, and the table of
    offsets grows strictly. *)
Theorem X8_offsets_increase {W} `{Writer W} (snk : W) (ops : list Op) :
  let p := finished (trace snk) ops in
  all_ok (log (w p)) = true ->
  len (accepted p) < 2 ^ 63 ->
  nth_error (objects p) 0 = Some 9 /\
  forall (i j : nat) (a b : Z),
    nth_error (objects p) i = Some a -> nth_error (objects p) j = Some b ->
    (i < j)%nat -> a < b.
Proof.
  intros p Hok Hlen. subst p.
  destruct (document_exact snk ops Hok Hlen) as (_ & Hobj).
  rewrite Hobj. split.
  - unfold pdf_objects. destruct ops as [|o ops]; [reflexivity|].
    destruct o; reflexivity.
  - apply increasing_nth, pdf_objects_increasing.
Qed.

(** X8 on the sample document: its eight objects. *)
Lemma X8_offsets_increase_witness :
  let p := finished (trace (mkBuffer [])) sample_ops in
  objects p = [9; 127; 235; 291; 440; 527; 717; 782] /\
  nth_error (objects p) 0 = Some 9 /\
  forall (i j : nat) (a b : Z),
    nth_error (objects p) i = Some a -> nth_error (objects p) j = Some b ->
    (i < j)%nat -> a < b.
Proof.
  split; [vm_compute; reflexivity|].
  apply (X8_offsets_increase (mkBuffer []) sample_ops);
    vm_compute; reflexivity.
Defined.

(** X9.  [Flush] stops after the pages tree exactly when the last write of
    the pages tree failed: then it issues no further write (no catalog, no
    cross-reference section, no trailer) and returns the error of that
    write.  When that write succeeded, whatever happened to the writes
    before it, [Flush] goes on and issues more writes. *)
Theorem X9_Flush_stops_after_pages_tree {W} `{Writer W} (p : PDFWriter (Traced W)) :
  exists evs ev,
    written p (after_pages p) = evs ++ [ev] /\
    (ev_err ev <> None ->
     exec Flush p = after_pages p /\
     eval Flush p = ev_err ev /\
     written p (exec Flush p) = evs ++ [ev]) /\
    (ev_err ev = None ->
     exists more,
       more <> [] /\ written p (exec Flush p) = (evs ++ [ev]) ++ more).
Proof.
  pose proof (emits_Flush_pages p) as Hp. fold (after_pages p) in Hp.
  destruct (emits_written _ _ _ Hp) as (n & _ & Hne & Herr & _).
  destruct (last_err_last _ (err p) Hne) as (evs & ev & Hw & Hl).
  rewrite Hl in Herr. exists evs, ev. split; [exact Hw|]. split.
  - intros Hfail.
    assert (Hstop : exec Flush p = after_pages p).
    { rewrite exec_Flush, Herr. destruct (ev_err ev); [reflexivity|congruence]. }
    split; [exact Hstop|]. split.
    + rewrite eval_Flush, Hstop. exact Herr.
    + rewrite Hstop. exact Hw.
  - intros Hnil. rewrite <- Hw.
    pose proof (emits_Flush_catalog (next_id p) (after_pages p)) as Hc.
    fold (after_catalog p) in Hc.
    pose proof (emits_Flush_xref (after_catalog p)) as Hx.
    fold (after_xref p) in Hx.
    pose proof (emits_Flush_trailer (next_id p + 1) (offset (after_catalog p))
                  (after_xref p)) as Ht.
    pose proof (emits_trans _ _ _ _ _ Hc (emits_trans _ _ _ _ _ Hx Ht)) as Hrest.
    assert (Hrun : exec Flush p =
                   exec (Flush_trailer (next_id p + 1) (offset (after_catalog p)))
                        (after_xref p)).
    { rewrite exec_Flush, Herr, Hnil. reflexivity. }
    rewrite Hrun.
    exists (written (after_pages p)
              (exec (Flush_trailer (next_id p + 1) (offset (after_catalog p)))
                    (after_xref p))).
    split.
    + destruct (emits_written _ _ _ Hrest) as (n' & _ & Hne' & _). exact Hne'.
    + exact (written_trans _ _ _ _ _ Hp Hrest).
Qed.

(** X11.  [WritePage] without a failed write puts out two objects, one
    after the other: the page, whose [/Contents] names the very
    identifier that the header of the second object carries, and the
    content stream with the payload.  It returns the identifier of the
    page and no error. *)
Theorem X11_WritePage_contents_reference {W} `{Writer W}
        (x y : Length) (data : list byte) (p : PDFWriter (Traced W)) :
  let p' := after_WritePage x y data p in
  let id := next_id p in
  all_ok (written p p') = true ->
  WritePage x y data p = Ok ((id, None), p') /\
  exists box,
    accepted_of (written p p') =
      (obj_header id ++
       line "/Type /Page" ++
       box ++
       line ("/Contents " ++ fmt_d (id + 1) ++ " 0 R") ++
       obj_end) ++
      (obj_header (id + 1) ++
       line ("/Length " ++ fmt_d (len data)) ++
       line ">>" ++
       stream_text data ++
       obj_end).
Proof.
  intros p' id Hok. subst p' id.
  pose proof (emits_after_WritePage x y data p) as He.
  split.
  - rewrite WritePage_Ok, (written_err_ok _ _ _ He Hok). reflexivity.
  - exists (line ("/MediaBox [0 0 " ++ fmt_2f x ++ " " ++ fmt_2f y ++ "]") ++
            line ("/CropBox [0 0 " ++ fmt_2f x ++ " " ++ fmt_2f y ++ "]")).
    rewrite (written_ok _ _ _ He Hok).
    unfold WritePage_text, page_obj_text, stream_obj_text.
    rewrite <- !app_assoc. reflexivity.
Qed.

(** X11 for a page written to a [bytes.Buffer] after the header. *)
Lemma X11_WritePage_contents_reference_witness :
  let p := fst (NewPDFWriter (trace (mkBuffer []))) in
  let data := bytes "BT ET" in
  let p' := after_WritePage 612%float 792%float data p in
  let id := next_id p in
  id = 1 /\
  WritePage 612%float 792%float data p = Ok ((id, None), p') /\
  exists box,
    accepted_of (written p p') =
      (obj_header id ++
       line "/Type /Page" ++
       box ++
       line ("/Contents " ++ fmt_d (id + 1) ++ " 0 R") ++
       obj_end) ++
      (obj_header (id + 1) ++
       line ("/Length " ++ fmt_d (len data)) ++
       line ">>" ++
       stream_text data ++
       obj_end).
Proof.
  split; [vm_compute; reflexivity|].
  apply (X11_WritePage_contents_reference 612%float 792%float (bytes "BT ET")
           (fst (NewPDFWriter (trace (mkBuffer []))))).
  vm_compute. reflexivity.
Defined.

(** X12.  [WriteJPEGPage] without a failed write puts out three objects,
    one after the other: the page, the content stream and the image.  The
    [/Contents] of the page names the identifier in the header of the
    second object and its [/Resources] name, as [/I], the identifier in
    the header of the third; the content stream draws [/I] scaled to the
    very width and height that the page has as MediaBox; and the image
    object declares the pixel size of the image and the length of the
    data.  The call returns the identifier of the page and no error. *)
Theorem X12_WriteJPEGPage_references {W} `{Writer W}
        (img : Image) (data : list byte) (p : PDFWriter (Traced W)) :
  let p' := after_WriteJPEGPage img data p in
  let id := next_id p in
  let x := fmt_2f (points (Dx (Bounds img))) in
  let y := fmt_2f (points (Dy (Bounds img))) in
  all_ok (written p p') = true ->
  WriteJPEGPage img data p = Ok ((id, None), p') /\
  exists content filler,
    content =
      bytes (String "q" (String "010" "")) ++
      bytes (x ++ " 0 0 " ++ y ++ " 0 0 cm" ++ String "010" "") ++
      bytes ("/I Do" ++ String "010" "") ++
      bytes (String "Q" (String "010" "")) /\
    accepted_of (written p p') =
      (obj_header id ++
       line "/Type /Page" ++
       line ("/MediaBox [0 0 " ++ x ++ " " ++ y ++ "]") ++
       line ("/CropBox [0 0 " ++ x ++ " " ++ y ++ "]") ++
       line ("/Contents " ++ fmt_d (id + 1) ++ " 0 R") ++
       line ("/Resources << /XObject << /I " ++ fmt_d (id + 2) ++ " 0 R >> >>") ++
       obj_end) ++
      (obj_header (id + 1) ++
       line ("/Length " ++ fmt_d (len content)) ++
       line ">>" ++
       stream_text content ++
       obj_end) ++
      (obj_header (id + 2) ++
       filler ++
       line ("/Width " ++ fmt_d (Dx (Bounds img))) ++
       line ("/Height " ++ fmt_d (Dy (Bounds img))) ++
       line "/ColorSpace /DeviceRGB" ++
       line "/BitsPerComponent 8" ++
       line ("/Length " ++ fmt_d (len data)) ++
       line ">>" ++
       stream_text data ++
       obj_end).
Proof.
  intros p' id x y Hok. subst p' id x y.
  pose proof (emits_after_WriteJPEGPage img data p) as He.
  split.
  - rewrite WriteJPEGPage_Ok, (written_err_ok _ _ _ He Hok). reflexivity.
  - exists (JPEGPage_content (points (Dx (Bounds img))) (points (Dy (Bounds img)))).
    exists (line "/Type /XObject" ++
            line "/Subtype /Image" ++
            line "/Name /I" ++
            line "/Filter [ /DCTDecode ]").
    split; [reflexivity|].
    rewrite (written_ok _ _ _ He Hok).
    unfold WriteJPEGPage_text, jpeg_page_obj_text, stream_obj_text, image_obj_text.
    rewrite <- !app_assoc. reflexivity.
Qed.

(** X12 for an image of 1500 by 1050 pixels written to a [bytes.Buffer]
    after the header. *)
Lemma X12_WriteJPEGPage_references_witness :
  let p := fst (NewPDFWriter (trace (mkBuffer []))) in
  let data := bytes "JPEGDATA" in
  let p' := after_WriteJPEGPage sample_image data p in
  all_ok (written p p') = true /\
  next_id p = 1 /\
  fmt_2f (points (Dx (Bounds sample_image))) = "720.00"%string /\
  fmt_2f (points (Dy (Bounds sample_image))) = "504.00"%string /\
  WriteJPEGPage sample_image data p = Ok ((next_id p, None), p').
Proof.
  split; [vm_compute; reflexivity|].
  split; [vm_compute; reflexivity|].
  split; [vm_compute; reflexivity|].
  split; [vm_compute; reflexivity|].
  destruct (X12_WriteJPEGPage_references sample_image (bytes "JPEGDATA")
              (fst (NewPDFWriter (trace (mkBuffer []))))) as (Hret & _);
    [vm_compute; reflexivity|exact Hret].
Defined.

(** X13.  [WriteInfo] puts the title into the output as it is, between
    "/Title (" and ")": no character of it is escaped or left out,
    whatever the title holds.  Without a failed write the call returns no
    error and the object it made is the one [infoId] names. *)
Theorem X13_WriteInfo_title_verbatim {W} `{Writer W}
        (title : string) (mtime : Time) (p : PDFWriter (Traced W)) :
  let p' := exec (WriteInfo title mtime) p in
  all_ok (written p p') = true ->
  eval (WriteInfo title mtime) p = None /\
  infoId p' = next_id p /\
  exists rest,
    accepted_of (written p p') =
      obj_header (next_id p) ++
      (bytes "/Title (" ++ bytes title ++ bytes ")" ++ nl) ++
      rest.
Proof.
  intros p' Hok. subst p'.
  pose proof (emits_WriteInfo title mtime p) as He.
  split; [rewrite eval_WriteInfo; exact (written_err_ok _ _ _ He Hok)|].
  split; [apply infoId_WriteInfo|].
  exists (line ("/CreationDate (D:" ++ Format_20060102150405 mtime ++ ")") ++
          line ("/ModDate (D:" ++ Format_20060102150405 mtime ++ ")") ++
          line "/Producer (mvztopdf 1.0)" ++
          obj_end).
  rewrite (written_ok _ _ _ He Hok). unfold info_obj_text.
  f_equal. unfold line at 1. rewrite !bytes_app, <- !app_assoc. reflexivity.
Qed.

(** X13 for a title that holds a closing parenthesis. *)
Lemma X13_WriteInfo_title_verbatim_witness :
  let p := fst (NewPDFWriter (trace (mkBuffer []))) in
  let p' := exec (WriteInfo "a) b" sample_time) p in
  all_ok (written p p') = true /\
  exists rest,
    accepted_of (written p p') =
      obj_header (next_id p) ++
      (bytes "/Title (" ++ bytes "a) b" ++ bytes ")" ++ nl) ++
      rest.
Proof.
  split; [vm_compute; reflexivity|].
  destruct (X13_WriteInfo_title_verbatim "a) b" sample_time
              (fst (NewPDFWriter (trace (mkBuffer []))))) as (_ & _ & Hout);
    [vm_compute; reflexivity|exact Hout].
Defined.
